(** * Daily sales report: classification, rendering and manual reassignment

    A shallow embedding of [src/screens/test.tsx]: the text normaliser and
    field resolver, the payment and product classifiers of [makeSummary],
    the renderer [renderOutput] and the reassignment handlers
    [applyAssign], [applyAssignCourse] and [assignAllUnassignedToHanaSet].

    Conventions of the embedding.
    - A JavaScript string is the list of its UTF-16 code units ([jstring]).
      Literals are written as UTF-8 text and decoded by [utf16].
    - A JavaScript number is [number]: NaN, the two infinities, or a finite
      value carried as an exact rational.  Sales quantities and yen amounts
      are integers or short decimals, on which double arithmetic is exact;
      rounding of doubles is not modelled, and -0 is identified with 0.
    - A row (a JavaScript object) is the association list of its own
      enumerable properties in [Object.keys] order.
    - [Map], [Set] and [Record<RamenKey, number>] are stdpp [gmap]/[gset];
      arrays updated by index use stdpp's list lookup, insert and delete.
    - Regular expressions are terms of [regex], run by a backtracking
      matcher that follows the priority order of the ECMAScript matcher. *)

From Stdlib Require Import QArith Qround Qabs Lqa.
From stdpp Require Import gmap strings list fin_maps.

Local Open Scope N_scope.

(** ** Strings *)

Abbreviation jstring := (list N).

(** UTF-8 bytes to UTF-16 code units (astral code points become surrogate
    pairs). *)
Fixpoint utf8_decode (bs : list N) : jstring :=
  match bs with
  | [] => []
  | b0 :: t0 =>
    if b0 <? 0x80 then b0 :: utf8_decode t0
    else if b0 <? 0xE0 then
      match t0 with
      | b1 :: t1 => ((b0 - 0xC0) * 64 + (b1 - 0x80)) :: utf8_decode t1
      | _ => []
      end
    else if b0 <? 0xF0 then
      match t0 with
      | b1 :: b2 :: t2 =>
        ((b0 - 0xE0) * 4096 + (b1 - 0x80) * 64 + (b2 - 0x80)) :: utf8_decode t2
      | _ => []
      end
    else
      match t0 with
      | b1 :: b2 :: b3 :: t3 =>
        let cp := (b0 - 0xF0) * 262144 + (b1 - 0x80) * 4096
                  + (b2 - 0x80) * 64 + (b3 - 0x80) in
        let v := cp - 0x10000 in
        (0xD800 + v / 1024) :: (0xDC00 + v mod 1024) :: utf8_decode t3
      | _ => []
      end
  end.

Definition utf16 (s : string) : jstring :=
  utf8_decode (List.map Ascii.N_of_ascii (String.list_ascii_of_string s)).

Definition jstring_eqb (a b : jstring) : bool := bool_decide (a = b).

(** [WhiteSpace] and [LineTerminator] of ECMAScript: what [\s] matches and
    what [trim] strips. *)
Definition isLineTerminator (c : N) : bool :=
  (c =? 0x0A) || (c =? 0x0D) || (c =? 0x2028) || (c =? 0x2029).

Definition isSpace (c : N) : bool :=
  (c =? 0x09) || (c =? 0x0B) || (c =? 0x0C) || (c =? 0x20) || (c =? 0xA0)
  || (c =? 0x1680) || ((0x2000 <=? c) && (c <=? 0x200A))
  || (c =? 0x202F) || (c =? 0x205F) || (c =? 0x3000) || (c =? 0xFEFF)
  || isLineTerminator c.

Definition isDigit (c : N) : bool := (0x30 <=? c) && (c <=? 0x39).

Definition isUpperAscii (c : N) : bool := (0x41 <=? c) && (c <=? 0x5A).
Definition isLowerAscii (c : N) : bool := (0x61 <=? c) && (c <=? 0x7A).

(** [\w] without the unicode flag. *)
Definition isWordChar (c : N) : bool :=
  isUpperAscii c || isLowerAscii c || isDigit c || (c =? 0x5F).

Fixpoint dropWhileB (p : N -> bool) (s : jstring) : jstring :=
  match s with
  | c :: t => if p c then dropWhileB p t else s
  | [] => []
  end.

Fixpoint takeWhileB (p : N -> bool) (s : jstring) : jstring :=
  match s with
  | c :: t => if p c then c :: takeWhileB p t else []
  | [] => []
  end.

(** [String.prototype.trim]. *)
Definition trim (s : jstring) : jstring :=
  rev (dropWhileB isSpace (rev (dropWhileB isSpace s))).

(** [String.prototype.toLowerCase], by code unit.  ASCII letters fold, and
    so does the Kelvin sign U+212A, the only character outside ASCII whose
    lower case is an ASCII letter.  Every other code unit is kept: kana,
    kanji and full-width punctuation have no case, and a cased letter
    outside ASCII can neither equal nor fold to a character of the header
    tables below, so that comparisons of normalised headers with those
    tables come out as in the engine. *)
Definition lowerUnit (c : N) : N :=
  if isUpperAscii c then c + 32 else if c =? 0x212A then 0x6B else c.

Definition toLowerCase (s : jstring) : jstring := List.map lowerUnit s.

(** [norm]: replace U+00A0 by a space, trim, lower-case. *)
Definition norm (s : jstring) : jstring :=
  toLowerCase (trim (List.map (fun c => if c =? 0xA0 then 0x20 else c) s)).

(** ** Numbers *)

Inductive number : Type :=
| NaN
| PInf
| NInf
| Fin (q : Q).

Definition num (z : Z) : number := Fin (inject_Z z).

Definition Qltb (x y : Q) : bool := negb (Qle_bool y x).

(** [a + b] *)
Definition jsadd (a b : number) : number :=
  match a, b with
  | NaN, _ | _, NaN => NaN
  | PInf, NInf | NInf, PInf => NaN
  | PInf, _ | _, PInf => PInf
  | NInf, _ | _, NInf => NInf
  | Fin x, Fin y => Fin (Qred (x + y))
  end.

Definition jsneg (a : number) : number :=
  match a with
  | NaN => NaN
  | PInf => NInf
  | NInf => PInf
  | Fin x => Fin (Qred (- x))
  end.

(** [a - b] *)
Definition jssub (a b : number) : number := jsadd a (jsneg b).

(** [a < b]; every comparison with NaN is false. *)
Definition jslt (a b : number) : bool :=
  match a, b with
  | NaN, _ | _, NaN => false
  | _, NInf => false
  | NInf, _ => true
  | PInf, _ => false
  | Fin _, PInf => true
  | Fin x, Fin y => Qltb x y
  end.

(** [a <= b] *)
Definition jsle (a b : number) : bool :=
  match a, b with
  | NaN, _ | _, NaN => false
  | NInf, _ => true
  | _, PInf => true
  | _, NInf => false
  | PInf, _ => false
  | Fin x, Fin y => Qle_bool x y
  end.

Definition jsgt (a b : number) : bool := jslt b a.
Definition jsge (a b : number) : bool := jsle b a.

(** [ToBoolean] on a number: false exactly on 0 and NaN. *)
Definition truthy (a : number) : bool :=
  match a with
  | NaN => false
  | Fin q => negb (Qeq_bool q 0)
  | _ => true
  end.

Definition isFinite (a : number) : bool :=
  match a with Fin _ => true | _ => false end.

(** [Math.floor] *)
Definition jsfloor (a : number) : number :=
  match a with
  | Fin q => Fin (inject_Z (Qfloor q))
  | _ => a
  end.

(** [Math.min] and [Math.max] of two arguments. *)
Definition jsmin (a b : number) : number :=
  match a, b with
  | NaN, _ | _, NaN => NaN
  | _, _ => if jsle a b then a else b
  end.

Definition jsmax (a b : number) : number :=
  match a, b with
  | NaN, _ | _, NaN => NaN
  | _, _ => if jsle a b then b else a
  end.

(** Value of a run of decimal digits. *)
Definition digitsToZ (ds : jstring) : Z :=
  fold_left (fun acc c => (acc * 10 + Z.of_N (c - 0x30))%Z) ds 0%Z.

(** [Number(s)] on the strings the call sites pass: an optional minus
    sign, digits, and optionally a point followed by digits.  Anything
    else is outside the grammar of those call sites and yields NaN.
    The value is the one the digits write, kept exact: as everywhere in
    this model a finite number stands for itself, so neither the
    rounding to the nearest double nor the overflow to an infinity of a
    text beyond the double range (more than 308 digits before the point)
    is modelled; a property that turns on the size of a number says
    so. *)
Definition decimalToNumber (s : jstring) : number :=
  let '(neg, body) :=
    match s with
    | c :: t => if c =? 0x2D then (true, t) else (false, s)
    | [] => (false, s)
    end in
  let ip := takeWhileB isDigit body in
  let signed (q : Q) := if neg then Qred (- q) else Qred q in
  match ip, dropWhileB isDigit body with
  | _ :: _, [] => Fin (signed (inject_Z (digitsToZ ip)))
  | _ :: _, c :: fp =>
    if (c =? 0x2E) && negb (length fp =? 0)%nat && forallb isDigit fp then
      Fin (signed (inject_Z (digitsToZ ip)
                   + inject_Z (digitsToZ fp)
                     / inject_Z (10 ^ Z.of_nat (length fp)))%Q)
    else NaN
  | _, _ => NaN
  end.

(** Decimal digits of a natural number, most significant first. *)
Fixpoint digitsAux (fuel : nat) (n : N) (acc : jstring) : jstring :=
  match fuel with
  | O => acc
  | S f =>
    let acc' := (0x30 + n mod 10) :: acc in
    if n / 10 =? 0 then acc' else digitsAux f (n / 10) acc'
  end.

Definition decimalDigits (n : N) : jstring :=
  digitsAux (S (N.to_nat (N.log2 n))) n [].

(** Digits after the point of [n / d] (with [n < d]), by long division,
    at most [fuel] of them. *)
Fixpoint fracDigits (fuel : nat) (n d : N) : jstring :=
  match fuel with
  | O => []
  | S f =>
    if n =? 0 then []
    else (0x30 + (n * 10) / d) :: fracDigits f ((n * 10) mod d) d
  end.

Definition Qabs_parts (q : Q) : N * N * N :=
  let a := Z.abs (Qnum q) in
  let d := Zpos (Qden q) in
  (Z.to_N (a / d), Z.to_N (a mod d), Z.to_N d).

(** [Number::toString]: exact on integers; a fraction is written with
    its decimal expansion, cut after twenty places. *)
Definition numberToString (a : number) : jstring :=
  match a with
  | NaN => utf16 "NaN"
  | PInf => utf16 "Infinity"
  | NInf => utf16 "-Infinity"
  | Fin q =>
    let '(ip, r, d) := Qabs_parts q in
    let sign := if Qltb q 0 then utf16 "-" else [] in
    let frac := fracDigits 20 r d in
    sign ++ decimalDigits ip ++
      match frac with [] => [] | _ => utf16 "." ++ frac end
  end.

(** ** Regular expressions *)

Inductive cclass : Type :=
| CDigit                       (* \d *)
| CSpace                       (* \s *)
| CDot                         (* .  *)
| COneOf (l : list N)
| CUnion (a b : cclass).

Fixpoint inClass (k : cclass) (c : N) : bool :=
  match k with
  | CDigit => isDigit c
  | CSpace => isSpace c
  | CDot => negb (isLineTerminator c)
  | COneOf l => existsb (N.eqb c) l
  | CUnion a b => inClass a c || inClass b c
  end.

Inductive regex : Type :=
| Eps
| Chr (c : N)
| Cls (k : cclass)
| Seq (a b : regex)
| Alt (a b : regex)
| Star (a : regex)               (* greedy a* *)
| Bol                            (* ^ *)
| Eol                            (* $ *)
| WordB                          (* \b *)
| Group (k : nat) (a : regex).   (* k-th capturing group *)

Declare Scope regex_scope.
Delimit Scope regex_scope with re.
Bind Scope regex_scope with regex.
Notation "a <.> b" := (Seq a b) (at level 41, right associativity) : regex_scope.
Notation "a <|> b" := (Alt a b) (at level 42, right associativity) : regex_scope.

Definition Plus (a : regex) : regex := Seq a (Star a).
Definition Opt (a : regex) : regex := Alt a Eps.

Fixpoint lit (w : jstring) : regex :=
  match w with
  | [] => Eps
  | c :: t => Seq (Chr c) (lit t)
  end.

Definition str (s : string) : regex := lit (utf16 s).

(** A matcher configuration: the input already passed (nearest first),
    the input ahead, and the captures made so far (latest first). *)
Record cfg : Type := Cfg {
  before : jstring;
  after : jstring;
  caps : list (nat * jstring);
}.

(** [Canonicalize] under the ignore-case flag without the unicode flag:
    the upper case of the code unit.  The patterns of this program hold
    ASCII letters, kana, kanji and brackets only; an ASCII letter is the
    upper case of itself and of its lower-case form alone (the engine
    refuses to fold a non-ASCII unit onto an ASCII one), and no other unit
    of the patterns is the upper case of a different unit. *)
Definition canon (c : N) : N := if isLowerAscii c then c - 32 else c.

Definition unitMatches (ic : bool) (c x : N) : bool :=
  if ic then canon c =? canon x else c =? x.

Definition step (x : cfg) : option (N * cfg) :=
  match after x with
  | c :: t => Some (c, Cfg (c :: before x) t (caps x))
  | [] => None
  end.

(** Greedy iteration.  An iteration that consumes nothing is rejected, as
    in the engine, so the input ahead bounds the number of iterations. *)
Fixpoint iterate (f : cfg -> list cfg) (fuel : nat) (x : cfg) : list cfg :=
  match fuel with
  | O => [x]
  | S n =>
    flat_map (iterate f n)
      (List.filter (fun y => (length (after y) <? length (after x))%nat) (f x))
    ++ [x]
  end.

Definition atWordBoundary (x : cfg) : bool :=
  let a := match before x with c :: _ => isWordChar c | [] => false end in
  let b := match after x with c :: _ => isWordChar c | [] => false end in
  xorb a b.

Definition capture (k : nat) (x y : cfg) : cfg :=
  let n := (length (before y) - length (before x))%nat in
  Cfg (before y) (after y) ((k, rev (take n (before y))) :: caps y).

(** All the ways [r] matches at [x], in the order in which the
    backtracking matcher tries them. *)
Fixpoint run (ic : bool) (r : regex) {struct r} : cfg -> list cfg :=
  fun x =>
  match r with
  | Eps => [x]
  | Chr c =>
    match step x with
    | Some (d, y) => if unitMatches ic c d then [y] else []
    | None => []
    end
  | Cls k =>
    match step x with
    | Some (d, y) => if inClass k d then [y] else []
    | None => []
    end
  | Seq a b => flat_map (run ic b) (run ic a x)
  | Alt a b => run ic a x ++ run ic b x
  | Star a => iterate (run ic a) (length (after x)) x
  | Bol => match before x with [] => [x] | _ => [] end
  | Eol => match after x with [] => [x] | _ => [] end
  | WordB => if atWordBoundary x then [x] else []
  | Group k a => List.map (capture k x) (run ic a x)
  end.

(** Leftmost match: try every start position from left to right. *)
Fixpoint search (ic : bool) (r : regex) (pre suf : jstring) : option (cfg * cfg) :=
  let x := Cfg pre suf [] in
  match run ic r x with
  | y :: _ => Some (x, y)
  | [] =>
    match suf with
    | c :: t => search ic r (c :: pre) t
    | [] => None
    end
  end.

Record RegExp : Type := RE { body : regex; ignoreCase : bool }.

(** The result of [String.prototype.match] without the global flag. *)
Record MatchResult : Type := Match {
  m0 : jstring;                    (* m[0], the matched text *)
  mgroups : list (nat * jstring);  (* the groups that took part *)
}.

Definition exec (re : RegExp) (s : jstring) : option MatchResult :=
  match search (ignoreCase re) (body re) [] s with
  | Some (x, y) =>
    Some (Match (take (length (after x) - length (after y)) (after x)) (caps y))
  | None => None
  end.

(** [m[k]] *)
Definition group (k : nat) (m : MatchResult) : option jstring :=
  snd <$> List.find (fun g => (fst g =? k)%nat) (mgroups m).

(** [re.test(s)] *)
Definition test (re : RegExp) (s : jstring) : bool :=
  match exec re s with Some _ => true | None => false end.

(** ** Rows and the field resolver *)

Inductive cell : Type :=
| VNull                 (* null, undefined, or no such property *)
| VNum (n : number)
| VStr (s : jstring).

(** An object as its properties in [Object.keys] order. *)
Abbreviation Row := (list (jstring * cell)).

Definition keys (row : Row) : list jstring := List.map fst row.

(** [row[k]] *)
Definition rowGet (row : Row) (k : jstring) : cell :=
  match List.find (fun kv => jstring_eqb (fst kv) k) row with
  | Some kv => snd kv
  | None => VNull
  end.

(** [/-?\d+(\.\d+)?/] *)
Definition NUMERIC_RE : RegExp :=
  RE (Opt (Chr 0x2D) <.> Plus (Cls CDigit)
      <.> Opt (Group 1 (Chr 0x2E <.> Plus (Cls CDigit)))) false.

(** [s.replace(/[,\s]/g, '')] *)
Definition stripSeparators (s : jstring) : jstring :=
  List.filter (fun c => negb (inClass (CUnion (COneOf [0x2C]) CSpace) c)) s.

Definition toNum (v : cell) : number :=
  match v with
  | VNull => num 0
  | VNum n => n
  | VStr t =>
    match exec NUMERIC_RE (stripSeparators t) with
    | Some m => decimalToNumber (m0 m)
    | None => num 0
    end
  end.

(** [String(v ?? '')] *)
Definition cellText (v : cell) : jstring :=
  match v with
  | VNull => []
  | VNum n => numberToString n
  | VStr t => t
  end.

Definition findKey (row : Row) (cand : jstring) : option jstring :=
  List.find (fun k => jstring_eqb (norm k) (norm cand)) (keys row).

(** A string is truthy when it is not empty. *)
Definition nonEmpty (s : jstring) : bool :=
  match s with [] => false | _ => true end.

Fixpoint firstByCandidates (row : Row) (candidates : list jstring) : number :=
  match candidates with
  | [] => num 0
  | cand :: rest =>
    match findKey row cand with
    | Some hit =>
      if nonEmpty hit then toNum (rowGet row hit)
      else firstByCandidates row rest
    | None => firstByCandidates row rest
    end
  end.

Fixpoint firstKeyStr (row : Row) (candidates : list jstring) : jstring :=
  match candidates with
  | [] => []
  | cand :: rest =>
    match findKey row cand with
    | Some hit =>
      if nonEmpty hit then cellText (rowGet row hit)
      else firstKeyStr row rest
    | None => firstKeyStr row rest
    end
  end.

(** ** Tables of the screen *)

Inductive RamenKey : Type :=
| 花 | 月 | 雪 | 月花 | 雪月 | 雪月花 | 花こふれ | カレーラーメン | 氷花.

Definition RAMEN_KEYS : list RamenKey :=
  [花; 月; 雪; 月花; 雪月; 雪月花; 花こふれ; カレーラーメン; 氷花].

Definition RAMEN_LABELS (k : RamenKey) : jstring :=
  match k with
  | 花 => utf16 "花"
  | 月 => utf16 "月（ランチ）"
  | 雪 => utf16 "雪（ランチ）"
  | 月花 => utf16 "月花"
  | 雪月 => utf16 "雪月"
  | 雪月花 => utf16 "雪月花"
  | 花こふれ => utf16 "花こふれ"
  | カレーラーメン => utf16 "カレーラーメン"
  | 氷花 => utf16 "氷花"
  end.

Definition RAMEN_DISPLAY_ORDER : list RamenKey :=
  [雪; 月; 花; 月花; 雪月; 雪月花; 花こふれ; カレーラーメン; 氷花].

Definition SET_ALLOWED_KEYS : list RamenKey := [花; 月花; 雪月].

Definition RamenKey_index (k : RamenKey) : nat :=
  match k with
  | 花 => 0 | 月 => 1 | 雪 => 2 | 月花 => 3 | 雪月 => 4
  | 雪月花 => 5 | 花こふれ => 6 | カレーラーメン => 7 | 氷花 => 8
  end.

#[global] Instance RamenKey_eq_dec : EqDecision RamenKey.
Proof. solve_decision. Defined.

#[global] Instance RamenKey_countable : Countable RamenKey.
Proof.
  refine (inj_countable' RamenKey_index (fun n => nth n RAMEN_KEYS 花) _).
  intros []; reflexivity.
Defined.

Inductive PaymentKey : Type :=
| total | card | tablecheck | paypay | cash | funfo.

Definition PAYMENT_KEY_ORDER : list PaymentKey :=
  [total; card; tablecheck; paypay; cash; funfo].

Definition PaymentKey_index (k : PaymentKey) : nat :=
  match k with
  | total => 0 | card => 1 | tablecheck => 2
  | paypay => 3 | cash => 4 | funfo => 5
  end.

#[global] Instance PaymentKey_eq_dec : EqDecision PaymentKey.
Proof. solve_decision. Defined.

#[global] Instance PaymentKey_countable : Countable PaymentKey.
Proof.
  refine (inj_countable' PaymentKey_index (fun n => nth n PAYMENT_KEY_ORDER total) _).
  intros []; reflexivity.
Defined.

Definition PAYMENT_LABELS (k : PaymentKey) : jstring :=
  match k with
  | total => utf16 "売上"
  | card => utf16 "クレジット・IC（Square）"
  | tablecheck => utf16 "Table check"
  | paypay => utf16 "PayPay"
  | cash => utf16 "現金"
  | funfo => utf16 "Funfo"
  end.

Definition PAYMENT_ALIASES (k : PaymentKey) : list jstring :=
  match k with
  | total => [utf16 "売上高（税込み）"; utf16 "売上高 (税込み)"; utf16 "売上高 (税込)";
              utf16 "税込み売上高"; utf16 "税込売上"]
  | card => [utf16 "Square"; utf16 "square"; utf16 "クレジット・IC";
             utf16 "クレジット・IC（Square）"; utf16 "クレジット･IC"]
  | tablecheck => [utf16 "Table check"; utf16 "TableCheck"; utf16 "テーブルチェック"]
  | paypay => [utf16 "PayPay"; utf16 "paypay"; utf16 "Pay Pay"]
  | cash => [utf16 "現金"; utf16 "cash"; utf16 "Cash"; utf16 "CASH"]
  | funfo => [utf16 "Funfo"; utf16 "fnfo"; utf16 "FNFO"; utf16 "Fnfo"]
  end.

Definition EXTRA_PAYMENT_IGNORE : list jstring :=
  [utf16 "会計数"; utf16 "組数"; utf16 "groups"; utf16 "group count";
   utf16 "客数"; utf16 "来客数"; utf16 "人数"; utf16 "customers"].

Definition PRODUCT_NAME_CANDS : list jstring :=
  [utf16 "商品名"; utf16 "品名"; utf16 "メニュー"; utf16 "商品";
   utf16 "Item Name"; utf16 "item"; utf16 "name"].
Definition PRODUCT_QTY_CANDS : list jstring :=
  [utf16 "商品販売数"; utf16 "販売数"; utf16 "数量"; utf16 "個数";
   utf16 "Quantity"; utf16 "Qty"].
Definition PRODUCT_CATEGORY_CANDS : list jstring :=
  [utf16 "カテゴリ"; utf16 "カテゴリー"; utf16 "category"; utf16 "Category"].
Definition GROUP_CANDS : list jstring :=
  [utf16 "会計数"; utf16 "組数"; utf16 "groups"; utf16 "group count"].
Definition PEOPLE_CANDS : list jstring :=
  [utf16 "客数"; utf16 "来客数"; utf16 "人数"; utf16 "customers"].

(** The literal list added to the ignore set inside [makeSummary]. *)
Definition IGNORE_LITERALS : list jstring :=
  [utf16 "集計期間"; utf16 "割引前 売上高"; utf16 "売上高（税抜き）";
   utf16 "売上高（非課税）"; utf16 "内消費税（合計）"; utf16 "内消費税（10%標準）";
   utf16 "内消費税（8%軽減）"; utf16 "売上高（10%標準）"; utf16 "売上高（8%軽減）";
   utf16 "会計単価"; utf16 "客単価"; utf16 "商品販売数";
   utf16 "割引合計_1"; utf16 "会計割引"; utf16 "割引合計"; utf16 "割引"].

(** ** Patterns *)

Local Open Scope regex_scope.

Definition digit : regex := Cls CDigit.
Definition spaces : regex := Star (Cls CSpace).       (* \s* *)
Definition anything : regex := Star (Cls CDot).       (* .* *)

(** [/(ディナー|dinner)/i] *)
Definition DINNER_PATTERN : RegExp :=
  RE (Group 1 (str "ディナー" <|> str "dinner")) true.
(** [/クラファン/i] *)
Definition CROWDFUND_PATTERN : RegExp := RE (str "クラファン") true.
(** [/(\d+)名/] *)
Definition NAME_PEOPLE_PATTERN : RegExp :=
  RE (Group 1 (Plus digit) <.> str "名") false.
(** [/(\d{4,5})/] *)
Definition PRICE_PATTERN : RegExp :=
  RE (Group 1 (digit <.> digit <.> digit <.> digit <.> Opt digit)) false.

(** [/ラーメン.*(?:「|『)?花(?:」|』)?\s*or\s*(?:「|『)?月花(?:」|』)?.*セット/i] *)
Definition FORCE_AMBIG_SET_HANA_GEKKA : RegExp :=
  RE (str "ラーメン" <.> anything
      <.> Opt (str "「" <|> str "『") <.> str "花" <.> Opt (str "」" <|> str "』")
      <.> spaces <.> str "or" <.> spaces
      <.> Opt (str "「" <|> str "『") <.> str "月花" <.> Opt (str "」" <|> str "』")
      <.> anything <.> str "セット") true.

(** [/月花.*コース/i] *)
Definition EXCLUDED_PRODUCT_REGEXPS : list RegExp :=
  [RE (str "月花" <.> anything <.> str "コース") true].

(** [/ラーメン|らーめん|麺|ramen/i] *)
Definition RAMENISH_RE : RegExp :=
  RE (str "ラーメン" <|> str "らーめん" <|> str "麺" <|> str "ramen") true.
(** [/よくばり.*カレー/i] *)
Definition YOKUBARI_RE : RegExp :=
  RE (str "よくばり" <.> anything <.> str "カレー") true.
(** [/(パティ|ﾊﾟﾃｨ).*(カレー|ｶﾚｰ)/i] *)
Definition PATTY_RE : RegExp :=
  RE (Group 1 (str "パティ" <|> str "ﾊﾟﾃｨ") <.> anything
      <.> Group 2 (str "カレー" <|> str "ｶﾚｰ")) true.

Definition isRamenish (name : jstring) : bool := test RAMENISH_RE name.
Definition isYokubariCurry (name : jstring) : bool := test YOKUBARI_RE name.
Definition isPattyCurry (name : jstring) : bool := test PATTY_RE name.

(** The nine patterns of [guessRamenKey], in the order they are tried. *)
Definition GUESS_SETSUGEKKA : RegExp := RE (str "雪月花" <|> str "setsugekka") true.
Definition GUESS_SETSUGETSU : RegExp := RE (str "雪月" <|> str "setsugetsu") true.
Definition GUESS_GEKKA : RegExp := RE (str "月花" <|> str "gekka") true.
(** [/氷花|hyouka|hyoka|ice\s*hana/i] *)
Definition GUESS_HYOUKA : RegExp :=
  RE (str "氷花" <|> str "hyouka" <|> str "hyoka"
      <|> str "ice" <.> spaces <.> str "hana") true.
(** [/花こふれ|hana\s*cof+ret|hana\s*coffret/i] *)
Definition GUESS_COFFRET : RegExp :=
  RE (str "花こふれ"
      <|> str "hana" <.> spaces <.> str "co" <.> Plus (str "f") <.> str "ret"
      <|> str "hana" <.> spaces <.> str "coffret") true.
(** [/(?:カレー|curry).*(?:ラーメン|らーめん|ramen)/i] *)
Definition GUESS_CURRY : RegExp :=
  RE ((str "カレー" <|> str "curry") <.> anything
      <.> (str "ラーメン" <|> str "らーめん" <|> str "ramen")) true.
(** [/豆乳ラーメン「?花|(?:^|\s)花(?:」|$)|\bhana\b/i] *)
Definition GUESS_HANA : RegExp :=
  RE (str "豆乳ラーメン" <.> Opt (str "「") <.> str "花"
      <|> (Bol <|> Cls CSpace) <.> str "花" <.> (str "」" <|> Eol)
      <|> WordB <.> str "hana" <.> WordB) true.
(** [/(?:「|^|\s)月(?:」|$)|\btsuki\b/i] *)
Definition GUESS_TSUKI : RegExp :=
  RE ((str "「" <|> Bol <|> Cls CSpace) <.> str "月" <.> (str "」" <|> Eol)
      <|> WordB <.> str "tsuki" <.> WordB) true.
(** [/(?:「|^|\s)雪(?:」|$)|\byuki\b/i] *)
Definition GUESS_YUKI : RegExp :=
  RE ((str "「" <|> Bol <|> Cls CSpace) <.> str "雪" <.> (str "」" <|> Eol)
      <|> WordB <.> str "yuki" <.> WordB) true.

Definition guessRamenKey (name : jstring) : option RamenKey :=
  if test GUESS_SETSUGEKKA name then Some 雪月花
  else if test GUESS_SETSUGETSU name then Some 雪月
  else if test GUESS_GEKKA name then Some 月花
  else if test GUESS_HYOUKA name then Some 氷花
  else if test GUESS_COFFRET name then Some 花こふれ
  else if test GUESS_CURRY name then Some カレーラーメン
  else if test GUESS_HANA name then Some 花
  else if test GUESS_TSUKI name then Some 月
  else if test GUESS_YUKI name then Some 雪
  else None.

(** The unnamed patterns of the product loop. *)
(** [/セット|set/i] *)
Definition SET_WORD_RE : RegExp := RE (str "セット" <|> str "set") true.
(** [/(コース|course)/i] *)
Definition COURSE_NAME_RE : RegExp :=
  RE (Group 1 (str "コース" <|> str "course")) true.
(** [/(予約メニュー|予約|コース|course)/i] *)
Definition COURSE_CATEGORY_RE : RegExp :=
  RE (Group 1 (str "予約メニュー" <|> str "予約" <|> str "コース" <|> str "course")) true.
(** [/(セット|set\b)/i] *)
Definition SET_NAME_RE : RegExp :=
  RE (Group 1 (str "セット" <|> str "set" <.> WordB)) true.
(** [/セット/i] *)
Definition SET_CATEGORY_RE : RegExp := RE (str "セット") true.

(** [/^\d{4}-\d{2}-\d{2}/] *)
Definition DATE_COLUMN_RE : RegExp :=
  RE (Bol <.> digit <.> digit <.> digit <.> digit <.> str "-"
      <.> digit <.> digit <.> str "-" <.> digit <.> digit) false.
(** [/(20\d{2})年?0?(\d{1,2})月?0?(\d{1,2})日?/] *)
Definition DATE_NAME_RE : RegExp :=
  RE (Group 1 (str "20" <.> digit <.> digit) <.> Opt (str "年") <.> Opt (str "0")
      <.> Group 2 (digit <.> Opt digit) <.> Opt (str "月") <.> Opt (str "0")
      <.> Group 3 (digit <.> Opt digit) <.> Opt (str "日")) false.

(** ** The data of a report *)

(** [Record<RamenKey, number>] and [Record<PaymentKey, number>].  Reading
    a property that is absent yields undefined, which arithmetic and
    comparisons treat as NaN. *)
Abbreviation Totals := (gmap RamenKey number).

Definition at_ {K} `{Countable K} (t : gmap K number) (k : K) : number :=
  default NaN (t !! k).

(** [{ ...t, [k]: t[k] + n }] *)
Definition bump {K} `{Countable K} (k : K) (n : number) (t : gmap K number)
  : gmap K number :=
  <[k := jsadd (at_ t k) n]> t.

Definition makeEmptyTotals : Totals :=
  foldl (fun totals k => <[k := num 0]> totals) ∅ RAMEN_KEYS.
Definition makeEmptySetTotals : Totals := makeEmptyTotals.

Record PickedFile : Type := {
  uri : jstring;
  name : option jstring;
  type : option jstring;
}.

Record OtherPayment : Type := {
  op_label : jstring;     (* label *)
  op_amount : number;     (* amount *)
}.

Record CoursePeopleEntry : Type := {
  cp_label : jstring;     (* label *)
  cp_price : number;      (* price *)
  cp_count : number;      (* count *)
}.

Record UnassignedItem : Type := {
  ui_name : jstring;      (* name *)
  ui_count : number;      (* count *)
}.

Record MetaState : Type := {
  dateISO : jstring;
  payments : gmap PaymentKey number;
  otherPayments : list OtherPayment;
  groups : number;
  people : number;
  yokubariCurry : number;
  pattyCurry : number;
}.

(** The state held by the screen. *)
Record ReportState : Type := {
  productFile : option PickedFile;
  statsFile : option PickedFile;
  unassigned : list UnassignedItem;
  ramenTotals : Totals;
  ramenSetTotals : Totals;
  ramenCourseTotals : Totals;
  coursePeopleEntries : list CoursePeopleEntry;
  meta : MetaState;
}.

(** [Alert.alert(title, message)] *)
Record Alert : Type := {
  title : jstring;
  message : jstring;
}.

(** What the screen takes from its host: the spreadsheet decoder behind
    [readRows] (an error message when it throws), the clock, and the
    local-time fields of [new Date(iso + 'T00:00:00+09:00')]. *)
Record Host : Type := {
  readRows : PickedFile -> jstring + list Row;
  todayISO : jstring;
  getMonth : jstring -> number;
  getDate : jstring -> number;
  getDay : jstring -> number;
}.

(** ** Rendering *)

(** Digits grouped by three from the right. *)
Fixpoint group3 (rev_digits : jstring) : jstring :=
  match rev_digits with
  | a :: b :: c :: ((_ :: _) as t) => a :: b :: c :: 0x2C :: group3 t
  | _ => rev_digits
  end.

Definition stripTrailingZeros (ds : jstring) : jstring :=
  rev (dropWhileB (N.eqb 0x30) (rev ds)).

(** [n.toLocaleString('ja-JP')]: grouping by three, at most three
    fraction digits, rounded half away from zero. *)
Definition toLocaleString (a : number) : jstring :=
  match a with
  | NaN => utf16 "NaN"
  | PInf => utf16 "∞"
  | NInf => utf16 "-∞"
  | Fin q =>
    let r := Z.to_N (Qfloor (Qabs q * 1000 + (1 # 2))%Q) in
    let ip := rev (group3 (rev (decimalDigits (r / 1000)))) in
    let f := r mod 1000 in
    let fp := stripTrailingZeros
                [0x30 + f / 100; 0x30 + (f / 10) mod 10; 0x30 + f mod 10] in
    (if Qltb q 0 then utf16 "-" else [])
    ++ ip ++ match fp with [] => [] | _ => utf16 "." ++ fp end
  end.

Definition jpCurrency (n : number) : jstring := utf16 "¥" ++ toLocaleString n.

Definition WEEKDAYS : list jstring :=
  [utf16 "日曜日"; utf16 "月曜日"; utf16 "火曜日"; utf16 "水曜日";
   utf16 "木曜日"; utf16 "金曜日"; utf16 "土曜日"].

(** An array index held in a number: a non-negative integer. *)
Definition arrayIndex (i : number) : option nat :=
  match i with
  | Fin q =>
    if Qeq_bool q (inject_Z (Qfloor q)) && Qle_bool 0 q
    then Some (Z.to_nat (Qfloor q)) else None
  | _ => None
  end.

(** [a[i]] *)
Definition arrayGet {A} (a : list A) (i : number) : option A :=
  arrayIndex i ≫= (a !!.).

Definition jpDateLabel (h : Host) (isoDate : jstring) : jstring :=
  let weekday := default (utf16 "undefined") (arrayGet WEEKDAYS (getDay h isoDate)) in
  numberToString (jsadd (getMonth h isoDate) (num 1)) ++ utf16 "月"
  ++ numberToString (getDate h isoDate) ++ utf16 "日（" ++ weekday ++ utf16 "）".

(** [parts.join(sep)] *)
Fixpoint join (sep : jstring) (parts : list jstring) : jstring :=
  match parts with
  | [] => []
  | [x] => x
  | x :: t => x ++ sep ++ join sep t
  end.

Definition pushBlank (lines : list jstring) : list jstring :=
  match last lines with
  | Some l => if nonEmpty l then lines ++ [[]] else lines
  | None => lines
  end.

Definition paymentLines (m : MetaState) : list jstring :=
  omap (fun key =>
          let amount := at_ (payments m) key in
          if jsgt amount (num 0)
          then Some (PAYMENT_LABELS key ++ utf16 "　" ++ jpCurrency amount)
          else None) PAYMENT_KEY_ORDER
  ++ omap (fun o =>
          if jsgt (op_amount o) (num 0)
          then Some (op_label o ++ utf16 "　" ++ jpCurrency (op_amount o))
          else None) (otherPayments m).

Definition groupPeopleLines (m : MetaState) : list jstring :=
  (if jsgt (groups m) (num 0) then [numberToString (groups m) ++ utf16 "組"] else [])
  ++ (if jsgt (people m) (num 0) then [numberToString (people m) ++ utf16 "人"] else []).

Definition ramenTotalCount (ramenTotals ramenSetTotals ramenCourseTotals : Totals)
  : number :=
  foldl (fun s k =>
           jsadd (jsadd (jsadd s (at_ ramenTotals k)) (at_ ramenSetTotals k))
                 (at_ ramenCourseTotals k))
        (num 0) RAMEN_KEYS.

Definition ramenLine (ramenTotals ramenSetTotals ramenCourseTotals : Totals)
  (key : RamenKey) : option jstring :=
  let base := at_ ramenTotals key in
  let setCount := at_ ramenSetTotals key in
  let courseCount := at_ ramenCourseTotals key in
  let total := jsadd (jsadd base setCount) courseCount in
  if jsle total (num 0) then None
  else
    let noteParts :=
      (if jsgt setCount (num 0)
       then [utf16 "+セット" ++ numberToString setCount ++ utf16 "杯"] else [])
      ++ (if jsgt courseCount (num 0)
          then [utf16 "+コース" ++ numberToString courseCount ++ utf16 "杯"] else []) in
    let note :=
      match noteParts with
      | [] => []
      | _ => utf16 "(" ++ join (utf16 ", ") noteParts ++ utf16 ")"
      end in
    Some (utf16 "・" ++ RAMEN_LABELS key ++ utf16 "　"
          ++ numberToString total ++ utf16 "杯" ++ note).

Definition sideLines (m : MetaState) : list jstring :=
  (if jsgt (yokubariCurry m) (num 0)
   then [utf16 "よくばりカレー　" ++ numberToString (yokubariCurry m) ++ utf16 "杯"] else [])
  ++ (if jsgt (pattyCurry m) (num 0)
      then [utf16 "パティカレー　" ++ numberToString (pattyCurry m) ++ utf16 "杯"] else []).

Definition courseLine (e : CoursePeopleEntry) : option jstring :=
  if negb (truthy (cp_count e)) || jsle (cp_count e) (num 0) then None
  else
    let labelWithPrice :=
      if jsgt (cp_price e) (num 0)
      then cp_label e ++ numberToString (cp_price e) else cp_label e in
    Some (labelWithPrice ++ utf16 " " ++ numberToString (cp_count e) ++ utf16 "名").

(** The array [lines] of [renderOutput] when it is joined. *)
Definition renderLines (h : Host) (m : MetaState)
  (ramenTotals ramenSetTotals ramenCourseTotals : Totals)
  (coursePeople : list CoursePeopleEntry) (unassignedCount : number)
  : list jstring :=
  (* 1) date *)
  let lines := [jpDateLabel h (dateISO m)] in
  (* 2) payments *)
  let lines :=
    match paymentLines m with
    | [] => lines
    | pl => pushBlank lines ++ pl
    end in
  (* 3) groups and people *)
  let lines :=
    match groupPeopleLines m with
    | [] => lines
    | gp => pushBlank lines ++ gp
    end in
  (* 4) ramen *)
  let rtc := ramenTotalCount ramenTotals ramenSetTotals ramenCourseTotals in
  let lines :=
    if jsgt rtc (num 0) then
      pushBlank lines
      ++ [utf16 "ラーメン  " ++ numberToString rtc ++ utf16 "杯"]
      ++ omap (ramenLine ramenTotals ramenSetTotals ramenCourseTotals)
              RAMEN_DISPLAY_ORDER
    else lines in
  (* 5) sides *)
  let lines :=
    match sideLines m with
    | [] => lines
    | sides => pushBlank lines ++ sides
    end in
  (* 6) course bookings *)
  let lines :=
    match coursePeople with
    | [] => lines
    | _ => pushBlank lines ++ omap courseLine coursePeople
    end in
  (* 7) unassigned notice *)
  if jsgt unassignedCount (num 0) then
    pushBlank lines
    ++ [utf16 "（要振り分け候補：未計上 " ++ numberToString unassignedCount ++ utf16 " 件）"]
  else lines.

Definition renderOutput (h : Host) (m : MetaState)
  (ramenTotals ramenSetTotals ramenCourseTotals : Totals)
  (coursePeople : list CoursePeopleEntry) (unassignedCount : number) : jstring :=
  join (utf16 (String (Ascii.ascii_of_N 10) EmptyString))
    (renderLines h m ramenTotals ramenSetTotals ramenCourseTotals
       coursePeople unassignedCount).

(** The memoised [output] of the screen. *)
Definition output (h : Host) (st : ReportState) : jstring :=
  renderOutput h (meta st) (ramenTotals st) (ramenSetTotals st)
    (ramenCourseTotals st) (coursePeopleEntries st)
    (num (Z.of_nat (length (unassigned st)))).

(** ** Payment classification (first half of [makeSummary]) *)

Definition buildPaymentAliasMap : gmap jstring PaymentKey :=
  foldl (fun m key =>
           foldl (fun m alias => <[norm alias := key]> m) m (PAYMENT_ALIASES key))
        ∅ PAYMENT_KEY_ORDER.

Definition buildIgnoreSet (aliasMap : gmap jstring PaymentKey) : gset jstring :=
  let s := dom aliasMap in
  let s := foldl (fun s k => {[norm (PAYMENT_LABELS k)]} ∪ s) s PAYMENT_KEY_ORDER in
  let s := foldl (fun s l => {[norm l]} ∪ s) s EXTRA_PAYMENT_IGNORE in
  foldl (fun s l => {[norm l]} ∪ s) s IGNORE_LITERALS.

Record PaymentAcc : Type := {
  acc_payments : gmap PaymentKey number;   (* the local payments *)
  acc_other : list OtherPayment;           (* the local otherPayments *)
}.

Definition zeroPayments : gmap PaymentKey number :=
  foldl (fun m k => <[k := num 0]> m) ∅ PAYMENT_KEY_ORDER.

(** The callback of [Object.entries(dayRow).forEach]. *)
Definition paymentEntry (aliasMap : gmap jstring PaymentKey)
  (ignoreSet : gset jstring) (acc : PaymentAcc) (entry : jstring * cell)
  : PaymentAcc :=
  let '(rawKey, rawValue) := entry in
  let amount := toNum rawValue in
  if negb (truthy amount) then acc
  else
    let nk := norm rawKey in
    let rest :=
      if bool_decide (nk ∈ ignoreSet) then acc
      else {| acc_payments := acc_payments acc;
              acc_other := acc_other acc
                           ++ [{| op_label := rawKey; op_amount := amount |}] |} in
    match aliasMap !! nk with
    | Some total | None => rest
    | Some pkey =>
      {| acc_payments := bump pkey amount (acc_payments acc);
         acc_other := acc_other acc |}
    end.

Definition pickFirst (row : Row) (cands : list jstring) : number :=
  default (num 0)
    (List.find (fun v => jsgt v (num 0))
       (List.map (fun c => firstByCandidates row [c]) cands)).

Definition classifyPayments (dayRow : Row) : PaymentAcc :=
  let aliasMap := buildPaymentAliasMap in
  let ignoreSet := buildIgnoreSet aliasMap in
  let acc := foldl (paymentEntry aliasMap ignoreSet)
                   {| acc_payments := zeroPayments; acc_other := [] |} dayRow in
  let fixedTotal := pickFirst dayRow (PAYMENT_ALIASES total) in
  if truthy fixedTotal
  then {| acc_payments := <[total := fixedTotal]> (acc_payments acc);
          acc_other := acc_other acc |}
  else acc.

(** ** The report date *)

Definition groupText (k : nat) (m : MatchResult) : jstring :=
  default (utf16 "undefined") (group k m).

(** [s.padStart(2, '0')] *)
Definition padStart2 (s : jstring) : jstring :=
  replicate (2 - length s) 0x30 ++ s.

Definition dateFromName (fileName : jstring) : option jstring :=
  match exec DATE_NAME_RE fileName with
  | Some m =>
    Some (groupText 1 m ++ utf16 "-" ++ padStart2 (groupText 2 m)
          ++ utf16 "-" ++ padStart2 (groupText 3 m))
  | None => None
  end.

Definition fileName (f : PickedFile) : jstring := default [] (name f).

Definition resolveDateISO (h : Host) (dayRow : Row) (statsFile productFile : PickedFile)
  : jstring :=
  let dateISOFromCol :=
    m0 <$> exec DATE_COLUMN_RE (cellText (rowGet dayRow (utf16 "集計期間"))) in
  match dateISOFromCol with
  | Some d => d
  | None =>
    match dateFromName (fileName statsFile) with
    | Some d => d
    | None =>
      match dateFromName (fileName productFile) with
      | Some d => d
      | None => todayISO h
      end
    end
  end.

(** ** Product classification (the loop over [productRows]) *)

Record ProductAcc : Type := {
  localTotals : Totals;
  localSetTotals : Totals;
  localCourseTotals : Totals;
  ambiguous : list UnassignedItem;
  coursePeople : list CoursePeopleEntry;
  sideYokubari : number;          (* the local yokubariCurry *)
  sidePatty : number;             (* the local pattyCurry *)
}.

Definition emptyProductAcc : ProductAcc :=
  {| localTotals := makeEmptyTotals;
     localSetTotals := makeEmptySetTotals;
     localCourseTotals := makeEmptySetTotals;
     ambiguous := [];
     coursePeople := [];
     sideYokubari := num 0;
     sidePatty := num 0 |}.

Definition pushAmbiguous (it : UnassignedItem) (a : ProductAcc) : ProductAcc :=
  {| localTotals := localTotals a; localSetTotals := localSetTotals a;
     localCourseTotals := localCourseTotals a;
     ambiguous := ambiguous a ++ [it];
     coursePeople := coursePeople a;
     sideYokubari := sideYokubari a; sidePatty := sidePatty a |}.

Definition pushCoursePeople (e : CoursePeopleEntry) (a : ProductAcc) : ProductAcc :=
  {| localTotals := localTotals a; localSetTotals := localSetTotals a;
     localCourseTotals := localCourseTotals a;
     ambiguous := ambiguous a;
     coursePeople := coursePeople a ++ [e];
     sideYokubari := sideYokubari a; sidePatty := sidePatty a |}.

Definition addYokubari (n : number) (a : ProductAcc) : ProductAcc :=
  {| localTotals := localTotals a; localSetTotals := localSetTotals a;
     localCourseTotals := localCourseTotals a;
     ambiguous := ambiguous a; coursePeople := coursePeople a;
     sideYokubari := jsadd (sideYokubari a) n; sidePatty := sidePatty a |}.

Definition addPatty (n : number) (a : ProductAcc) : ProductAcc :=
  {| localTotals := localTotals a; localSetTotals := localSetTotals a;
     localCourseTotals := localCourseTotals a;
     ambiguous := ambiguous a; coursePeople := coursePeople a;
     sideYokubari := sideYokubari a; sidePatty := jsadd (sidePatty a) n |}.

Definition addPlain (k : RamenKey) (n : number) (a : ProductAcc) : ProductAcc :=
  {| localTotals := bump k n (localTotals a); localSetTotals := localSetTotals a;
     localCourseTotals := localCourseTotals a;
     ambiguous := ambiguous a; coursePeople := coursePeople a;
     sideYokubari := sideYokubari a; sidePatty := sidePatty a |}.

Definition addSet (k : RamenKey) (n : number) (a : ProductAcc) : ProductAcc :=
  {| localTotals := localTotals a; localSetTotals := bump k n (localSetTotals a);
     localCourseTotals := localCourseTotals a;
     ambiguous := ambiguous a; coursePeople := coursePeople a;
     sideYokubari := sideYokubari a; sidePatty := sidePatty a |}.

(** [priceMatch ? Number(priceMatch[1]) : 0] *)
Definition coursePrice (name : jstring) : number :=
  match exec PRICE_PATTERN name with
  | Some m => decimalToNumber (groupText 1 m)
  | None => num 0
  end.

(** [peopleMatch ? Number(peopleMatch[1]) : count] *)
Definition coursePeopleCount (name : jstring) (count : number) : number :=
  match exec NAME_PEOPLE_PATTERN name with
  | Some m => decimalToNumber (groupText 1 m)
  | None => count
  end.

Definition courseLabel (name : jstring) : jstring :=
  if test DINNER_PATTERN name then utf16 "ディナー"
  else if test CROWDFUND_PATTERN name then utf16 "クラファンコース"
  else utf16 "コース".

Definition isCourse (name category : jstring) : bool :=
  test COURSE_NAME_RE name || test COURSE_CATEGORY_RE category.

(** The body of the loop once [name], [count] and [category] are read. *)
Definition classifyNamed (name : jstring) (count : number) (category : jstring)
  (acc : ProductAcc) : ProductAcc :=
  (* 0) excluded products *)
  if existsb (fun rx => test rx name) EXCLUDED_PRODUCT_REGEXPS then acc
  (* 0.5) the "hana or gekka" set goes to the unassigned list *)
  else if test FORCE_AMBIG_SET_HANA_GEKKA name && test SET_WORD_RE name
  then pushAmbiguous {| ui_name := name; ui_count := count |} acc
  (* sides *)
  else if isYokubariCurry name then addYokubari count acc
  else if isPattyCurry name then addPatty count acc
  (* course bookings *)
  else if isCourse name category then
    pushCoursePeople
      {| cp_label := courseLabel name;
         cp_price := coursePrice name;
         cp_count := coursePeopleCount name count |} acc
  else
    let guessed := guessRamenKey name in
    let isSet := test SET_NAME_RE name || test SET_CATEGORY_RE category in
    match guessed with
    | Some g => if isSet then addSet g count acc else addPlain g count acc
    | None =>
      if isRamenish name
      then pushAmbiguous {| ui_name := name; ui_count := count |} acc
      else acc
    end.

(** One iteration of [for (const row of productRows)]. *)
Definition classifyProduct (acc : ProductAcc) (row : Row) : ProductAcc :=
  let name := firstKeyStr row PRODUCT_NAME_CANDS in
  let count := firstByCandidates row PRODUCT_QTY_CANDS in
  if negb (truthy count) then acc
  else
    let category := firstKeyStr row PRODUCT_CATEGORY_CANDS in
    classifyNamed name count category acc.

Definition classifyProducts (productRows : list Row) : ProductAcc :=
  foldl classifyProduct emptyProductAcc productRows.

(** ** [makeSummary] *)

Definition errorAlert (msg : jstring) : Alert :=
  {| title := utf16 "エラー"; message := msg |}.

Definition makeSummary (h : Host) (st : ReportState) : ReportState * option Alert :=
  match productFile st, statsFile st with
  | Some pf, Some sf =>
    match readRows h pf, readRows h sf with
    | inr productRows, inr statsRows =>
      match statsRows with
      | [] => (st, Some (errorAlert (utf16 "売上詳細CSVに行がありません。")))
      | dayRow :: _ =>
        let pay := classifyPayments dayRow in
        let groups := firstByCandidates dayRow GROUP_CANDS in
        let people := firstByCandidates dayRow PEOPLE_CANDS in
        let dateISO := resolveDateISO h dayRow sf pf in
        let acc := classifyProducts productRows in
        ({| productFile := productFile st;
            statsFile := statsFile st;
            unassigned := ambiguous acc;
            ramenTotals := localTotals acc;
            ramenSetTotals := localSetTotals acc;
            ramenCourseTotals := localCourseTotals acc;
            coursePeopleEntries := coursePeople acc;
            meta := {| dateISO := dateISO;
                       payments := acc_payments pay;
                       otherPayments := acc_other pay;
                       groups := groups;
                       people := people;
                       yokubariCurry := sideYokubari acc;
                       pattyCurry := sidePatty acc |} |}, None)
      end
    | inl e, _ => (st, Some (errorAlert e))
    | _, inl e => (st, Some (errorAlert e))
    end
  | _, _ =>
    (st, Some {| title := utf16 "不足";
                 message := utf16 "「商品別 CSV/Excel」と「支払方法別 CSV/Excel」を両方選んでください。" |})
  end.

(** ** Manual reassignment *)

Definition setUnassigned (l : list UnassignedItem) (st : ReportState) : ReportState :=
  {| productFile := productFile st; statsFile := statsFile st;
     unassigned := l;
     ramenTotals := ramenTotals st; ramenSetTotals := ramenSetTotals st;
     ramenCourseTotals := ramenCourseTotals st;
     coursePeopleEntries := coursePeopleEntries st; meta := meta st |}.

Definition setRamenTotals (f : Totals -> Totals) (st : ReportState) : ReportState :=
  {| productFile := productFile st; statsFile := statsFile st;
     unassigned := unassigned st;
     ramenTotals := f (ramenTotals st); ramenSetTotals := ramenSetTotals st;
     ramenCourseTotals := ramenCourseTotals st;
     coursePeopleEntries := coursePeopleEntries st; meta := meta st |}.

Definition setRamenSetTotals (f : Totals -> Totals) (st : ReportState) : ReportState :=
  {| productFile := productFile st; statsFile := statsFile st;
     unassigned := unassigned st;
     ramenTotals := ramenTotals st; ramenSetTotals := f (ramenSetTotals st);
     ramenCourseTotals := ramenCourseTotals st;
     coursePeopleEntries := coursePeopleEntries st; meta := meta st |}.

Definition setRamenCourseTotals (f : Totals -> Totals) (st : ReportState) : ReportState :=
  {| productFile := productFile st; statsFile := statsFile st;
     unassigned := unassigned st;
     ramenTotals := ramenTotals st; ramenSetTotals := ramenSetTotals st;
     ramenCourseTotals := f (ramenCourseTotals st);
     coursePeopleEntries := coursePeopleEntries st; meta := meta st |}.

Definition assignAllUnassignedToHanaSet (st : ReportState)
  : ReportState * option Alert :=
  match unassigned st with
  | [] =>
    (st, Some {| title := utf16 "未振り分けなし";
                 message := utf16 "振り分け候補の項目はありません。" |})
  | _ =>
    let addCount := foldl (fun s it => jsadd s (ui_count it)) (num 0) (unassigned st) in
    (setUnassigned [] (setRamenSetTotals (bump 花 addCount) st), None)
  end.

(** The quantity moved by [applyAssign] and [applyAssignCourse]:
    [requested], [numeric] and [qty] of the source. *)
Definition assignQty (item : UnassignedItem) (amount : option number) : number :=
  let requested := default (ui_count item) amount in
  let numeric :=
    if isFinite requested then jsfloor requested else ui_count item in
  jsmax (num 0) (jsmin numeric (ui_count item)).

(** The array returned by the updater of [setUnassigned] once [qty > 0]. *)
Definition assignNext (prev : list UnassignedItem) (i : nat)
  (item : UnassignedItem) (qty : number) : list UnassignedItem :=
  if jsge qty (ui_count item) then delete i prev
  else <[i := {| ui_name := ui_name item;
                 ui_count := jssub (ui_count item) qty |}]> prev.

Definition applyAssign (index : number) (key : RamenKey) (asSet : bool)
  (amount : option number) (st : ReportState) : ReportState :=
  let prev := unassigned st in
  match arrayIndex index with
  | None => st
  | Some i =>
    match prev !! i with
    | None => st
    | Some item =>
      let qty := assignQty item amount in
      if jsle qty (num 0) then st
      else
        let st' :=
          if asSet then setRamenSetTotals (bump key qty) st
          else setRamenTotals (bump key qty) st in
        setUnassigned (assignNext prev i item qty) st'
    end
  end.

Definition applyAssignCourse (index : number) (key : RamenKey)
  (amount : option number) (st : ReportState) : ReportState :=
  let prev := unassigned st in
  match arrayIndex index with
  | None => st
  | Some i =>
    match prev !! i with
    | None => st
    | Some item =>
      let qty := assignQty item amount in
      if jsle qty (num 0) then st
      else
        setUnassigned (assignNext prev i item qty)
          (setRamenCourseTotals (bump key qty) st)
    end
  end.

(** The state of the screen when it is mounted ([useState] initial
    values). *)
Definition initialState (h : Host) : ReportState :=
  {| productFile := None;
     statsFile := None;
     unassigned := [];
     ramenTotals := makeEmptyTotals;
     ramenSetTotals := makeEmptySetTotals;
     ramenCourseTotals := makeEmptySetTotals;
     coursePeopleEntries := [];
     meta := {| dateISO := todayISO h;
                payments := zeroPayments;
                otherPayments := [];
                groups := num 0;
                people := num 0;
                yokubariCurry := num 0;
                pattyCurry := num 0 |} |}.

(** [onCopy]: nothing happens on an empty report; otherwise the report
    goes to the clipboard and a confirmation is shown. *)
Definition onCopy (h : Host) (st : ReportState) : option (jstring * Alert) :=
  if nonEmpty (output h st)
  then Some (output h st,
             {| title := utf16 "コピー完了";
                message := utf16 "日報テキストをクリップボードにコピーしました。" |})
  else None.

(** ** Choosing the decoder *)

(** [s.startsWith(w)] and [s.includes(w)] *)
Fixpoint startsWith (w s : jstring) : bool :=
  match w, s with
  | [], _ => true
  | c :: w', d :: s' => (c =? d) && startsWith w' s'
  | _ :: _, [] => false
  end.

Fixpoint includes (w s : jstring) : bool :=
  startsWith w s || match s with [] => false | _ :: t => includes w t end.

Definition EXCEL_MIME_TYPES : list jstring :=
  [utf16 "application/vnd.ms-excel";
   utf16 "application/vnd.openxmlformats-officedocument.spreadsheetml.sheet"].

(** [/\.(xlsx|xls)$/i] *)
Definition EXCEL_NAME_RE : RegExp :=
  RE (str "." <.> Group 1 (str "xlsx" <|> str "xls") <.> Eol) true.

(** [isExcelFile]: the decoder behind [readRows] is the workbook reader
    for these files and the CSV parser for all others.  The only letters
    the tests below look for are ASCII letters other than i and k, which
    no character outside ASCII lower-cases to, so that [toLowerCase] by
    code unit decides them as the engine does. *)
Definition isExcelFile (file : PickedFile) : bool :=
  let name := default [] (toLowerCase <$> name file) in
  let mime := default [] (toLowerCase <$> type file) in
  if test EXCEL_NAME_RE name then true
  else if negb (nonEmpty mime) then false
  else if bool_decide (mime ∈ EXCEL_MIME_TYPES) then true
  else includes (utf16 "spreadsheetml") mime.

(** ** Vocabulary of the statements *)

(** Sum of the remaining quantities of a list of unassigned items. *)
Fixpoint sumCounts (l : list UnassignedItem) : number :=
  match l with
  | [] => num 0
  | it :: t => jsadd (ui_count it) (sumCounts t)
  end.

(** Sample data used to exercise the statements. *)
Definition sampleFile (s : string) : PickedFile :=
  {| uri := utf16 s; name := Some (utf16 s); type := None |}.

Definition productRow (n : string) (q : Z) : Row :=
  [(utf16 "商品名", VStr (utf16 n)); (utf16 "販売数", VNum (num q))].

(** A host whose decoder yields the given rows for the file named
    "products.csv" and [stats] for any other file, on 3 September 2025,
    a Wednesday. *)
Definition sampleHost (products stats : list Row) : Host :=
  {| readRows := fun f =>
       if jstring_eqb (uri f) (utf16 "products.csv") then inr products else inr stats;
     todayISO := utf16 "2025-09-03";
     getMonth := fun _ => num 8;
     getDate := fun _ => num 3;
     getDay := fun _ => num 3 |}.

Definition sampleHostState (products stats : list Row) (l : list UnassignedItem)
  : ReportState :=
  {| productFile := Some (sampleFile "products.csv");
     statsFile := Some (sampleFile "stats.csv");
     unassigned := l;
     ramenTotals := makeEmptyTotals;
     ramenSetTotals := makeEmptySetTotals;
     ramenCourseTotals := makeEmptySetTotals;
     coursePeopleEntries := [];
     meta := meta (initialState (sampleHost products stats)) |}.

Definition sampleState (l : list UnassignedItem) : ReportState :=
  sampleHostState [] [] l.

Definition item (n : string) (q : Z) : UnassignedItem :=
  {| ui_name := utf16 n; ui_count := num q |}.

(** The three tables a reassignment can feed. *)
Inductive Bucket : Type := Plain | SetOf | CourseOf.

#[global] Instance Bucket_eq_dec : EqDecision Bucket.
Proof. solve_decision. Defined.

Definition bucketTotals (b : Bucket) (st : ReportState) : Totals :=
  match b with
  | Plain => ramenTotals st
  | SetOf => ramenSetTotals st
  | CourseOf => ramenCourseTotals st
  end.

(** [x] clamped to the interval from 0 to [c]; 0 when the interval is
    empty. *)
Definition clampQty (c x : number) : number :=
  if jsle x (num 0) || jsle c (num 0) then num 0
  else if jsle x c then x
  else c.

(** The amount a reassignment asks for, as a whole number: the amount
    floored when it is finite, the remaining quantity floored when no
    amount is given, and the remaining quantity as it is when the amount
    is NaN or infinite. *)
Definition askedQty (it : UnassignedItem) (amount : option number) : number :=
  match amount with
  | Some a => if isFinite a then jsfloor a else ui_count it
  | None => jsfloor (ui_count it)
  end.

Definition movedQty (it : UnassignedItem) (amount : option number) : number :=
  clampQty (ui_count it) (askedQty it amount).

(** [st'] is [st] after [q] units of the [i]-th unassigned item [it]
    went to the count of [key] in table [b]. *)
Definition Moved (b : Bucket) (key : RamenKey) (i : nat) (it : UnassignedItem)
  (q : number) (st st' : ReportState) : Prop :=
  (* the chosen count grows by q and nothing else is counted *)
  bucketTotals b st' = <[key := jsadd (at_ (bucketTotals b st) key) q]> (bucketTotals b st)
  /\ (forall b', b' <> b -> bucketTotals b' st' = bucketTotals b' st)
  (* no more than what remains is moved *)
  /\ jsle q (ui_count it) = true
  (* the item goes when all of it is moved, and shrinks otherwise *)
  /\ (if jsge q (ui_count it)
      then unassigned st' = delete i (unassigned st)
      else unassigned st' =
             <[i := {| ui_name := ui_name it;
                       ui_count := jssub (ui_count it) q |}]> (unassigned st)
           /\ jsle (jssub (ui_count it) q) (ui_count it) = true
           /\ jsgt (jssub (ui_count it) q) (num 0) = true)
  /\ coursePeopleEntries st' = coursePeopleEntries st
  /\ meta st' = meta st
  /\ productFile st' = productFile st
  /\ statsFile st' = statsFile st.

(** The value a header alias has in a row: the cell of the first column
    whose normalised header is the normalised alias, read as a number;
    0 when there is no such column. *)
Definition columnValue (row : Row) (alias : jstring) : number :=
  match List.find (fun kv => jstring_eqb (norm kv.1) (norm alias)) row with
  | Some kv => toNum kv.2
  | None => num 0
  end.

Definition notPositive (row : Row) (alias : jstring) : Prop :=
  jsgt (columnValue row alias) (num 0) = false.

(** A header matches a channel alias when its normal form is that of an
    alias of one of the six channels. *)
Definition matchesChannelAlias (header : jstring) : Prop :=
  norm header ∈ norm <$> (PAYMENT_KEY_ORDER ≫= PAYMENT_ALIASES).

(** The denylist of columns that are never payments: the channel labels,
    the head counts, and the tax, discount and period columns. *)
Definition denylist : list jstring :=
  (PAYMENT_LABELS <$> PAYMENT_KEY_ORDER) ++ EXTRA_PAYMENT_IGNORE ++ IGNORE_LITERALS.

Definition denied (header : jstring) : Prop :=
  norm header ∈ norm <$> denylist.

(** The columns that become other payments. *)
Definition recordedAsOther (kv : jstring * cell) : Prop :=
  truthy (toNum kv.2) = true
  /\ ~ matchesChannelAlias kv.1
  /\ ~ denied kv.1.

#[global] Instance recordedAsOther_dec (kv : jstring * cell) :
  Decision (recordedAsOther kv).
Proof. unfold recordedAsOther, matchesChannelAlias, denied. apply _. Defined.

Definition otherPaymentOf (kv : jstring * cell) : OtherPayment :=
  {| op_label := kv.1; op_amount := toNum kv.2 |}.

(** Text up to the case of ASCII letters, when [ic] is set. *)
Definition foldCase (ic : bool) (s : jstring) : jstring :=
  if ic then canon <$> s else s.

(** [s] contains the word [w] (up to ASCII case when [ic] is set). *)
Definition contains (ic : bool) (w s : jstring) : Prop :=
  exists u m v, s = u ++ m ++ v /\ foldCase ic m = foldCase ic w.

(** [s] holds the text [w] as it is written. *)
Definition hasText (w : string) (s : jstring) : Prop := contains false (utf16 w) s.

(** [s] holds the word [w] in any mix of upper and lower case. *)
Definition mentions (w : string) (s : jstring) : Prop := contains true (utf16 w) s.

Definition allDigits (d : jstring) : Prop := Forall (fun c => isDigit c = true) d.

(** The number written by a run of decimal digits, in positional
    notation: each digit counts for its value times the power of ten of
    its place. *)
Fixpoint decimalValue (d : jstring) : Z :=
  match d with
  | [] => 0
  | c :: t => (Z.of_N (c - 0x30) * 10 ^ Z.of_nat (length t) + decimalValue t)%Z
  end.

(** [s] starts with [k] digits. *)
Definition startsWithDigits (k : nat) (s : jstring) : Prop :=
  exists d v, s = d ++ v /\ allDigits d /\ length d = k.

(** [s] starts with a run of digits that 名 follows. *)
Definition startsWithHeadcount (s : jstring) : Prop :=
  exists d v, s = d ++ utf16 "名" ++ v /\ allDigits d /\ d <> [].

(** The price of a course name.  When the name has four digits in a
    row, the price is written by the digits [d] that start at the first
    place where four digits in a row start, five of them when a fifth
    digit follows and four otherwise.  When the name has no four digits
    in a row, the price is 0. *)
Definition PriceOf (name : jstring) (p : number) : Prop :=
  (exists u d v,
      name = u ++ d ++ v /\ allDigits d
      /\ (forall u' w', u = u' ++ w' -> w' <> [] ->
                        ~ startsWithDigits 4 (w' ++ d ++ v))
      /\ (length d = 5%nat \/ (length d = 4%nat /\ ~ startsWithDigits 1 v))
      /\ p = num (decimalValue d))
  \/ ((forall u w, name = u ++ w -> ~ startsWithDigits 4 w) /\ p = num 0).

(** The head count of a course name.  When the name has a part "N名",
    the head count is the N of the first such part: the digits [d] that
    start at the first place from which digits and then 名 follow, up to
    that 名.  When the name has no such part, the head count is the
    quantity of the row.  The N is read as it is written as long as it
    has at most 308 digits, the range of the numbers of the engine. *)
Definition HeadcountOf (name : jstring) (count n : number) : Prop :=
  (exists u d v,
      name = u ++ d ++ utf16 "名" ++ v /\ allDigits d /\ d <> []
      /\ (forall u' w', u = u' ++ w' -> w' <> [] ->
                        ~ startsWithHeadcount (w' ++ d ++ utf16 "名" ++ v))
      /\ ((length d <= 308)%nat -> n = num (decimalValue d)))
  \/ ((forall u w, name = u ++ w -> ~ startsWithHeadcount w) /\ n = count).

(** [r] matches at the position that has [pre] behind and [suf] ahead. *)
Definition MatchAt (ic : bool) (r : regex) (pre suf : jstring) : Prop :=
  run ic r (Cfg pre suf []) <> [].

(** [r] matches somewhere in [s]. *)
Definition Found (ic : bool) (r : regex) (s : jstring) : Prop :=
  exists u w, s = u ++ w /\ MatchAt ic r (rev u) w.

(** A word without ASCII letters is matched by itself only. *)
Definition caseless (w : jstring) : Prop :=
  Forall (fun c => isUpperAscii c = false /\ isLowerAscii c = false) w.



(** No column of the row is a quantity column. *)
Definition noQuantityColumn (row : Row) : Prop :=
  forall k, k ∈ keys row -> norm k ∉ norm <$> PRODUCT_QTY_CANDS.

(** ** Vocabulary of the further properties *)

(** What the product loop decides for a row, in the order of its rules. *)
Inductive Fate : Type :=
| Skipped                       (* falsy quantity *)
| Excluded                      (* on the exclusion list *)
| Unassigned                    (* forced or fallback ambiguity *)
| SideYokubari
| SidePatty
| Course
| RamenSet (g : RamenKey)
| RamenPlain (g : RamenKey)
| Dropped.                      (* no rule applies *)

#[global] Instance Fate_eq_dec : EqDecision Fate.
Proof. solve_decision. Defined.

Definition rowName (row : Row) : jstring := firstKeyStr row PRODUCT_NAME_CANDS.
Definition rowCount (row : Row) : number := firstByCandidates row PRODUCT_QTY_CANDS.
Definition rowCategory (row : Row) : jstring := firstKeyStr row PRODUCT_CATEGORY_CANDS.

Definition fateOf (row : Row) : Fate :=
  let name := rowName row in
  let category := rowCategory row in
  if negb (truthy (rowCount row)) then Skipped
  else if existsb (fun rx => test rx name) EXCLUDED_PRODUCT_REGEXPS then Excluded
  else if test FORCE_AMBIG_SET_HANA_GEKKA name && test SET_WORD_RE name then Unassigned
  else if isYokubariCurry name then SideYokubari
  else if isPattyCurry name then SidePatty
  else if isCourse name category then Course
  else
    match guessRamenKey name with
    | Some g =>
      if test SET_NAME_RE name || test SET_CATEGORY_RE category
      then RamenSet g else RamenPlain g
    | None => if isRamenish name then Unassigned else Dropped
    end.

(** Sum, in row order, of the quantities of the rows that meet [p]. *)
Definition sumWhere (p : Row -> bool) (rows : list Row) : number :=
  foldl (fun s row => if p row then jsadd s (rowCount row) else s) (num 0) rows.

Definition hasFate (f : Fate) (row : Row) : bool := bool_decide (fateOf row = f).

Definition unassignedOf (row : Row) : option UnassignedItem :=
  if hasFate Unassigned row
  then Some {| ui_name := rowName row; ui_count := rowCount row |}
  else None.

(** Every item has a quantity that is a number other than 0. *)
Definition QuantitiesOk (l : list UnassignedItem) : Prop :=
  Forall (fun it => truthy (ui_count it) = true) l.

(** The run of [makeSummary] has what it needs: both files chosen and
    decoded, and a payment summary with a first row. *)
Definition Runnable (h : Host) (st : ReportState) : Prop :=
  exists pf sf productRows dayRow rest,
    productFile st = Some pf /\ statsFile st = Some sf
    /\ readRows h pf = inr productRows
    /\ readRows h sf = inr (dayRow :: rest).

(** A column belongs to a channel when its normalised header is the
    normal form of one of the channel's aliases. *)
Definition channelColumn (key : PaymentKey) (kv : jstring * cell) : bool :=
  bool_decide (norm kv.1 ∈ norm <$> PAYMENT_ALIASES key).

(** Sum, in column order, of the values that are neither 0 nor NaN of
    the columns that meet [p]. *)
Definition sumColumns (p : jstring * cell -> bool) (row : Row) : number :=
  foldl (fun s kv => if truthy (toNum kv.2) && p kv then jsadd s (toNum kv.2) else s)
        (num 0) row.

(** The row has a column whose normalised header is that of [cand]. *)
Definition hasColumn (row : Row) (cand : jstring) : Prop :=
  exists k, k ∈ keys row /\ norm k = norm cand.

(** The text of the first column whose normalised header is that of
    [cand]; empty when there is none. *)
Definition columnText (row : Row) (cand : jstring) : jstring :=
  match List.find (fun kv => jstring_eqb (norm kv.1) (norm cand)) row with
  | Some kv => cellText kv.2
  | None => []
  end.

(** The text matched by the numeric pattern: an optional minus sign,
    digits, and optionally a point and digits. *)
Definition NumericText (m : jstring) : Prop :=
  exists sign ds frac,
    m = sign ++ ds ++ frac
    /\ (sign = [] \/ sign = [0x2D])
    /\ allDigits ds /\ ds <> []
    /\ (frac = [] \/ exists fs, frac = 0x2E :: fs /\ allDigits fs /\ fs <> []).

(** The replacement of no-break spaces made by [norm]. *)
Definition unNbsp (c : N) : N := if c =? 0xA0 then 0x20 else c.

(** [s] has the text [a] and, later on the same line, the text [b]. *)
Definition thenOnLine (a b : string) (s : jstring) : Prop :=
  exists u m v,
    s = u ++ utf16 a ++ m ++ utf16 b ++ v
    /\ Forall (fun c => isLineTerminator c = false) m.

(** The lines have no blank line at either end and no two blank lines
    in a row. *)
Definition WellSpaced (ls : list jstring) : Prop :=
  head ls <> Some [] /\ last ls <> Some []
  /\ forall i, ls !! i = Some [] -> ls !! S i <> Some [].

(** What [renderOutput] does for a section: nothing when the section
    has no line, else a blank line if the last line is not blank, and
    the lines. *)
Definition addSection (ls sec : list jstring) : list jstring :=
  match sec with
  | [] => ls
  | _ => pushBlank ls ++ sec
  end.

Definition nonBlank (l : jstring) : Prop := l <> [].

(** The six sections of a report after the date line, each as the
    lines it would print. *)
Definition reportSections (m : MetaState)
  (ramenTotals ramenSetTotals ramenCourseTotals : Totals)
  (coursePeople : list CoursePeopleEntry) (unassignedCount : number)
  : list (list jstring) :=
  let rtc := ramenTotalCount ramenTotals ramenSetTotals ramenCourseTotals in
  [ paymentLines m;
    groupPeopleLines m;
    (if jsgt rtc (num 0)
     then (utf16 "ラーメン  " ++ numberToString rtc ++ utf16 "杯")
          :: omap (ramenLine ramenTotals ramenSetTotals ramenCourseTotals)
                  RAMEN_DISPLAY_ORDER
     else []);
    sideLines m;
    omap courseLine coursePeople;
    (if jsgt unassignedCount (num 0)
     then [utf16 "（要振り分け候補：未計上 " ++ numberToString unassignedCount
           ++ utf16 " 件）"]
     else []) ].

(** A date line, then every section that has lines, each after one
    blank line. *)
Definition layout (date : jstring) (sections : list (list jstring)) : list jstring :=
  date :: (filter (fun sec => sec <> []) sections ≫= fun sec => [] :: sec).

(** The course list prints at least one line, or is empty. *)
Definition CoursesPrintable (coursePeople : list CoursePeopleEntry) : Prop :=
  coursePeople = []
  \/ Exists (fun e => jsgt (cp_count e) (num 0) = true) coursePeople.

(** Ten code units of the form [dddd-dd-dd]. *)
Definition isoShaped (d : jstring) : bool :=
  match d with
  | [y1; y2; y3; y4; h1; m1; m2; h2; d1; d2] =>
    isDigit y1 && isDigit y2 && isDigit y3 && isDigit y4 && (h1 =? 0x2D)
    && isDigit m1 && isDigit m2 && (h2 =? 0x2D) && isDigit d1 && isDigit d2
  | _ => false
  end.

(** The lines of a text: its parts between line feeds, as
    [text.split('\n')] gives them. *)
Fixpoint splitLines (s : jstring) : list jstring :=
  match s with
  | [] => [[]]
  | c :: t =>
    if c =? 0x0A then [] :: splitLines t
    else match splitLines t with
         | l :: ls => (c :: l) :: ls
         | [] => [[c]]
         end
  end.

(** A text without a line feed. *)
Definition oneLine (s : jstring) : bool :=
  forallb (fun c => negb (c =? 0x0A)) s.

Definition OneLine (s : jstring) : Prop := Forall (fun c => c <> 0x0A) s.

(** The labels the report prints as they came, those of the other
    payments (the headers of their columns) and of the course entries,
    have no line feed. *)
Definition labelsOnOneLine (m : MetaState) (coursePeople : list CoursePeopleEntry)
  : bool :=
  forallb (fun o => oneLine (op_label o)) (otherPayments m)
  && forallb (fun e => oneLine (cp_label e)) coursePeople.

(** * Properties *)

(** ** Arithmetic of [number] *)

Lemma Qle_bool_false (x y : Q) : Qle_bool x y = false -> (y < x)%Q.
Proof.
  intros H. apply Qnot_le_lt. intros Hle.
  apply Qle_bool_iff in Hle. congruence.
Qed.

Lemma Qltb_true (x y : Q) : Qltb x y = true <-> (x < y)%Q.
Proof.
  unfold Qltb. split.
  - intros H. apply negb_true_iff in H. by apply Qle_bool_false.
  - intros H. apply negb_true_iff.
    destruct (Qle_bool y x) eqn:E; [|done].
    apply Qle_bool_iff in E. lra.
Qed.

Lemma Qltb_false (x y : Q) : Qltb x y = false <-> (y <= x)%Q.
Proof.
  unfold Qltb. rewrite negb_false_iff. apply Qle_bool_iff.
Qed.

Lemma Qred_eq (x y : Q) : (x == y)%Q -> Qred x = Qred y.
Proof. apply Qred_complete. Qed.

Lemma jsadd_comm (a b : number) : jsadd a b = jsadd b a.
Proof.
  destruct a, b; simpl; try reflexivity.
  f_equal. apply Qred_eq. ring.
Qed.

Lemma jsadd_assoc (a b c : number) : jsadd (jsadd a b) c = jsadd a (jsadd b c).
Proof.
  destruct a, b, c; simpl; try reflexivity.
  f_equal. apply Qred_eq. rewrite !Qred_correct. ring.
Qed.

(** Every sum is in lowest terms: adding zero leaves it as it is. *)
Lemma jsadd_zero_r_sum (a b : number) : jsadd (jsadd a b) (num 0) = jsadd a b.
Proof.
  destruct a, b; simpl; try reflexivity.
  f_equal. apply Qred_eq. rewrite Qred_correct. unfold inject_Z. ring.
Qed.

Lemma jsgt_zero_truthy (v : number) : jsgt v (num 0) = true -> truthy v = true.
Proof.
  destruct v; simpl; try done.
  unfold jsgt, jslt, num. rewrite Qltb_true. intros H.
  apply negb_true_iff. destruct (Qeq_bool q 0) eqn:E; [|done].
  apply Qeq_bool_iff in E. unfold inject_Z in H. lra.
Qed.

(** ** Manual reassignment: bulk assignment and missing items *)

Lemma foldl_counts_sum (l : list UnassignedItem) (s : number) :
  jsadd s (num 0) = s ->
  foldl (fun s it => jsadd s (ui_count it)) s l = jsadd s (sumCounts l).
Proof.
  revert s. induction l as [|it l IH]; intros s Hs; cbn [foldl sumCounts].
  - by rewrite Hs.
  - rewrite IH by apply jsadd_zero_r_sum. apply jsadd_assoc.
Qed.

Lemma sumCounts_zero_l (l : list UnassignedItem) :
  jsadd (num 0) (sumCounts l) = sumCounts l.
Proof.
  destruct l as [|it l]; cbn [sumCounts]; [reflexivity|].
  rewrite jsadd_comm. apply jsadd_zero_r_sum.
Qed.

Lemma addCount_is_sum (l : list UnassignedItem) :
  foldl (fun s it => jsadd s (ui_count it)) (num 0) l = sumCounts l.
Proof.
  rewrite foldl_counts_sum by reflexivity. apply sumCounts_zero_l.
Qed.

(** C6. Bulk assignment on a non-empty unassigned list adds the sum of
    the remaining quantities of all items to the set count of 花, leaves
    every other count and field as it was, and empties the list; on an
    empty list it changes nothing and reports that there is nothing to
    assign. *)
Theorem bulk_assign_moves_all_to_hana_set (st : ReportState) :
  match unassigned st with
  | [] =>
    assignAllUnassignedToHanaSet st =
      (st, Some {| title := utf16 "未振り分けなし";
                   message := utf16 "振り分け候補の項目はありません。" |})
  | _ :: _ =>
    let st' := fst (assignAllUnassignedToHanaSet st) in
    snd (assignAllUnassignedToHanaSet st) = None
    /\ unassigned st' = []
    /\ ramenSetTotals st' =
         <[花 := jsadd (at_ (ramenSetTotals st) 花) (sumCounts (unassigned st))]>
           (ramenSetTotals st)
    /\ ramenTotals st' = ramenTotals st
    /\ ramenCourseTotals st' = ramenCourseTotals st
    /\ coursePeopleEntries st' = coursePeopleEntries st
    /\ meta st' = meta st
  end.
Proof.
  unfold assignAllUnassignedToHanaSet.
  destruct (unassigned st) as [|it l] eqn:E; [done|].
  cbn [fst snd]. repeat split.
  cbn [ramenSetTotals setUnassigned setRamenSetTotals]. unfold bump.
  by rewrite addCount_is_sum.
Qed.

(** C10. [applyAssign] and [applyAssignCourse] called with an index that
    names no unassigned item return the state they were given: the list
    and the plain, set and course totals are untouched. *)
Theorem reassign_missing_item_is_noop
  (st : ReportState) (index : number) (key : RamenKey) (asSet : bool)
  (amount : option number) :
  arrayGet (unassigned st) index = None ->
  applyAssign index key asSet amount st = st
  /\ applyAssignCourse index key amount st = st.
Proof.
  unfold arrayGet, applyAssign, applyAssignCourse.
  destruct (arrayIndex index) as [i|]; cbn [mbind option_bind]; [|done].
  intros ->. done.
Qed.

Lemma reassign_missing_item_is_noop_witness :
  let st := sampleState [item "味噌ラーメン" 3] in
  arrayGet (unassigned st) (num 1) = None
  /\ applyAssign (num 1) 花 true (Some (num 1)) st = st
  /\ applyAssignCourse (num 1) 花 (Some (num 1)) st = st.
Proof.
  split; [reflexivity|].
  apply (reassign_missing_item_is_noop _ (num 1) 花 true (Some (num 1))).
  reflexivity.
Defined.

(** ** The empty payment summary *)

(** C8. With both files chosen and decoded, a payment summary without
    rows makes [makeSummary] fail with the message
    売上詳細CSVに行がありません。 and hand back the state it was given, whatever
    the product rows are: no field of the report is replaced. *)
Theorem empty_stats_leaves_state
  (h : Host) (st : ReportState) (pf sf : PickedFile) (productRows : list Row) :
  productFile st = Some pf ->
  statsFile st = Some sf ->
  readRows h pf = inr productRows ->
  readRows h sf = inr [] ->
  makeSummary h st = (st, Some (errorAlert (utf16 "売上詳細CSVに行がありません。"))).
Proof.
  intros Hp Hs Hrp Hrs. unfold makeSummary. by rewrite Hp, Hs, Hrp, Hrs.
Qed.

Lemma empty_stats_leaves_state_witness :
  let h := sampleHost [productRow "豆乳ラーメン「花」" 2] [] in
  let st := sampleHostState [productRow "豆乳ラーメン「花」" 2] [] [item "味噌ラーメン" 3] in
  makeSummary h st = (st, Some (errorAlert (utf16 "売上詳細CSVに行がありません。"))).
Proof.
  apply (empty_stats_leaves_state _ _ (sampleFile "products.csv") (sampleFile "stats.csv")
           [productRow "豆乳ラーメン「花」" 2]); reflexivity.
Defined.

(** ** Manual reassignment: the moved quantity *)

Lemma arrayIndex_nat (i : nat) : arrayIndex (num (Z.of_nat i)) = Some i.
Proof.
  unfold arrayIndex, num. rewrite Qfloor_Z.
  assert (H1 : Qeq_bool (inject_Z (Z.of_nat i)) (inject_Z (Z.of_nat i)) = true)
    by (apply Qeq_bool_iff; reflexivity).
  assert (H2 : Qle_bool 0 (inject_Z (Z.of_nat i)) = true).
  { apply Qle_bool_iff. change 0%Q with (inject_Z 0). rewrite <- Zle_Qle. lia. }
  rewrite H1, H2. cbn [andb]. by rewrite Nat2Z.id.
Qed.

Ltac qcases :=
  repeat match goal with
  | |- context [Qle_bool ?a ?b] =>
    let E := fresh "E" in destruct (Qle_bool a b) eqn:E;
    [apply Qle_bool_iff in E | apply Qle_bool_false in E]
  end.

Ltac qarith :=
  unfold num, inject_Z in *; cbn [negb andb orb] in *;
  repeat rewrite Qred_correct in *;
  try done; try (exfalso; lra); try lra.

(** Goals whose hypotheses are still in the conclusion: split on every
    rational comparison, then finish by linear arithmetic. *)
Ltac qsolve :=
  unfold num, inject_Z; cbn;
  repeat (progress (qcases; cbn [negb andb orb]; cbn));
  intros;
  repeat match goal with
  | H : Qle_bool _ _ = true |- _ => apply Qle_bool_iff in H
  | H : Qle_bool _ _ = false |- _ => apply Qle_bool_false in H
  end;
  qarith.

(** The source's [Math.max(0, Math.min(numeric, item.count))] against
    the interval clamp. *)
Lemma clamp_noop (c x : number) :
  c <> NaN -> x <> NaN ->
  jsle (clampQty c x) (num 0) = true ->
  jsle (jsmax (num 0) (jsmin x c)) (num 0) = true.
Proof.
  intros Hc Hx. unfold clampQty, jsmax, jsmin, jsle, num.
  destruct c as [| | |c], x as [| | |x]; try done; qsolve.
Qed.

Lemma clamp_moves (c x : number) :
  c <> NaN -> x <> NaN ->
  jsle (clampQty c x) (num 0) = false ->
  jsmax (num 0) (jsmin x c) = clampQty c x
  /\ jsle (clampQty c x) c = true.
Proof.
  intros Hc Hx. unfold clampQty, jsmax, jsmin, jsle, num.
  destruct c as [| | |c], x as [| | |x]; try done; qsolve; split; qsolve.
Qed.

Lemma remainder_bounds (c q : number) :
  c <> NaN ->
  jsle q (num 0) = false ->
  jsle q c = true ->
  jsge q c = false ->
  jsle (jssub c q) c = true /\ jsgt (jssub c q) (num 0) = true.
Proof.
  intros Hc. unfold jsge, jsgt, jssub, jsadd, jsneg, jsle, jslt, Qltb, num.
  destruct c as [| | |c], q as [| | |q]; try done; qsolve; split; qsolve.
Qed.

Lemma askedQty_numeric (it : UnassignedItem) (amount : option number) :
  (let requested := default (ui_count it) amount in
   if isFinite requested then jsfloor requested else ui_count it)
  = askedQty it amount.
Proof.
  unfold askedQty. destruct amount as [a|]; cbn [default]; [done|].
  by destruct (ui_count it).
Qed.

Lemma askedQty_not_NaN (it : UnassignedItem) (amount : option number) :
  ui_count it <> NaN -> askedQty it amount <> NaN.
Proof.
  unfold askedQty. intros Hc.
  destruct amount as [[| | |a]|]; cbn; try done.
  by destruct (ui_count it).
Qed.

Lemma assignQty_noop (it : UnassignedItem) (amount : option number) :
  ui_count it <> NaN ->
  jsle (movedQty it amount) (num 0) = true ->
  jsle (assignQty it amount) (num 0) = true.
Proof.
  intros Hc Hq. unfold assignQty. rewrite askedQty_numeric.
  apply clamp_noop; auto using askedQty_not_NaN.
Qed.

Lemma assignQty_moves (it : UnassignedItem) (amount : option number) :
  ui_count it <> NaN ->
  jsle (movedQty it amount) (num 0) = false ->
  assignQty it amount = movedQty it amount
  /\ jsle (movedQty it amount) (ui_count it) = true.
Proof.
  intros Hc Hq. unfold assignQty. rewrite askedQty_numeric.
  apply clamp_moves; auto using askedQty_not_NaN.
Qed.

Lemma assignNext_spec (prev : list UnassignedItem) (i : nat)
  (it : UnassignedItem) (q : number) :
  ui_count it <> NaN ->
  jsle q (num 0) = false ->
  jsle q (ui_count it) = true ->
  if jsge q (ui_count it)
  then assignNext prev i it q = delete i prev
  else assignNext prev i it q =
         <[i := {| ui_name := ui_name it; ui_count := jssub (ui_count it) q |}]> prev
       /\ jsle (jssub (ui_count it) q) (ui_count it) = true
       /\ jsgt (jssub (ui_count it) q) (num 0) = true.
Proof.
  intros Hc H0 Hle. unfold assignNext.
  destruct (jsge q (ui_count it)) eqn:E; [done|].
  split; [done|]. by apply remainder_bounds.
Qed.

(** C3, as amended.  On an existing unassigned item whose remaining
    quantity is not NaN, [applyAssign] and [applyAssignCourse] move
    [movedQty]: the asked amount clamped to the interval from 0 to the
    remaining quantity, where the asked amount is the given amount floored
    when it is finite, the remaining quantity floored when none is given,
    and the remaining quantity itself when the given amount is NaN or
    infinite.  A moved quantity of zero or less changes no state.
    Otherwise the moved quantity is at most the remaining quantity, it
    is added to the chosen variant's plain, set or course count and to
    nothing else, and the item is removed when all of it is moved and
    keeps the remaining quantity less the moved one, which is positive
    and no larger than before, when not. *)
Theorem reassign_moves_floored_clamped
  (st : ReportState) (i : nat) (key : RamenKey) (asSet : bool)
  (amount : option number) (it : UnassignedItem) :
  unassigned st !! i = Some it ->
  ui_count it <> NaN ->
  let q := movedQty it amount in
  let index := num (Z.of_nat i) in
  if jsle q (num 0)
  then applyAssign index key asSet amount st = st
       /\ applyAssignCourse index key amount st = st
  else Moved (if asSet then SetOf else Plain) key i it q st
             (applyAssign index key asSet amount st)
       /\ Moved CourseOf key i it q st (applyAssignCourse index key amount st).
Proof.
  intros Hit Hc q index. subst index.
  unfold applyAssign, applyAssignCourse. rewrite arrayIndex_nat, Hit.
  destruct (jsle q (num 0)) eqn:Hq.
  - by rewrite (assignQty_noop it amount Hc Hq).
  - destruct (assignQty_moves it amount Hc Hq) as [-> Hle]. fold q. rewrite Hq.
    pose proof (assignNext_spec (unassigned st) i it q Hc Hq Hle) as Hnext.
    split.
    + unfold Moved. destruct asSet; cbn; repeat split; try done;
        try (intros []; done);
        destruct (jsge q (ui_count it)); intuition.
    + unfold Moved; cbn; repeat split; try done;
        try (intros []; done);
        destruct (jsge q (ui_count it)); intuition.
Qed.

Lemma reassign_moves_floored_clamped_witness :
  let st := sampleState [item "味噌ラーメン" 3] in
  let it := item "味噌ラーメン" 3 in
  unassigned st !! 0%nat = Some it
  /\ ui_count it <> NaN
  /\ Moved Plain 花 0 it (num 1) st (applyAssign (num 0) 花 false (Some (Fin (3 # 2))) st)
  /\ Moved CourseOf 花 0 it (num 1) st (applyAssignCourse (num 0) 花 (Some (Fin (3 # 2))) st).
Proof.
  split; [reflexivity|]. split; [discriminate|].
  apply (reassign_moves_floored_clamped
           (sampleState [item "味噌ラーメン" 3]) 0 花 false (Some (Fin (3 # 2)))
           (item "味噌ラーメン" 3)); [reflexivity | discriminate].
Defined.

(** C3 as stated fails on an amount of -Infinity: flooring and clamping
    it gives 0, which should change nothing, but the handler takes the
    whole remaining quantity in its place and removes the item. *)
Lemma reassign_neg_infinity_moves_all :
  let st := sampleState [item "味噌ラーメン" 3] in
  let st' := applyAssign (num 0) 花 false (Some NInf) st in
  jsmax (num 0) (jsmin (jsfloor NInf) (num 3)) = num 0
  /\ unassigned st' = []
  /\ at_ (ramenTotals st') 花 = num 3
  /\ st' <> st.
Proof.
  repeat split; try (vm_compute; reflexivity).
  intros H. apply (f_equal unassigned) in H. vm_compute in H. discriminate.
Qed.

(** ** Payment classification *)

#[global] Arguments norm : simpl never.
#[global] Arguments toNum : simpl never.
#[global] Arguments utf16 : simpl never.
#[global] Arguments test : simpl never.
#[global] Arguments exec : simpl never.

Lemma jstring_eqb_true (a b : jstring) : jstring_eqb a b = true <-> a = b.
Proof. unfold jstring_eqb. apply bool_decide_eq_true. Qed.

Lemma jstring_eqb_false (a b : jstring) : jstring_eqb a b = false <-> a <> b.
Proof. unfold jstring_eqb. apply bool_decide_eq_false. Qed.

Lemma norm_nil : norm [] = [].
Proof. reflexivity. Qed.

(** The key found by [findKey] is the key of the first matching column,
    so that [row[hit]] is that column's cell. *)
Lemma findKey_rowGet (row : Row) (a : jstring) :
  match findKey row a with
  | Some hit =>
    exists kv, List.find (fun kv => jstring_eqb (norm kv.1) (norm a)) row = Some kv
               /\ kv.1 = hit /\ rowGet row hit = kv.2
  | None => List.find (fun kv => jstring_eqb (norm kv.1) (norm a)) row = None
  end.
Proof.
  unfold findKey, keys. induction row as [|[k v] r IH]; cbn; [done|].
  destruct (jstring_eqb (norm k) (norm a)) eqn:E.
  - exists (k, v). split; [done|]. split; [done|]. unfold rowGet. cbn.
    by rewrite (proj2 (jstring_eqb_true k k) eq_refl).
  - destruct (List.find _ (List.map fst r)) as [hit|] eqn:F; [|done].
    destruct IH as (kv & Hf & Hk & Hg). exists kv. repeat split; try done.
    unfold rowGet in *. cbn.
    destruct (jstring_eqb k hit) eqn:E'; [|done].
    apply jstring_eqb_true in E'. subst k.
    apply find_some in Hf as [_ Hn]. rewrite Hk in Hn. congruence.
Qed.

Lemma firstByCandidates_single (row : Row) (a : jstring) :
  norm a <> [] ->
  firstByCandidates row [a] = columnValue row a.
Proof.
  intros Ha. unfold columnValue. cbn [firstByCandidates].
  pose proof (findKey_rowGet row a) as H.
  destruct (findKey row a) as [hit|].
  - destruct H as (kv & Hf & Hk & Hg). rewrite Hf.
    apply find_some in Hf as [_ Hn].
    destruct hit as [|c hit]; cbn [nonEmpty]; [|by rewrite Hg].
    exfalso. rewrite Hk in Hn. apply jstring_eqb_true in Hn.
    rewrite norm_nil in Hn. congruence.
  - by rewrite H.
Qed.

Lemma total_aliases_nonblank :
  Forall (fun a => norm a <> []) (PAYMENT_ALIASES total).
Proof. repeat constructor; vm_compute; discriminate. Qed.

(** [pickFirst] returns the first positive value of the list, if any. *)
Lemma pickFirst_spec (row : Row) (cands : list jstring) :
  Forall (fun a => norm a <> []) cands ->
  (exists pre a post,
      cands = pre ++ a :: post
      /\ Forall (notPositive row) pre
      /\ jsgt (columnValue row a) (num 0) = true
      /\ pickFirst row cands = columnValue row a)
  \/ (Forall (notPositive row) cands /\ pickFirst row cands = num 0).
Proof.
  unfold pickFirst. induction 1 as [|a l Ha Hl IH]; cbn [List.map List.find].
  - right. by split.
  - rewrite firstByCandidates_single by done.
    destruct (jsgt (columnValue row a) (num 0)) eqn:E.
    + left. exists [], a, l. by repeat split.
    + destruct IH as [(pre & b & post & -> & Hpre & Hb & Hv)|[Hall Hv]].
      * left. exists (a :: pre), b, post. repeat split; try done.
        by constructor.
      * right. split; [by constructor|done].
Qed.

Lemma paymentEntry_total (A : gmap jstring PaymentKey) (I : gset jstring)
  (acc : PaymentAcc) (kv : jstring * cell) :
  acc_payments (paymentEntry A I acc kv) !! total = acc_payments acc !! total.
Proof.
  unfold paymentEntry. destruct kv as [k v].
  destruct (truthy (toNum v)); cbn [negb]; [|done].
  destruct (A !! norm k) as [[]|]; cbn [acc_payments];
    try (by destruct (bool_decide _));
    unfold bump; by rewrite lookup_insert_ne.
Qed.

Lemma foldl_paymentEntry_total (A : gmap jstring PaymentKey) (I : gset jstring)
  (row : Row) (acc : PaymentAcc) :
  acc_payments (foldl (paymentEntry A I) acc row) !! total
  = acc_payments acc !! total.
Proof.
  revert acc. induction row as [|kv r IH]; intros acc; cbn [foldl]; [done|].
  by rewrite IH, paymentEntry_total.
Qed.

(** C1. The reported total is the value of the first alias, in the order
    of the alias list of the total channel, whose value in the row is
    positive, and 0 when no alias has a positive value.  Later aliases
    and their columns add nothing to it. *)
Theorem total_is_first_positive_alias (dayRow : Row) :
  let reported := at_ (acc_payments (classifyPayments dayRow)) total in
  (exists pre a post,
      PAYMENT_ALIASES total = pre ++ a :: post
      /\ Forall (notPositive dayRow) pre
      /\ jsgt (columnValue dayRow a) (num 0) = true
      /\ reported = columnValue dayRow a)
  \/ (Forall (notPositive dayRow) (PAYMENT_ALIASES total)
      /\ reported = num 0).
Proof.
  cbn zeta. unfold classifyPayments, at_.
  destruct (pickFirst_spec dayRow (PAYMENT_ALIASES total) total_aliases_nonblank)
    as [(pre & a & post & Hsplit & Hpre & Ha & Hv)|[Hall Hv]].
  - left. exists pre, a, post. repeat split; try done.
    rewrite Hv, (jsgt_zero_truthy _ Ha). cbn [acc_payments].
    by rewrite lookup_insert_eq.
  - right. split; [done|]. rewrite Hv. cbn [truthy num].
    change (negb (Qeq_bool (inject_Z 0) 0)) with false. cbn iota.
    by rewrite foldl_paymentEntry_total.
Qed.

(** Two differently labelled total columns: only the first alias counts. *)
Example total_not_summed :
  at_ (acc_payments (classifyPayments
         [(utf16 "税込売上", VNum (num 900));
          (utf16 "売上高（税込み）", VStr (utf16 "¥1,234"))])) total
  = num 1234.
Proof. vm_compute. reflexivity. Qed.

#[local] Set Warnings "-clear-no-such-hyp".

Lemma dom_foldl_alias (key : PaymentKey) (l : list jstring)
  (m : gmap jstring PaymentKey) :
  dom (foldl (fun m alias => <[norm alias := key]> m) m l)
  = list_to_set (norm <$> l) ∪ dom m.
Proof.
  revert m. induction l as [|a l IH]; intros m; cbn [foldl].
  - set_solver.
  - rewrite IH, dom_insert_L. set_solver.
Qed.

Lemma dom_foldl_keys (ks : list PaymentKey) (m : gmap jstring PaymentKey) :
  dom (foldl (fun m key =>
                foldl (fun m alias => <[norm alias := key]> m) m (PAYMENT_ALIASES key))
             m ks)
  = list_to_set (norm <$> (ks ≫= PAYMENT_ALIASES)) ∪ dom m.
Proof.
  revert m. induction ks as [|k ks IH]; intros m; cbn [foldl].
  - set_solver.
  - rewrite IH, dom_foldl_alias. rewrite bind_cons, fmap_app. set_solver.
Qed.

Lemma aliasMap_matches (header : jstring) :
  is_Some (buildPaymentAliasMap !! norm header) <-> matchesChannelAlias header.
Proof.
  unfold matchesChannelAlias, buildPaymentAliasMap.
  rewrite <- elem_of_dom, dom_foldl_keys.
  generalize (norm <$> (PAYMENT_KEY_ORDER ≫= PAYMENT_ALIASES)). intros l.
  rewrite elem_of_union, elem_of_list_to_set, dom_empty_L.
  split; [intros [H|H]; [done|by apply elem_of_empty in H] | by left].
Qed.

Lemma foldl_add_normed {A} (f : A -> jstring) (l : list A) (s : gset jstring) :
  foldl (fun s x => {[f x]} ∪ s) s l = list_to_set (f <$> l) ∪ s.
Proof.
  revert s. induction l as [|a l IH]; intros s; cbn [foldl].
  - set_solver.
  - rewrite IH. set_solver.
Qed.

Lemma ignoreSet_spec (header : jstring) :
  norm header ∈ buildIgnoreSet buildPaymentAliasMap
  <-> matchesChannelAlias header \/ denied header.
Proof.
  unfold buildIgnoreSet, denied, denylist.
  rewrite (foldl_add_normed norm IGNORE_LITERALS).
  rewrite (foldl_add_normed norm EXTRA_PAYMENT_IGNORE).
  rewrite (foldl_add_normed (fun k => norm (PAYMENT_LABELS k)) PAYMENT_KEY_ORDER).
  rewrite <- aliasMap_matches, <- elem_of_dom.
  rewrite !fmap_app, <- list_fmap_compose.
  change (norm ∘ PAYMENT_LABELS) with (fun k => norm (PAYMENT_LABELS k)).
  generalize (norm <$> IGNORE_LITERALS) (norm <$> EXTRA_PAYMENT_IGNORE)
    ((fun k => norm (PAYMENT_LABELS k)) <$> PAYMENT_KEY_ORDER)
    (dom buildPaymentAliasMap).
  intros l1 l2 l3 d.
  rewrite !elem_of_union, !elem_of_app, !elem_of_list_to_set. tauto.
Qed.

Lemma paymentEntry_other (acc : PaymentAcc) (kv : jstring * cell) :
  acc_other (paymentEntry buildPaymentAliasMap
               (buildIgnoreSet buildPaymentAliasMap) acc kv)
  = acc_other acc
    ++ (if decide (recordedAsOther kv) then [otherPaymentOf kv] else []).
Proof.
  destruct kv as [k v]. unfold paymentEntry.
  destruct (truthy (toNum v)) eqn:Ht; cbn [negb].
  2:{ rewrite decide_False; [by rewrite app_nil_r|].
      intros [H _]. cbn [fst snd] in H. congruence. }
  pose proof (aliasMap_matches k) as HA.
  pose proof (ignoreSet_spec k) as HI.
  destruct (buildPaymentAliasMap !! norm k) as [pkey|] eqn:E.
  - assert (Hm : matchesChannelAlias k) by (apply HA; eauto).
    rewrite decide_False by (intros (_ & H & _); by apply H).
    rewrite app_nil_r.
    destruct pkey; cbn [acc_other]; try done.
    rewrite bool_decide_eq_true_2 by (apply HI; by left). done.
  - assert (Hm : ~ matchesChannelAlias k).
    { intros Hm. apply HA in Hm. by destruct Hm. }
    destruct (decide (denied k)) as [Hd|Hd].
    + rewrite bool_decide_eq_true_2 by (apply HI; by right).
      rewrite decide_False by (intros (_ & _ & H); by apply H).
      by rewrite app_nil_r.
    + rewrite bool_decide_eq_false_2 by (rewrite HI; tauto).
      rewrite decide_True; [done|]. by repeat split.
Qed.

Lemma foldl_paymentEntry_other (row : Row) (acc : PaymentAcc) :
  acc_other (foldl (paymentEntry buildPaymentAliasMap
                      (buildIgnoreSet buildPaymentAliasMap)) acc row)
  = acc_other acc ++ (otherPaymentOf <$> filter recordedAsOther row).
Proof.
  revert acc. induction row as [|kv r IH]; intros acc; cbn [foldl].
  - by rewrite app_nil_r.
  - rewrite IH, paymentEntry_other, filter_cons.
    destruct (decide (recordedAsOther kv)); cbn [fmap list_fmap].
    + by rewrite <- app_assoc.
    + by rewrite app_nil_r.
Qed.

(** C5, as amended.  The other-payment entries are, in the order of the
    columns of the row, exactly the columns whose value is neither zero
    nor NaN (negative values included), whose normalised header matches
    no channel alias and is not on the denylist; the label of an entry is
    the header as it stands in the row and its amount the value. *)
Theorem other_payments_are_the_unmatched_nonzero_columns (dayRow : Row) :
  acc_other (classifyPayments dayRow)
  = otherPaymentOf <$> filter recordedAsOther dayRow.
Proof.
  unfold classifyPayments.
  destruct (truthy (pickFirst dayRow (PAYMENT_ALIASES total)));
    cbn [acc_other]; by rewrite foldl_paymentEntry_other.
Qed.


(** C5 as stated fails on a negative column: a refund of -500 under a
    header that is no alias and not denied is recorded, although its
    value is not positive. *)
Lemma negative_column_is_recorded :
  let dayRow := [(utf16 "売上高（税込み）", VNum (num 1000));
                 (utf16 "返金", VStr (utf16 "-500"))] in
  acc_other (classifyPayments dayRow)
  = [{| op_label := utf16 "返金"; op_amount := num (-500) |}]
  /\ jsgt (toNum (VStr (utf16 "-500"))) (num 0) = false.
Proof. split; vm_compute; reflexivity. Qed.

(** ** The matcher *)

Lemma search_None (ic : bool) (r : regex) (suf pre : jstring) :
  search ic r pre suf = None
  <-> forall u w, suf = u ++ w -> ~ MatchAt ic r (rev u ++ pre) w.
Proof.
  unfold MatchAt. revert pre. induction suf as [|c t IH]; intros pre; cbn [search].
  - destruct (run ic r (Cfg pre [] [])) eqn:E.
    + split; [|done]. intros _ u w Huw HM.
      symmetry in Huw. apply app_eq_nil in Huw as [-> ->]. by apply HM.
    + split; [done|]. intros H. exfalso. apply (H [] []); [done|].
      cbn [rev app]. by rewrite E.
  - destruct (run ic r (Cfg pre (c :: t) [])) eqn:E.
    + rewrite IH. split.
      * intros H [|c' u] w Huw.
        -- cbn [app] in Huw. subst w. intros HM. by apply HM.
        -- cbn [app] in Huw. injection Huw as -> ->. cbn [rev].
           rewrite <- app_assoc. by apply H.
      * intros H u w ->. specialize (H (c :: u) w eq_refl).
        cbn [rev] in H. by rewrite <- app_assoc in H.
    + split; [done|]. intros H. exfalso.
      apply (H [] (c :: t)); [done|]. cbn [rev app]. by rewrite E.
Qed.

Lemma search_Some (ic : bool) (r : regex) (suf pre : jstring) (x y : cfg) :
  search ic r pre suf = Some (x, y) ->
  exists u w,
    suf = u ++ w /\ x = Cfg (rev u ++ pre) w []
    /\ head (run ic r x) = Some y
    /\ forall u' w', u = u' ++ w' -> w' <> [] ->
                     ~ MatchAt ic r (rev u' ++ pre) (w' ++ w).
Proof.
  unfold MatchAt. revert pre. induction suf as [|c t IH]; intros pre; cbn [search].
  - destruct (run ic r (Cfg pre [] [])) eqn:E; [done|].
    intros [= <- <-]. exists [], []. rewrite E. repeat split.
    intros u' w' Hu Hw. symmetry in Hu. apply app_eq_nil in Hu as [_ ->]. done.
  - destruct (run ic r (Cfg pre (c :: t) [])) eqn:E.
    + intros H. apply IH in H as (u & w & -> & -> & Hy & Hmin).
      exists (c :: u), w. cbn [rev]. rewrite <- app_assoc. repeat split; try done.
      intros [|c' u'] w' Hu Hw.
      * cbn [app] in Hu. subst w'. intros HM. by apply HM.
      * cbn [app] in Hu. injection Hu as -> ->. cbn [rev]. rewrite <- app_assoc.
        by apply Hmin.
    + intros [= <- <-]. exists [], (c :: t). rewrite E. repeat split.
      intros u' w' Hu Hw. symmetry in Hu. apply app_eq_nil in Hu as [_ ->]. done.
Qed.

Lemma test_Found (r : regex) (ic : bool) (s : jstring) :
  test (RE r ic) s = true <-> Found ic r s.
Proof.
  unfold test, exec, Found. cbn [body ignoreCase].
  destruct (search ic r [] s) as [[x y]|] eqn:E.
  - split; [|done]. intros _.
    apply search_Some in E as (u & w & -> & -> & Hy & _).
    exists u, w. split; [done|]. unfold MatchAt. rewrite app_nil_r in Hy.
    by destruct (run ic r _).
  - split; [done|]. intros (u & w & -> & HM).
    rewrite search_None in E. exfalso. eapply E; [done|]. by rewrite app_nil_r.
Qed.

Lemma test_not_Found (r : regex) (ic : bool) (s : jstring) :
  test (RE r ic) s = false <-> ~ Found ic r s.
Proof.
  rewrite <- test_Found. by destruct (test (RE r ic) s).
Qed.

Lemma Found_Alt (ic : bool) (a b : regex) (s : jstring) :
  Found ic (Alt a b) s <-> Found ic a s \/ Found ic b s.
Proof.
  unfold Found, MatchAt. cbn [run]. split.
  - intros (u & w & -> & H).
    destruct (run ic a (Cfg (rev u) w [])) eqn:E.
    + right. exists u, w. by split.
    + left. exists u, w. split; [done|]. by rewrite E.
  - intros [(u & w & -> & H)|(u & w & -> & H)]; exists u, w; split; try done.
    + destruct (run ic a _); [done|]. done.
    + intros Happ. apply app_eq_nil in Happ as [_ ?]. done.
Qed.


Lemma test_Alt (a b : regex) (ic : bool) (s : jstring) :
  test (RE (Alt a b) ic) s = test (RE a ic) s || test (RE b ic) s.
Proof.
  apply eq_true_iff_eq. rewrite orb_true_iff, !test_Found. apply Found_Alt.
Qed.


(** *** Literal words *)

Lemma unitMatches_fold (ic : bool) (c d : N) :
  unitMatches ic c d = true <-> foldCase ic [d] = foldCase ic [c].
Proof.
  unfold unitMatches, foldCase. destruct ic; cbn; rewrite N.eqb_eq; split; congruence.
Qed.

Lemma foldCase_cons (ic : bool) (c : N) (s : jstring) :
  foldCase ic (c :: s) = foldCase ic [c] ++ foldCase ic s.
Proof. by destruct ic. Qed.

Lemma foldCase_cons_inv (ic : bool) (c : N) (t m : jstring) :
  foldCase ic m = foldCase ic (c :: t) ->
  exists d m', m = d :: m' /\ unitMatches ic c d = true
               /\ foldCase ic m' = foldCase ic t.
Proof.
  intros H. destruct m as [|d m'].
  - destruct ic; discriminate.
  - exists d, m'. split; [done|]. rewrite unitMatches_fold.
    destruct ic; cbn in *; injection H as H1 H2; by rewrite ?H1.
Qed.

Lemma run_lit_match (ic : bool) (w m v pre : jstring) (g : list (nat * jstring)) :
  foldCase ic m = foldCase ic w ->
  run ic (lit w) (Cfg pre (m ++ v) g) = [Cfg (rev m ++ pre) v g].
Proof.
  revert m pre. induction w as [|c t IH]; intros m pre H.
  - destruct m; [done|]. destruct ic; discriminate.
  - apply foldCase_cons_inv in H as (d & m' & -> & Hd & Hm).
    cbn [lit run step after before caps app]. rewrite Hd. cbn [flat_map].
    rewrite (IH m' (d :: pre) Hm), app_nil_r. cbn [rev]. by rewrite <- app_assoc.
Qed.

Lemma run_lit_inv (ic : bool) (w : jstring) (x y : cfg) :
  y ∈ run ic (lit w) x ->
  exists m, after x = m ++ after y /\ foldCase ic m = foldCase ic w
            /\ before y = rev m ++ before x /\ caps y = caps x.
Proof.
  revert x. induction w as [|c t IH]; intros x.
  - cbn [lit run]. intros ->%list_elem_of_singleton. by exists [].
  - cbn [lit run]. rewrite list_elem_of_In, in_flat_map.
    intros (z & Hz & Hy). rewrite <- list_elem_of_In in Hy.
    unfold step in Hz. destruct x as [pre [|d suf] g]; cbn in Hz; [done|].
    destruct (unitMatches ic c d) eqn:Hd; [|done].
    destruct Hz as [<-|[]].
    apply IH in Hy as (m & Ha & Hm & Hb & Hc). cbn in *.
    exists (d :: m). cbn [rev]. rewrite <- app_assoc. repeat split; try done.
    + by rewrite Ha.
    + rewrite foldCase_cons, (foldCase_cons _ c), Hm.
      f_equal. by apply unitMatches_fold.
Qed.

Lemma Found_lit (ic : bool) (w s : jstring) :
  Found ic (lit w) s <-> contains ic w s.
Proof.
  unfold Found, MatchAt, contains. split.
  - intros (u & v & -> & H).
    destruct (run ic (lit w) (Cfg (rev u) v [])) as [|y l] eqn:E; [done|].
    assert (Hy : y ∈ run ic (lit w) (Cfg (rev u) v [])) by (rewrite E; left).
    apply run_lit_inv in Hy as (m & Ha & Hm & _). cbn in Ha.
    exists u, m, (after y). by rewrite Ha.
  - intros (u & m & v & -> & Hm). exists u, (m ++ v). split; [done|].
    by rewrite (run_lit_match ic w m v _ _ Hm).
Qed.

Lemma test_str (w : string) (ic : bool) (s : jstring) :
  test (RE (str w) ic) s = true <-> contains ic (utf16 w) s.
Proof. rewrite test_Found. apply Found_lit. Qed.

Lemma contains_exact_ci (w s : jstring) : contains false w s -> contains true w s.
Proof.
  intros (u & m & v & -> & Hm). exists u, m, v. split; [done|].
  cbn in *. by rewrite Hm.
Qed.

Lemma canon_caseless (c d : N) :
  isUpperAscii c = false -> isLowerAscii c = false -> canon d = canon c -> d = c.
Proof.
  unfold canon, isUpperAscii, isLowerAscii. intros Hu Hl.
  rewrite Hl. destruct ((97 <=? d) && (d <=? 122)) eqn:E; [|done].
  intros <-. exfalso.
  apply andb_true_iff in E as [E1 E2]. apply N.leb_le in E1, E2.
  apply andb_false_iff in Hu as [Hu|Hu]; apply N.leb_gt in Hu; lia.
Qed.

Lemma contains_ci_exact (w s : jstring) :
  caseless w -> contains true w s -> contains false w s.
Proof.
  intros Hw (u & m & v & -> & Hm). exists u, m, v. split; [done|].
  cbn in *. clear u v. revert m Hm.
  induction Hw as [|c t [Hu Hl] Ht IH]; intros [|d m] Hm; try done.
  cbn in Hm. injection Hm as Hd Hm.
  f_equal; [by apply canon_caseless | by apply IH].
Qed.

Lemma hasText_test (w : string) (s : jstring) :
  hasText w s <-> test (RE (str w) false) s = true.
Proof. symmetry. apply test_str. Qed.

Lemma mentions_test (w : string) (s : jstring) :
  mentions w s <-> test (RE (str w) true) s = true.
Proof. symmetry. apply test_str. Qed.

Lemma test_str_caseless (w : string) (s : jstring) :
  caseless (utf16 w) ->
  test (RE (str w) true) s = test (RE (str w) false) s.
Proof.
  intros Hw. apply eq_true_iff_eq. rewrite !test_str.
  split; [by apply contains_ci_exact | apply contains_exact_ci].
Qed.

Ltac caseless_word := repeat constructor.

Lemma contains_prefix (w w' s : jstring) :
  contains false (w ++ w') s -> contains false w s.
Proof.
  intros (u & m & v & -> & Hm). cbn in Hm. subst m.
  exists u, w, (w' ++ v). by rewrite <- app_assoc.
Qed.

Lemma hasText_setsugekka_setsugetsu (s : jstring) :
  hasText "雪月花" s -> hasText "雪月" s.
Proof. apply (contains_prefix (utf16 "雪月") (utf16 "花")). Qed.

(** ** Ramen variants *)

(** C7, as amended.  The compound names are tried before their parts:
    a name that has 雪月花 is 雪月花; a name that has 雪月, has no 雪月花 and
    does not spell setsugekka is 雪月; a name that has 月花, has no 雪月
    (so no 雪月花 either) and spells neither setsugekka nor setsugetsu is
    月花.  In none of these cases is the answer 月, 雪 or 花. *)
Theorem compound_variants_before_components (name : jstring) :
  (hasText "雪月花" name -> guessRamenKey name = Some 雪月花)
  /\ (hasText "雪月" name -> ~ hasText "雪月花" name ->
      ~ mentions "setsugekka" name ->
      guessRamenKey name = Some 雪月)
  /\ (hasText "月花" name -> ~ hasText "雪月" name ->
      ~ mentions "setsugekka" name -> ~ mentions "setsugetsu" name ->
      guessRamenKey name = Some 月花).
Proof.
  unfold guessRamenKey, GUESS_SETSUGEKKA, GUESS_SETSUGETSU, GUESS_GEKKA.
  rewrite !test_Alt.
  rewrite (test_str_caseless "雪月花") by caseless_word.
  rewrite (test_str_caseless "雪月") by caseless_word.
  rewrite (test_str_caseless "月花") by caseless_word.
  pose proof (hasText_setsugekka_setsugetsu name) as H32.
  rewrite !hasText_test, !mentions_test in *.
  destruct (test (RE (str "雪月花") false) name) eqn:E3;
    destruct (test (RE (str "雪月") false) name) eqn:E2;
    destruct (test (RE (str "月花") false) name) eqn:E1;
    destruct (test (RE (str "setsugekka") true) name);
    destruct (test (RE (str "setsugetsu") true) name);
    cbn [orb]; repeat split; intros; try done; try congruence;
    by discriminate H32.
Qed.

Lemma compound_variants_before_components_witness :
  guessRamenKey (utf16 "雪月花セット") = Some 雪月花
  /\ guessRamenKey (utf16 "雪月ラーメン") = Some 雪月
  /\ guessRamenKey (utf16 "月花") = Some 月花.
Proof.
  split; [|split].
  - apply (compound_variants_before_components (utf16 "雪月花セット")).
    apply hasText_test. vm_compute. reflexivity.
  - apply (compound_variants_before_components (utf16 "雪月ラーメン"));
      rewrite ?hasText_test, ?mentions_test; vm_compute; congruence.
  - apply (compound_variants_before_components (utf16 "月花"));
      rewrite ?hasText_test, ?mentions_test; vm_compute; congruence.
Defined.

(** C7 as stated fails on a name that lists 雪月 and 月花: it has 月花
    and no 雪月花, yet it is detected as 雪月. *)
Lemma setsugetsu_shadows_gekka :
  let name := utf16 "雪月と月花" in
  hasText "月花" name
  /\ ~ hasText "雪月花" name
  /\ guessRamenKey name = Some 雪月.
Proof.
  cbn zeta. rewrite !hasText_test. repeat split; vm_compute; congruence.
Qed.

(** *** Membership in [run], constructor by constructor *)

#[global] Arguments isDigit : simpl never.
#[global] Arguments isSpace : simpl never.

Lemma elem_of_run_Seq (ic : bool) (a b : regex) (x y : cfg) :
  y ∈ run ic (Seq a b) x <-> exists z, z ∈ run ic a x /\ y ∈ run ic b z.
Proof.
  cbn [run]. rewrite list_elem_of_In, in_flat_map.
  split; intros (z & Hz & Hy); exists z; by rewrite ?list_elem_of_In in *.
Qed.

Lemma elem_of_run_Alt (ic : bool) (a b : regex) (x y : cfg) :
  y ∈ run ic (Alt a b) x <-> y ∈ run ic a x \/ y ∈ run ic b x.
Proof. cbn [run]. apply elem_of_app. Qed.

Lemma elem_of_run_Group (ic : bool) (k : nat) (a : regex) (x y : cfg) :
  y ∈ run ic (Group k a) x <-> exists z, z ∈ run ic a x /\ y = capture k x z.
Proof.
  cbn [run]. rewrite list_elem_of_In, in_map_iff.
  split; intros (z & H1 & H2); exists z; by rewrite ?list_elem_of_In in *.
Qed.

Lemma elem_of_run_digit (ic : bool) (x y : cfg) :
  y ∈ run ic digit x <->
  exists c, isDigit c = true /\ after x = c :: after y
            /\ before y = c :: before x /\ caps y = caps x.
Proof.
  unfold digit. cbn [run inClass]. unfold step.
  destruct x as [pre [|c suf] g]; cbn.
  - split; [by intros ?%elem_of_nil|]. by intros (c & _ & ? & _).
  - destruct (isDigit c) eqn:E.
    + rewrite list_elem_of_singleton. split.
      * intros ->. by exists c.
      * intros (c' & _ & Ha & Hb & Hg). destruct y as [pb pa pg].
        cbn in *. congruence.
    + split; [by intros ?%elem_of_nil|].
      intros (c' & Hc' & Ha & _). congruence.
Qed.

(** The text of a group is what its body consumed. *)
Lemma capture_text (k : nat) (x z : cfg) (m : jstring) :
  before z = rev m ++ before x ->
  capture k x z = Cfg (before z) (after z) ((k, m) :: caps z).
Proof.
  intros H. unfold capture. do 2 f_equal. f_equal.
  rewrite H, length_app, length_rev.
  replace (length m + length (before x) - length (before x))%nat with (length (rev m))
    by (rewrite length_rev; lia).
  by rewrite take_app_length, rev_involutive.
Qed.

(** *** Runs of digits *)

Lemma iterate_digits_inv (ic : bool) (fuel : nat) (x y : cfg) :
  y ∈ iterate (run ic digit) fuel x ->
  exists ds, allDigits ds /\ after x = ds ++ after y
             /\ before y = rev ds ++ before x /\ caps y = caps x.
Proof.
  revert x. induction fuel as [|n IH]; intros x; cbn [iterate].
  - intros ->%list_elem_of_singleton. exists []. repeat split. constructor.
  - rewrite elem_of_app, list_elem_of_singleton. intros [H| ->].
    + rewrite list_elem_of_In, in_flat_map in H. destruct H as (z & Hz & Hy).
      apply filter_In in Hz as [Hz _].
      rewrite <- list_elem_of_In in Hz, Hy.
      apply elem_of_run_digit in Hz as (c & Hc & Ha & Hb & Hg).
      apply IH in Hy as (ds & Hds & Ha' & Hb' & Hg').
      exists (c :: ds). cbn [rev]. rewrite <- app_assoc.
      repeat split; [by constructor|by rewrite Ha, Ha'|by rewrite Hb', Hb|congruence].
    + exists []. repeat split. constructor.
Qed.

Lemma iterate_refl (f : cfg -> list cfg) (fuel : nat) (x : cfg) :
  x ∈ iterate f fuel x.
Proof. destruct fuel; cbn [iterate]; set_solver. Qed.

Lemma iterate_digits_complete (ic : bool) (ds : jstring) :
  allDigits ds ->
  forall (fuel : nat) (pre suf : jstring) (g : list (nat * jstring)),
    (length ds <= fuel)%nat ->
    Cfg (rev ds ++ pre) suf g ∈ iterate (run ic digit) fuel (Cfg pre (ds ++ suf) g).
Proof.
  induction 1 as [|c t Hc Ht IH]; intros fuel pre suf g Hf.
  - apply iterate_refl.
  - destruct fuel as [|n]; [cbn in Hf; lia|].
    cbn [iterate]. apply elem_of_app. left.
    rewrite list_elem_of_In, in_flat_map.
    exists (Cfg (c :: pre) (t ++ suf) g). split.
    + apply filter_In. split.
      * rewrite <- list_elem_of_In. apply elem_of_run_digit. by exists c.
      * apply Nat.ltb_lt. cbn [after app length]. lia.
    + rewrite <- list_elem_of_In. cbn [rev]. rewrite <- app_assoc.
      apply IH. cbn in Hf. lia.
Qed.

(** *** Numbers written in digits *)

Lemma Qred_inject_Z (z : Z) : Qred (inject_Z z) = inject_Z z.
Proof.
  unfold Qred, inject_Z.
  pose proof (Z.ggcd_gcd z 1) as Hg.
  pose proof (Z.ggcd_correct_divisors z 1) as Hd.
  destruct (Z.ggcd z 1) as [g [aa bb]]. cbn [fst snd] in *.
  rewrite Z.gcd_1_r in Hg. subst g.
  destruct Hd as [Hz H1]. rewrite !Z.mul_1_l in *. subst aa.
  by rewrite <- H1.
Qed.

Lemma takeWhileB_all (p : N -> bool) (d : jstring) :
  Forall (fun c => p c = true) d -> takeWhileB p d = d /\ dropWhileB p d = [].
Proof.
  induction 1 as [|c t Hc Ht [IH1 IH2]]; [done|].
  cbn. by rewrite Hc, IH1, IH2.
Qed.

Lemma decimalToNumber_digits (d : jstring) :
  allDigits d -> d <> [] -> decimalToNumber d = num (digitsToZ d).
Proof.
  intros Hd Hne. unfold decimalToNumber.
  destruct d as [|c t]; [done|].
  assert (Hc : (c =? 45) = false).
  { apply Forall_cons in Hd as [Hc _]. apply N.eqb_neq. intros ->. done. }
  rewrite Hc. destruct (takeWhileB_all isDigit (c :: t) Hd) as [-> ->].
  by rewrite Qred_inject_Z.
Qed.

(** ** Course bookings *)

Lemma not_nil_of_elem {A} (x : A) (l : list A) : x ∈ l -> l <> [].
Proof. intros H ->. by apply elem_of_nil in H. Qed.

Lemma head_elem_of {A} (l : list A) (y : A) : head l = Some y -> y ∈ l.
Proof. destruct l; [done|]. intros [= ->]. left. Qed.

Ltac all_digits :=
  unfold allDigits;
  repeat first [apply Forall_nil_2 | apply Forall_cons_2; [assumption|]].

Lemma run_Seq_digit (ic : bool) (r : regex) (pre suf : jstring)
  (g : list (nat * jstring)) :
  run ic (digit <.> r) (Cfg pre suf g)
  = match suf with
    | c :: t => if isDigit c then run ic r (Cfg (c :: pre) t g) else []
    | [] => []
    end.
Proof.
  unfold digit. cbn [run inClass]. unfold step. cbn [after before caps].
  destruct suf as [|c t]; [done|]. destruct (isDigit c); [|done].
  cbn [flat_map]. by rewrite app_nil_r.
Qed.

Lemma run_digit (ic : bool) (pre suf : jstring) (g : list (nat * jstring)) :
  run ic digit (Cfg pre suf g)
  = match suf with
    | c :: t => if isDigit c then [Cfg (c :: pre) t g] else []
    | [] => []
    end.
Proof.
  unfold digit. cbn [run inClass]. unfold step. cbn [after before caps].
  by destruct suf.
Qed.

Lemma run_Opt (ic : bool) (a : regex) (x : cfg) :
  run ic (Opt a) x = run ic a x ++ [x].
Proof. reflexivity. Qed.

Lemma price_sound (x y : cfg) :
  y ∈ run false (body PRICE_PATTERN) x ->
  exists d, allDigits d /\ (length d = 4 \/ length d = 5)%nat
            /\ after x = d ++ after y /\ caps y = (1%nat, d) :: caps x.
Proof.
  cbn [body PRICE_PATTERN]. unfold Opt.
  intros (z & Hz & ->)%elem_of_run_Group.
  apply elem_of_run_Seq in Hz as (z1 & (c1 & D1 & A1 & B1 & G1)%elem_of_run_digit & Hz).
  apply elem_of_run_Seq in Hz as (z2 & (c2 & D2 & A2 & B2 & G2)%elem_of_run_digit & Hz).
  apply elem_of_run_Seq in Hz as (z3 & (c3 & D3 & A3 & B3 & G3)%elem_of_run_digit & Hz).
  apply elem_of_run_Seq in Hz as (z4 & (c4 & D4 & A4 & B4 & G4)%elem_of_run_digit & Hz).
  apply elem_of_run_Alt in Hz as [(c5 & D5 & A5 & B5 & G5)%elem_of_run_digit|Hz].
  - exists [c1; c2; c3; c4; c5].
    rewrite (capture_text 1 x z [c1; c2; c3; c4; c5])
      by (cbn; congruence).
    cbn [caps after]. split; [all_digits|]. split; [by right|].
    split; cbn; congruence.
  - cbn [run] in Hz. apply list_elem_of_singleton in Hz as ->.
    exists [c1; c2; c3; c4].
    rewrite (capture_text 1 x z4 [c1; c2; c3; c4]) by (cbn; congruence).
    cbn [caps after]. split; [all_digits|]. split; [by left|].
    split; cbn; congruence.
Qed.

Lemma price_complete (pre d v : jstring) (g : list (nat * jstring)) :
  allDigits d -> length d = 4%nat ->
  run false (body PRICE_PATTERN) (Cfg pre (d ++ v) g) <> [].
Proof.
  intros Hd Hl.
  destruct d as [|c1 [|c2 [|c3 [|c4 [|]]]]]; try done.
  apply Forall_cons in Hd as [D1 Hd]. apply Forall_cons in Hd as [D2 Hd].
  apply Forall_cons in Hd as [D3 Hd]. apply Forall_cons in Hd as [D4 _].
  cbn [body PRICE_PATTERN]. unfold Opt.
  set (z4 := Cfg (c4 :: c3 :: c2 :: c1 :: pre) v g).
  apply (not_nil_of_elem (capture 1 (Cfg pre ([c1; c2; c3; c4] ++ v) g) z4)).
  apply elem_of_run_Group. exists z4. split; [|done].
  apply elem_of_run_Seq. exists (Cfg (c1 :: pre) ([c2; c3; c4] ++ v) g).
  split; [apply elem_of_run_digit; by exists c1|].
  apply elem_of_run_Seq. exists (Cfg (c2 :: c1 :: pre) ([c3; c4] ++ v) g).
  split; [apply elem_of_run_digit; by exists c2|].
  apply elem_of_run_Seq. exists (Cfg (c3 :: c2 :: c1 :: pre) ([c4] ++ v) g).
  split; [apply elem_of_run_digit; by exists c3|].
  apply elem_of_run_Seq. exists z4.
  split; [apply elem_of_run_digit; by exists c4|].
  apply elem_of_run_Alt. right. cbn [run]. by apply list_elem_of_singleton.
Qed.

Lemma group_of_caps (k : nat) (d m : jstring) :
  groupText k (Match m [(k, d)]) = d.
Proof.
  unfold groupText, group. cbn. by rewrite Nat.eqb_refl.
Qed.

Lemma decimalValue_snoc (d : jstring) (c : N) :
  decimalValue (d ++ [c]) = (decimalValue d * 10 + Z.of_N (c - 0x30))%Z.
Proof.
  induction d as [|c0 t IH]; cbn [app decimalValue length].
  - change (10 ^ Z.of_nat 0)%Z with 1%Z. lia.
  - rewrite IH, length_app, Nat2Z.inj_add, Z.pow_add_r by lia.
    change (10 ^ Z.of_nat (length [c]))%Z with 10%Z. ring.
Qed.

(** The value the source computes digit by digit is the number the
    digits write. *)
Lemma digitsToZ_decimalValue (d : jstring) : digitsToZ d = decimalValue d.
Proof.
  induction d as [|c d IH] using rev_ind; [done|].
  rewrite decimalValue_snoc, <- IH. unfold digitsToZ. by rewrite fold_left_app.
Qed.

(** The first way the price pattern matches: five digits when a fifth
    follows, four otherwise. *)
Lemma price_head (x y : cfg) :
  head (run false (body PRICE_PATTERN) x) = Some y ->
  exists d, allDigits d /\ after x = d ++ after y
            /\ caps y = (1%nat, d) :: caps x
            /\ (length d = 5%nat
                \/ (length d = 4%nat /\ ~ startsWithDigits 1 (after y))).
Proof.
  destruct x as [pre s g]. cbn [body PRICE_PATTERN].
  change (run false (Group 1 ?a) ?x) with (List.map (capture 1 x) (run false a x)).
  rewrite run_Seq_digit. destruct s as [|c1 s]; [discriminate|].
  destruct (isDigit c1) eqn:D1; [|discriminate].
  rewrite run_Seq_digit. destruct s as [|c2 s]; [discriminate|].
  destruct (isDigit c2) eqn:D2; [|discriminate].
  rewrite run_Seq_digit. destruct s as [|c3 s]; [discriminate|].
  destruct (isDigit c3) eqn:D3; [|discriminate].
  rewrite run_Seq_digit. destruct s as [|c4 s]; [discriminate|].
  destruct (isDigit c4) eqn:D4; [|discriminate].
  rewrite run_Opt, run_digit.
  set (x := Cfg pre (c1 :: c2 :: c3 :: c4 :: s) g).
  assert (H4 : forall t, capture 1 x (Cfg (c4 :: c3 :: c2 :: c1 :: pre) t g)
                         = Cfg (c4 :: c3 :: c2 :: c1 :: pre) t
                             ((1%nat, [c1; c2; c3; c4]) :: g)).
  { intros t. by rewrite (capture_text 1 x _ [c1; c2; c3; c4]). }
  assert (Hno : forall t, (t = [] \/ exists c t', t = c :: t' /\ isDigit c = false) ->
                          ~ startsWithDigits 1 t).
  { intros t Ht (d & v & -> & Hd & Hl).
    destruct d as [|c [|]]; try done. apply Forall_cons in Hd as [Hc _].
    destruct Ht as [Ht|(c' & t' & Ht & Hc')]; [done|].
    cbn in Ht. injection Ht as -> _. congruence. }
  destruct s as [|c5 s]; [|destruct (isDigit c5) eqn:D5];
    cbn [app List.map head]; intros [= <-].
  - rewrite H4. exists [c1; c2; c3; c4]. cbn [after caps].
    split; [all_digits|]. split; [done|]. split; [done|].
    right. split; [done|]. apply Hno. by left.
  - rewrite (capture_text 1 x _ [c1; c2; c3; c4; c5]) by done.
    exists [c1; c2; c3; c4; c5]. cbn [after caps].
    split; [all_digits|]. split; [done|]. split; [done|]. by left.
  - rewrite H4. exists [c1; c2; c3; c4]. cbn [after caps].
    split; [all_digits|]. split; [done|]. split; [done|].
    right. split; [done|]. apply Hno. right. by exists c5, s.
Qed.

(** The price read by the source is the price of the name. *)
Lemma coursePrice_spec (name : jstring) : PriceOf name (coursePrice name).
Proof.
  unfold coursePrice, exec. change (ignoreCase PRICE_PATTERN) with false.
  destruct (search false (body PRICE_PATTERN) [] name) as [[x y]|] eqn:E.
  - left. apply search_Some in E as (u & w & -> & -> & Hy & Hmin).
    apply price_head in Hy as (d & Hd & Ha & Hg & Hgreedy).
    cbn [after caps] in *. subst w.
    exists u, d, (after y). rewrite Hg, group_of_caps.
    split; [done|]. split; [done|]. split; [|split; [done|]].
    + intros u' w' -> Hw' (d' & v' & Heq & Hd' & Hl').
      apply (Hmin u' w' eq_refl Hw'). rewrite Heq. by apply price_complete.
    + rewrite decimalToNumber_digits, digitsToZ_decimalValue; [done|done|].
      intros ->. cbn in Hgreedy. lia.
  - right. split; [|done]. intros u w -> (d & v & -> & Hd & Hl).
    rewrite search_None in E. eapply E; [done|]. by apply price_complete.
Qed.

Lemma people_sound (x y : cfg) :
  y ∈ run false (body NAME_PEOPLE_PATTERN) x ->
  exists d, allDigits d /\ d <> []
            /\ after x = d ++ utf16 "名" ++ after y
            /\ caps y = (1%nat, d) :: caps x.
Proof.
  cbn [body NAME_PEOPLE_PATTERN]. unfold Plus, str.
  intros (z & Hz & Hy)%elem_of_run_Seq.
  apply elem_of_run_Group in Hz as (z' & Hz' & ->).
  apply elem_of_run_Seq in Hz' as (z1 & (c & Dc & A1 & B1 & G1)%elem_of_run_digit & Hz').
  cbn [run] in Hz'. apply iterate_digits_inv in Hz' as (ds & Hds & A2 & B2 & G2).
  rewrite (capture_text 1 x z' (c :: ds)) in Hy
    by (cbn [rev]; rewrite <- app_assoc; cbn; congruence).
  apply run_lit_inv in Hy as (m & Am & Hm & _ & Gm). cbn in Hm, Am, Gm. subst m.
  exists (c :: ds). repeat split; try done.
  - by constructor.
  - rewrite A1, A2, Am. reflexivity.
  - congruence.
Qed.

Lemma people_complete (pre d v : jstring) (g : list (nat * jstring)) :
  allDigits d -> d <> [] ->
  run false (body NAME_PEOPLE_PATTERN) (Cfg pre (d ++ utf16 "名" ++ v) g) <> [].
Proof.
  intros Hd Hne. destruct d as [|c ds]; [done|].
  apply Forall_cons in Hd as [Dc Hds].
  cbn [body NAME_PEOPLE_PATTERN]. unfold Plus, str.
  set (x := Cfg pre ((c :: ds) ++ utf16 "名" ++ v) g).
  set (z' := Cfg (rev ds ++ c :: pre) (utf16 "名" ++ v) g).
  apply (not_nil_of_elem
           (Cfg (rev (utf16 "名") ++ before z') v ((1%nat, c :: ds) :: g))).
  apply elem_of_run_Seq. exists (capture 1 x z'). split.
  - apply elem_of_run_Group. exists z'. split; [|done].
    apply elem_of_run_Seq. exists (Cfg (c :: pre) (ds ++ utf16 "名" ++ v) g).
    split; [apply elem_of_run_digit; by exists c|].
    cbn [run after]. apply iterate_digits_complete; [done|].
    rewrite length_app. lia.
  - rewrite (capture_text 1 x z' (c :: ds))
      by (cbn [rev before]; by rewrite <- app_assoc).
    subst z'. cbn [before after caps].
    rewrite (run_lit_match false (utf16 "名") (utf16 "名") v _ _ eq_refl).
    by apply list_elem_of_singleton.
Qed.

(** The head count read by the source is the head count of the name. *)
Lemma coursePeopleCount_spec (name : jstring) (count : number) :
  HeadcountOf name count (coursePeopleCount name count).
Proof.
  unfold coursePeopleCount, exec.
  change (ignoreCase NAME_PEOPLE_PATTERN) with false.
  destruct (search false (body NAME_PEOPLE_PATTERN) [] name) as [[x y]|] eqn:E.
  - left. apply search_Some in E as (u & w & -> & -> & Hy & Hmin).
    apply head_elem_of, people_sound in Hy as (d & Hd & Hne & Ha & Hg).
    cbn [after caps] in *. subst w.
    exists u, d, (after y). rewrite Hg, group_of_caps.
    split; [done|]. split; [done|]. split; [done|]. split.
    + intros u' w' -> Hw' (d' & v' & Heq & Hd' & Hne').
      apply (Hmin u' w' eq_refl Hw'). rewrite Heq. by apply people_complete.
    + intros _. by rewrite decimalToNumber_digits, digitsToZ_decimalValue.
  - right. split; [|done]. intros u w -> (d & v & -> & Hd & Hne).
    rewrite search_None in E. eapply E; [done|]. by apply people_complete.
Qed.

(** *** The price and the head count are determined by the name *)

Lemma leftmost_unique (P : jstring -> Prop) (u w u' w' : jstring) :
  u ++ w = u' ++ w' -> P w -> P w' ->
  (forall a b, u = a ++ b -> b <> [] -> ~ P (b ++ w)) ->
  (forall a b, u' = a ++ b -> b <> [] -> ~ P (b ++ w')) ->
  u = u' /\ w = w'.
Proof.
  intros Heq Hw Hw' Hu Hu'.
  apply app_eq_app in Heq as (l & [[-> ->]|[-> ->]]).
  - destruct l as [|c l]; [by rewrite app_nil_r|].
    exfalso. by apply (Hu u' (c :: l)).
  - destruct l as [|c l]; [by rewrite app_nil_r|].
    exfalso. by apply (Hu' u (c :: l)).
Qed.

Lemma startsWithDigits_price (d v : jstring) :
  allDigits d -> (length d = 5 \/ length d = 4)%nat -> startsWithDigits 4 (d ++ v).
Proof.
  intros Hd Hl. exists (take 4 d), (drop 4 d ++ v).
  rewrite app_assoc, take_drop. split; [done|].
  split; [by apply Forall_take|]. rewrite length_take. lia.
Qed.

Lemma PriceOf_functional (name : jstring) (p q : number) :
  PriceOf name p -> PriceOf name q -> p = q.
Proof.
  intros [(u & d & v & Hn & Hd & Hleft & Hg & ->)|(Hnone & ->)]
         [(u' & d' & v' & Hn' & Hd' & Hleft' & Hg' & ->)|(Hnone' & ->)].
  - assert (Hs : startsWithDigits 4 (d ++ v))
      by (apply startsWithDigits_price; [done|lia]).
    assert (Hs' : startsWithDigits 4 (d' ++ v'))
      by (apply startsWithDigits_price; [done|lia]).
    rewrite Hn in Hn'.
    destruct (leftmost_unique (startsWithDigits 4) u (d ++ v) u' (d' ++ v')
                Hn' Hs Hs' Hleft Hleft') as [_ Heq].
    assert (d = d') as ->; [|done].
    apply app_eq_app in Heq as (l & [[-> ->]|[-> ->]]).
    + destruct l as [|c l]; [by rewrite app_nil_r|]. exfalso.
      rewrite length_app in Hg. cbn [length] in Hg.
      apply Forall_app in Hd as [_ [Hc _]%Forall_cons].
      destruct Hg' as [Hg'|[Hg' Hv]]; [lia|].
      apply Hv. exists [c], (l ++ v). by repeat constructor.
    + destruct l as [|c l]; [by rewrite app_nil_r|]. exfalso.
      rewrite length_app in Hg'. cbn [length] in Hg'.
      apply Forall_app in Hd' as [_ [Hc _]%Forall_cons].
      destruct Hg as [Hg|[Hg Hv]]; [lia|].
      apply Hv. exists [c], (l ++ v'). by repeat constructor.
  - exfalso. apply (Hnone' u (d ++ v) Hn).
    apply startsWithDigits_price; [done|lia].
  - exfalso. apply (Hnone u' (d' ++ v') Hn').
    apply startsWithDigits_price; [done|lia].
  - done.
Qed.

Lemma digits_before_mei (d d' v v' : jstring) :
  allDigits d -> allDigits d' ->
  d ++ utf16 "名" ++ v = d' ++ utf16 "名" ++ v' -> d = d'.
Proof.
  change (utf16 "名") with [0x540D]. intros Hd. revert d'.
  induction Hd as [|c t Hc Ht IH]; intros d' Hd' Heq.
  - destruct Hd' as [|c' t' Hc' _]; [done|].
    cbn in Heq. injection Heq as <- _. done.
  - destruct Hd' as [|c' t' Hc' Ht'].
    + cbn in Heq. injection Heq as -> _. done.
    + cbn in Heq. injection Heq as -> Heq. f_equal. by apply IH.
Qed.

Lemma HeadcountOf_functional (name : jstring) (count n n' : number) :
  (length name <= 308)%nat ->
  HeadcountOf name count n -> HeadcountOf name count n' -> n = n'.
Proof.
  intros Hlen
    [(u & d & v & Hn & Hd & Hne & Hleft & Hv)|(Hnone & ->)]
    [(u' & d' & v' & Hn' & Hd' & Hne' & Hleft' & Hv')|(Hnone' & ->)].
  - assert (Hs : startsWithHeadcount (d ++ utf16 "名" ++ v)) by by exists d, v.
    assert (Hs' : startsWithHeadcount (d' ++ utf16 "名" ++ v')) by by exists d', v'.
    pose proof Hn as Hn0. rewrite Hn' in Hn0. symmetry in Hn0.
    destruct (leftmost_unique startsWithHeadcount u _ u' _ Hn0 Hs Hs' Hleft Hleft')
      as [_ Heq].
    apply digits_before_mei in Heq as <-; [|done|done].
    assert (Hl : (length d <= 308)%nat).
    { rewrite Hn, !length_app in Hlen. lia. }
    by rewrite (Hv Hl), (Hv' Hl).
  - exfalso. apply (Hnone' u _ Hn). by exists d, v.
  - exfalso. apply (Hnone u' _ Hn'). by exists d', v'.
  - done.
Qed.

(** A price of five digits is read whole, and so is a head count of two
    digits: no shorter run of their digits is their price or head count. *)
Example price_of_five_digits (p : number) :
  PriceOf (utf16 "コース10000") p -> p = num 10000.
Proof.
  intros H. rewrite (PriceOf_functional _ _ _ H (coursePrice_spec _)).
  vm_compute. reflexivity.
Qed.

Example headcount_of_two_digits (count n : number) :
  HeadcountOf (utf16 "コース12名") count n -> n = num 12.
Proof.
  intros H.
  assert (Hlen : (length (utf16 "コース12名") <= 308)%nat)
    by (apply Nat.leb_le; vm_compute; reflexivity).
  rewrite (HeadcountOf_functional _ count _ _ Hlen H (coursePeopleCount_spec _ count)).
  vm_compute. reflexivity.
Qed.




Example course_booking_with_variant_keyword :
  classifyProduct emptyProductAcc (productRow "ディナーコース5500 花 3名様" 1)
  = pushCoursePeople {| cp_label := utf16 "ディナー"; cp_price := num 5500;
                        cp_count := num 3 |} emptyProductAcc.
Proof. vm_compute. reflexivity. Qed.

(** ** Rows without a quantity *)

Lemma findKey_none (row : Row) (cand : jstring) :
  (forall k, k ∈ keys row -> norm k <> norm cand) -> findKey row cand = None.
Proof.
  unfold findKey. induction (keys row) as [|k l IH]; intros H; cbn [List.find]; [done|].
  rewrite (proj2 (jstring_eqb_false (norm k) (norm cand))) by (apply H; left).
  apply IH. intros k' Hk'. apply H. by right.
Qed.

Lemma firstByCandidates_missing (row : Row) (cands : list jstring) :
  (forall k, k ∈ keys row -> norm k ∉ norm <$> cands) ->
  firstByCandidates row cands = num 0.
Proof.
  induction cands as [|c l IH]; intros H; cbn [firstByCandidates]; [done|].
  rewrite findKey_none.
  - apply IH. intros k Hk Hin. apply (H k Hk). rewrite fmap_cons. by right.
  - intros k Hk E. apply (H k Hk). rewrite fmap_cons, E. left.
Qed.

(** C4, as amended.  A product row whose resolved quantity is zero or
    NaN, and so every row without a quantity column, is skipped before
    any other rule: the counts, the sides, the course bookings and the
    unassigned list stay as they were.  (A row with a negative quantity
    is not skipped.) *)
Theorem row_without_quantity_is_skipped (acc : ProductAcc) (row : Row) :
  truthy (firstByCandidates row PRODUCT_QTY_CANDS) = false \/ noQuantityColumn row ->
  classifyProduct acc row = acc.
Proof.
  intros [H|H]; unfold classifyProduct.
  - by rewrite H.
  - by rewrite (firstByCandidates_missing row PRODUCT_QTY_CANDS H).
Qed.

Lemma row_without_quantity_is_skipped_witness :
  let row := productRow "豆乳ラーメン「花」" 0 in
  truthy (firstByCandidates row PRODUCT_QTY_CANDS) = false
  /\ classifyProduct emptyProductAcc row = emptyProductAcc.
Proof.
  split; [reflexivity|].
  apply (row_without_quantity_is_skipped emptyProductAcc
           (productRow "豆乳ラーメン「花」" 0)).
  left. reflexivity.
Defined.

(** C4 as stated fails on a negative quantity: the row is classified
    and lowers the plain count of 花. *)
Lemma negative_quantity_is_counted :
  let row := productRow "豆乳ラーメン「花」" (-2) in
  let acc' := classifyProduct emptyProductAcc row in
  jsle (firstByCandidates row PRODUCT_QTY_CANDS) (num 0) = true
  /\ at_ (localTotals acc') 花 = num (-2)
  /\ acc' <> emptyProductAcc.
Proof.
  repeat split; try (vm_compute; reflexivity).
  intros H. apply (f_equal (fun a => at_ (localTotals a) 花)) in H.
  vm_compute in H. discriminate.
Qed.

(** ** Rendering *)

(** C9.  The course section is entered whenever the list of course
    bookings is not empty, before its entries are filtered: a single
    booking with a head count of 0 makes the renderer push the blank
    separator and then no line at all, so that the report ends in a
    blank line.  The input is reached from [makeSummary] by a product
    named ディナーコース 0名. *)
Theorem zero_headcount_course_leaves_trailing_blank :
  let products := [productRow "ディナーコース 0名" 1] in
  let stats := [[(utf16 "売上高（税込み）", VNum (num 1000))]] in
  let h := sampleHost products stats in
  let st := (makeSummary h (sampleHostState products stats [])).1 in
  coursePeopleEntries st
  = [{| cp_label := utf16 "ディナー"; cp_price := num 0; cp_count := num 0 |}]
  /\ renderLines h (meta st) (ramenTotals st) (ramenSetTotals st)
       (ramenCourseTotals st) (coursePeopleEntries st)
       (num (Z.of_nat (length (unassigned st))))
     = [utf16 "9月3日（水曜日）"; []; utf16 "売上　¥1,000"; []]
  /\ last (renderLines h (meta st) (ramenTotals st) (ramenSetTotals st)
             (ramenCourseTotals st) (coursePeopleEntries st)
             (num (Z.of_nat (length (unassigned st)))))
     = Some [].
Proof. repeat split; vm_compute; reflexivity. Qed.

(** * Further properties *)

(** ** [makeSummary] as a whole *)

(** X1.  A run of [makeSummary] raises no alert exactly when both files are
    chosen, both decode and the payment summary has a row; every run
    that raises an alert hands back the state it was given. *)
Theorem makeSummary_all_or_nothing (h : Host) (st : ReportState) :
  (snd (makeSummary h st) = None <-> Runnable h st)
  /\ (snd (makeSummary h st) <> None -> fst (makeSummary h st) = st).
Proof.
  unfold makeSummary, Runnable.
  destruct (productFile st) as [pf|] eqn:Hp, (statsFile st) as [sf|] eqn:Hs;
    cbn [fst snd];
    try (split; [split; [done|intros (?&?&?&?&?&?&?&?); congruence]|done]).
  destruct (readRows h pf) as [e|prows] eqn:Ep, (readRows h sf) as [e'|[|dayRow rest]] eqn:Es;
    cbn [fst snd];
    try (split; [split; [done|intros (?&?&?&?&?&[= <-]&[= <-]&?&?); congruence]|done]).
  split; [|done]. split; [|done]. intros _. by exists pf, sf, prows, dayRow, rest.
Qed.

(** X2.  A run that succeeds builds the report from the files alone: the
    report held before has no part in it. *)
Theorem makeSummary_replaces_report (h : Host) (st1 st2 : ReportState) :
  productFile st1 = productFile st2 ->
  statsFile st1 = statsFile st2 ->
  snd (makeSummary h st1) = None ->
  makeSummary h st2 = makeSummary h st1.
Proof.
  intros Hp Hs. unfold makeSummary. rewrite <- Hp, <- Hs.
  destruct (productFile st1) as [pf|], (statsFile st1) as [sf|]; cbn [snd]; try done.
  destruct (readRows h pf) as [e|prows], (readRows h sf) as [e'|[|dayRow rest]];
    cbn [snd]; try done.
Qed.

Lemma makeSummary_replaces_report_witness :
  let products := [productRow "豆乳ラーメン「花」" 2] in
  let stats := [[(utf16 "売上高（税込み）", VNum (num 1000))]] in
  let h := sampleHost products stats in
  makeSummary h (sampleHostState products stats [item "味噌ラーメン" 3])
  = makeSummary h (sampleHostState products stats []).
Proof.
  apply (makeSummary_replaces_report
           (sampleHost [productRow "豆乳ラーメン「花」" 2]
                       [[(utf16 "売上高（税込み）", VNum (num 1000))]]));
    reflexivity.
Defined.

(** ** The product loop, row by row *)

(** What a fate does to the accumulators. *)
Lemma classifyProduct_fate (acc : ProductAcc) (row : Row) :
  classifyProduct acc row =
  match fateOf row with
  | Skipped | Excluded | Dropped => acc
  | Unassigned =>
    pushAmbiguous {| ui_name := rowName row; ui_count := rowCount row |} acc
  | SideYokubari => addYokubari (rowCount row) acc
  | SidePatty => addPatty (rowCount row) acc
  | Course =>
    pushCoursePeople
      {| cp_label := courseLabel (rowName row);
         cp_price := coursePrice (rowName row);
         cp_count := coursePeopleCount (rowName row) (rowCount row) |} acc
  | RamenSet g => addSet g (rowCount row) acc
  | RamenPlain g => addPlain g (rowCount row) acc
  end.
Proof.
  unfold classifyProduct, classifyNamed, fateOf.
  fold (rowName row) (rowCount row) (rowCategory row).
  destruct (truthy (rowCount row)); cbn [negb]; [|done].
  destruct (existsb _ EXCLUDED_PRODUCT_REGEXPS); [done|].
  destruct (test FORCE_AMBIG_SET_HANA_GEKKA (rowName row) && test SET_WORD_RE (rowName row));
    [done|].
  destruct (isYokubariCurry (rowName row)); [done|].
  destruct (isPattyCurry (rowName row)); [done|].
  destruct (isCourse (rowName row) (rowCategory row)); [done|].
  destruct (guessRamenKey (rowName row)) as [g|].
  - by destruct (test SET_NAME_RE (rowName row) || test SET_CATEGORY_RE (rowCategory row)).
  - by destruct (isRamenish (rowName row)).
Qed.

Lemma at_bump_eq {K} `{Countable K} (k : K) (n : number) (t : gmap K number) :
  at_ (bump k n t) k = jsadd (at_ t k) n.
Proof. unfold at_, bump. by rewrite lookup_insert_eq. Qed.

Lemma at_bump_ne {K} `{Countable K} (k k' : K) (n : number) (t : gmap K number) :
  k <> k' -> at_ (bump k n t) k' = at_ t k'.
Proof. intros Hk. unfold at_, bump. by rewrite lookup_insert_ne. Qed.

Lemma makeEmptyTotals_zero (k : RamenKey) : at_ makeEmptyTotals k = num 0.
Proof. by destruct k. Qed.

(** X3.  Classification never counts a course serving: whatever the rows,
    the course table comes out with every variant at 0, so that a
    successful run resets the course servings assigned by hand. *)
Theorem classification_resets_course_totals (h : Host) (st : ReportState) :
  snd (makeSummary h st) = None ->
  ramenCourseTotals (fst (makeSummary h st)) = makeEmptyTotals
  /\ forall k, at_ (ramenCourseTotals (fst (makeSummary h st))) k = num 0.
Proof.
  assert (Hfold : forall rows acc,
             localCourseTotals (foldl classifyProduct acc rows) = localCourseTotals acc).
  { induction rows as [|row rows IH]; intros acc; cbn [foldl]; [done|].
    rewrite IH, classifyProduct_fate. by destruct (fateOf row). }
  intros Hok.
  assert (ramenCourseTotals (fst (makeSummary h st)) = makeEmptyTotals) as ->.
  { revert Hok. unfold makeSummary.
    destruct (productFile st) as [pf|], (statsFile st) as [sf|]; cbn [snd]; try done.
    destruct (readRows h pf) as [e|prows], (readRows h sf) as [e'|[|dayRow rest]];
      cbn [snd fst ramenCourseTotals]; try done.
    intros _. unfold classifyProducts. by rewrite Hfold. }
  split; [done|]. apply makeEmptyTotals_zero.
Qed.

Lemma classification_resets_course_totals_witness :
  let products := [productRow "月花コース" 2; productRow "コース 4名" 1] in
  let stats := [[(utf16 "売上高（税込み）", VNum (num 1000))]] in
  let h := sampleHost products stats in
  let st := setRamenCourseTotals (bump 花 (num 2)) (sampleHostState products stats []) in
  ramenCourseTotals (fst (makeSummary h st)) = makeEmptyTotals.
Proof.
  apply (classification_resets_course_totals
           (sampleHost [productRow "月花コース" 2; productRow "コース 4名" 1]
                       [[(utf16 "売上高（税込み）", VNum (num 1000))]])).
  reflexivity.
Defined.

Lemma ambiguous_foldl (rows : list Row) (acc : ProductAcc) :
  ambiguous (foldl classifyProduct acc rows)
  = ambiguous acc ++ omap unassignedOf rows.
Proof.
  revert acc. induction rows as [|row rows IH]; intros acc; cbn [foldl omap list_omap].
  - by rewrite app_nil_r.
  - rewrite IH, classifyProduct_fate. unfold unassignedOf, hasFate.
    destruct (fateOf row); cbn [ambiguous pushAmbiguous addYokubari addPatty
      pushCoursePeople addSet addPlain];
      rewrite ?bool_decide_eq_false_2 by done;
      rewrite ?bool_decide_eq_true_2 by done; try done.
    by rewrite <- app_assoc.
Qed.

(** X4.  The unassigned list built by the loop is, in row order, one item
    per row that is forced or falls back to manual assignment, with the
    name and quantity of that row: an item is never merged with another
    and rows of any other fate leave no item. *)
Theorem unassigned_is_one_item_per_ambiguous_row (rows : list Row) :
  ambiguous (classifyProducts rows) = omap unassignedOf rows.
Proof. unfold classifyProducts. by rewrite ambiguous_foldl. Qed.

(** X5.  Each plain count, each set count and each side counter is the sum,
    in row order, of the quantities of the rows of that fate. *)
Theorem counts_are_sums_by_fate (rows : list Row) (g : RamenKey) :
  let acc := classifyProducts rows in
  at_ (localTotals acc) g = sumWhere (hasFate (RamenPlain g)) rows
  /\ at_ (localSetTotals acc) g = sumWhere (hasFate (RamenSet g)) rows
  /\ sideYokubari acc = sumWhere (hasFate SideYokubari) rows
  /\ sidePatty acc = sumWhere (hasFate SidePatty) rows.
Proof.
  set (step := fun (f : Fate) (s : number) (row : Row) =>
                 if hasFate f row then jsadd s (rowCount row) else s).
  assert (Hfold : forall rows acc,
    let acc' := foldl classifyProduct acc rows in
    at_ (localTotals acc') g = foldl (step (RamenPlain g)) (at_ (localTotals acc) g) rows
    /\ at_ (localSetTotals acc') g = foldl (step (RamenSet g)) (at_ (localSetTotals acc) g) rows
    /\ sideYokubari acc' = foldl (step SideYokubari) (sideYokubari acc) rows
    /\ sidePatty acc' = foldl (step SidePatty) (sidePatty acc) rows).
  { clear rows. induction rows as [|row rows IH]; intros acc; cbn [foldl]; [done|].
    destruct (IH (classifyProduct acc row)) as (H1 & H2 & H3 & H4).
    cbn zeta. rewrite H1, H2, H3, H4. clear IH H1 H2 H3 H4.
    rewrite classifyProduct_fate. unfold step, hasFate.
    destruct (fateOf row) as [| | | | | |g'|g'|];
      cbn [localTotals localSetTotals sideYokubari sidePatty pushAmbiguous
           addYokubari addPatty pushCoursePeople addSet addPlain];
      rewrite ?bool_decide_eq_false_2 by done;
      rewrite ?bool_decide_eq_true_2 by done; try done.
    - destruct (decide (g' = g)) as [->|Hg].
      + rewrite at_bump_eq, bool_decide_eq_true_2 by done. done.
      + rewrite at_bump_ne, bool_decide_eq_false_2 by congruence. done.
    - destruct (decide (g' = g)) as [->|Hg].
      + rewrite at_bump_eq, bool_decide_eq_true_2 by done. done.
      + rewrite at_bump_ne, bool_decide_eq_false_2 by congruence. done. }
  cbn zeta. unfold classifyProducts, sumWhere.
  destruct (Hfold rows emptyProductAcc) as (H1 & H2 & H3 & H4).
  cbn zeta in *. rewrite H1, H2, H3, H4.
  cbn [emptyProductAcc localTotals localSetTotals sideYokubari sidePatty].
  unfold makeEmptySetTotals. by rewrite !makeEmptyTotals_zero.
Qed.

(** ** Quantities of unassigned items *)

Lemma truthy_not_NaN (n : number) : truthy n = true -> n <> NaN.
Proof. by intros H ->. Qed.

Lemma fate_unassigned_truthy (row : Row) :
  fateOf row = Unassigned -> truthy (rowCount row) = true.
Proof.
  unfold fateOf. destruct (truthy (rowCount row)); [done|]. cbn [negb]. done.
Qed.

(** X6.  Every item the loop leaves for manual assignment has a quantity
    that is a number other than 0 (never NaN), since rows with a falsy
    quantity are skipped first. *)
Theorem classified_items_have_quantities (rows : list Row) :
  QuantitiesOk (ambiguous (classifyProducts rows)).
Proof.
  unfold classifyProducts, QuantitiesOk. rewrite ambiguous_foldl. cbn [ambiguous emptyProductAcc app].
  induction rows as [|row rows IH]; cbn [omap list_omap]; [constructor|].
  unfold unassignedOf at 1, hasFate.
  destruct (bool_decide (fateOf row = Unassigned)) eqn:E; [|done].
  apply bool_decide_eq_true in E. constructor; [|done].
  by apply fate_unassigned_truthy.
Qed.

Lemma assignQty_positive (it : UnassignedItem) (amount : option number) :
  ui_count it <> NaN ->
  jsle (assignQty it amount) (num 0) = false ->
  jsle (assignQty it amount) (ui_count it) = true.
Proof.
  intros Hc Hq.
  destruct (jsle (movedQty it amount) (num 0)) eqn:Hm.
  - rewrite (assignQty_noop it amount Hc Hm) in Hq. done.
  - destruct (assignQty_moves it amount Hc Hm) as [-> Hle]. done.
Qed.

Lemma assignNext_quantities (prev : list UnassignedItem) (i : nat)
  (it : UnassignedItem) (amount : option number) :
  QuantitiesOk prev -> prev !! i = Some it ->
  jsle (assignQty it amount) (num 0) = false ->
  QuantitiesOk (assignNext prev i it (assignQty it amount))
  /\ (length (assignNext prev i it (assignQty it amount)) <= length prev)%nat.
Proof.
  intros Hok Hit Hq. unfold assignNext.
  assert (Hc : ui_count it <> NaN).
  { apply truthy_not_NaN. eapply (Forall_lookup_1 _ _ _ _ Hok Hit). }
  pose proof (assignQty_positive it amount Hc Hq) as Hle.
  destruct (jsge (assignQty it amount) (ui_count it)) eqn:Hge.
  - split; [by apply Forall_delete|]. rewrite length_delete by eauto. lia.
  - split; [|by rewrite length_insert].
    apply Forall_insert; [done|]. cbn [ui_count].
    apply jsgt_zero_truthy.
    by apply (remainder_bounds _ _ Hc Hq Hle Hge).
Qed.

(** X7.  A reassignment, to a plain, set or course count, keeps every
    remaining quantity a number other than 0 and never lengthens the
    unassigned list. *)
Theorem reassign_keeps_quantities (st : ReportState) (index : number)
  (key : RamenKey) (asSet : bool) (amount : option number) :
  QuantitiesOk (unassigned st) ->
  (QuantitiesOk (unassigned (applyAssign index key asSet amount st))
   /\ (length (unassigned (applyAssign index key asSet amount st))
       <= length (unassigned st))%nat)
  /\ (QuantitiesOk (unassigned (applyAssignCourse index key amount st))
      /\ (length (unassigned (applyAssignCourse index key amount st))
          <= length (unassigned st))%nat).
Proof.
  intros Hok. unfold applyAssign, applyAssignCourse.
  destruct (arrayIndex index) as [i|]; [|done].
  destruct (unassigned st !! i) as [it|] eqn:Hit; [|done].
  destruct (jsle (assignQty it amount) (num 0)) eqn:Hq; [done|].
  pose proof (assignNext_quantities _ i it amount Hok Hit Hq) as Hn.
  split; [by destruct asSet|done].
Qed.

Lemma reassign_keeps_quantities_witness :
  let st := sampleState [item "味噌ラーメン" 3; item "塩ラーメン" 1] in
  QuantitiesOk (unassigned (applyAssign (num 0) 花 false (Some (num 2)) st))
  /\ (length (unassigned (applyAssign (num 1) 花 false None st)) <= 2)%nat.
Proof.
  split.
  - apply (reassign_keeps_quantities (sampleState [item "味噌ラーメン" 3; item "塩ラーメン" 1])
             (num 0) 花 false (Some (num 2))).
    repeat constructor.
  - apply (reassign_keeps_quantities (sampleState [item "味噌ラーメン" 3; item "塩ラーメン" 1])
             (num 1) 花 false None).
    repeat constructor.
Defined.

(** ** Conservation of servings *)

Lemma sumCounts_middle (l1 l2 : list UnassignedItem) (it : UnassignedItem) :
  sumCounts (l1 ++ it :: l2) = jsadd (ui_count it) (sumCounts (l1 ++ l2)).
Proof.
  induction l1 as [|a l1 IH]; cbn [app sumCounts]; [done|].
  rewrite IH, <- !jsadd_assoc. f_equal. apply jsadd_comm.
Qed.

(** Giving back what was taken restores the quantity. *)
Lemma jsadd_jssub_cancel (c q r : number) :
  c <> NaN -> jsle q c = true -> jsle q (num 0) = false -> jsge q c = false ->
  jsadd (jsadd q (jssub c q)) r = jsadd c r.
Proof.
  intros Hc. unfold jsge, jssub, jsneg, jsle.
  destruct c as [| | |c], q as [| | |q], r as [| | |r]; try done; cbn;
    intros H0 H1 H2; try done;
    f_equal; apply Qred_eq; rewrite !Qred_correct; ring.
Qed.

(** Two numbers that bound each other add alike. *)
Lemma jsadd_same (c q r : number) :
  jsle q c = true -> jsge q c = true -> jsadd q r = jsadd c r.
Proof.
  unfold jsge, jsle.
  destruct c as [| | |c], q as [| | |q], r as [| | |r]; try done; cbn;
    intros H1 H2; try done.
  apply Qle_bool_iff in H1, H2. f_equal. apply Qred_eq.
  assert (q == c)%Q by lra. lra.
Qed.

Lemma assignNext_conserves (prev : list UnassignedItem) (i : nat)
  (it : UnassignedItem) (q t : number) :
  prev !! i = Some it -> ui_count it <> NaN ->
  jsle q (num 0) = false -> jsle q (ui_count it) = true ->
  jsadd (jsadd t q) (sumCounts (assignNext prev i it q)) = jsadd t (sumCounts prev).
Proof.
  intros Hit Hc Hq Hle. unfold assignNext.
  rewrite <- (take_drop_middle prev i it Hit) at 3. rewrite sumCounts_middle.
  rewrite jsadd_assoc. f_equal.
  destruct (jsge q (ui_count it)) eqn:Hge.
  - rewrite delete_take_drop. by apply jsadd_same.
  - rewrite insert_take_drop by (by eapply lookup_lt_Some).
    rewrite sumCounts_middle. cbn [ui_count].
    rewrite <- jsadd_assoc. by apply jsadd_jssub_cancel.
Qed.

(** X8.  A reassignment neither makes nor loses servings: the count it
    feeds plus the quantities still unassigned add up to what they did
    before, and the two tables it does not feed are left alone. *)
Theorem reassign_conserves_servings (st : ReportState) (index : number)
  (key : RamenKey) (asSet : bool) (amount : option number) :
  QuantitiesOk (unassigned st) ->
  let b := if asSet then SetOf else Plain in
  let st1 := applyAssign index key asSet amount st in
  let st2 := applyAssignCourse index key amount st in
  jsadd (at_ (bucketTotals b st1) key) (sumCounts (unassigned st1))
  = jsadd (at_ (bucketTotals b st) key) (sumCounts (unassigned st))
  /\ jsadd (at_ (ramenCourseTotals st2) key) (sumCounts (unassigned st2))
     = jsadd (at_ (ramenCourseTotals st) key) (sumCounts (unassigned st))
  /\ (forall b', b' <> b -> bucketTotals b' st1 = bucketTotals b' st)
  /\ ramenTotals st2 = ramenTotals st /\ ramenSetTotals st2 = ramenSetTotals st.
Proof.
  intros Hok b st1 st2. subst b st1 st2. unfold applyAssign, applyAssignCourse.
  destruct (arrayIndex index) as [i|]; [|done].
  destruct (unassigned st !! i) as [it|] eqn:Hit; [|done].
  destruct (jsle (assignQty it amount) (num 0)) eqn:Hq; [done|].
  assert (Hc : ui_count it <> NaN).
  { apply truthy_not_NaN. eapply (Forall_lookup_1 _ _ _ _ Hok Hit). }
  pose proof (assignQty_positive it amount Hc Hq) as Hle.
  pose proof (fun t => assignNext_conserves (unassigned st) i it
                         (assignQty it amount) t Hit Hc Hq Hle) as Hcons.
  repeat split.
  - destruct asSet; cbn; rewrite at_bump_eq; apply Hcons.
  - cbn. rewrite at_bump_eq. apply Hcons.
  - intros b' Hb. by destruct asSet, b'.
Qed.

Lemma reassign_conserves_servings_witness :
  let st := sampleState [item "味噌ラーメン" 3; item "塩ラーメン" 1] in
  let st1 := applyAssign (num 0) 花 false (Some (num 2)) st in
  jsadd (at_ (ramenTotals st1) 花) (sumCounts (unassigned st1)) = num 4.
Proof.
  pose proof (reassign_conserves_servings
                (sampleState [item "味噌ラーメン" 3; item "塩ラーメン" 1])
                (num 0) 花 false (Some (num 2))) as H.
  cbn zeta in H. destruct H as [H _]; [repeat constructor|].
  exact H.
Defined.

(** ** How the handlers compose *)

(** X9.  After a bulk assignment nothing is left to assign: every further
    reassignment and a second bulk assignment leave the state alone. *)
Theorem after_bulk_assign_nothing_moves (st : ReportState) (index : number)
  (key : RamenKey) (asSet : bool) (amount : option number) :
  let st' := fst (assignAllUnassignedToHanaSet st) in
  unassigned st <> [] ->
  unassigned st' = []
  /\ applyAssign index key asSet amount st' = st'
  /\ applyAssignCourse index key amount st' = st'
  /\ fst (assignAllUnassignedToHanaSet st') = st'.
Proof.
  cbn zeta. intros Hne.
  assert (Hst : unassigned (fst (assignAllUnassignedToHanaSet st)) = []).
  { unfold assignAllUnassignedToHanaSet. by destruct (unassigned st). }
  revert Hst. generalize (fst (assignAllUnassignedToHanaSet st)). intros st' Hst.
  split; [done|].
  unfold applyAssign, applyAssignCourse, assignAllUnassignedToHanaSet. rewrite Hst.
  destruct (arrayIndex index) as [i|]; by rewrite ?lookup_nil.
Qed.

Lemma after_bulk_assign_nothing_moves_witness :
  let st := sampleState [item "味噌ラーメン" 3; item "塩ラーメン" 1] in
  let st' := fst (assignAllUnassignedToHanaSet st) in
  applyAssign (num 0) 月 false (Some (num 1)) st' = st'.
Proof.
  apply (after_bulk_assign_nothing_moves
           (sampleState [item "味噌ラーメン" 3; item "塩ラーメン" 1])
           (num 0) 月 false (Some (num 1))).
  discriminate.
Defined.

(** ** The alias table and the channel amounts *)

Lemma alias_lookup (key : PaymentKey) (alias : jstring) :
  alias ∈ PAYMENT_ALIASES key ->
  buildPaymentAliasMap !! norm alias = Some key.
Proof.
  destruct key; cbn [PAYMENT_ALIASES]; intros H;
    repeat (apply elem_of_cons in H as [->|H]; [vm_compute; reflexivity|]);
    by apply elem_of_nil in H.
Qed.

Lemma aliasMap_lookup_iff (key : PaymentKey) (nk : jstring) :
  buildPaymentAliasMap !! nk = Some key <-> nk ∈ norm <$> PAYMENT_ALIASES key.
Proof.
  split.
  - intros H.
    assert (Hd : nk ∈ dom buildPaymentAliasMap) by (apply elem_of_dom; eauto).
    unfold buildPaymentAliasMap in Hd. rewrite dom_foldl_keys in Hd.
    apply elem_of_union in Hd as [Hd|Hd]; [|by rewrite dom_empty_L in Hd].
    apply elem_of_list_to_set, list_elem_of_fmap in Hd as (alias & -> & Ha).
    apply list_elem_of_bind in Ha as (key' & Ha & _).
    rewrite (alias_lookup key' alias Ha) in H. injection H as <-.
    apply list_elem_of_fmap. eauto.
  - intros (alias & -> & Ha)%list_elem_of_fmap. by apply alias_lookup.
Qed.

(** X10.  The alias table sends a normalised header to a channel exactly
    when the header is the normal form of one of that channel's
    aliases: no alias of one channel is shadowed by another channel. *)
Theorem alias_table_is_faithful (key : PaymentKey) (nk : jstring) :
  buildPaymentAliasMap !! nk = Some key <-> nk ∈ norm <$> PAYMENT_ALIASES key.
Proof. apply aliasMap_lookup_iff. Qed.

Lemma paymentEntry_channel (key : PaymentKey) (acc : PaymentAcc)
  (kv : jstring * cell) (I : gset jstring) :
  key <> total ->
  at_ (acc_payments (paymentEntry buildPaymentAliasMap I acc kv)) key
  = if truthy (toNum kv.2) && channelColumn key kv
    then jsadd (at_ (acc_payments acc) key) (toNum kv.2)
    else at_ (acc_payments acc) key.
Proof.
  intros Hk. destruct kv as [k v]. unfold paymentEntry, channelColumn. cbn [fst snd].
  destruct (truthy (toNum v)); cbn [negb andb]; [|done].
  pose proof (aliasMap_lookup_iff key (norm k)) as Hkey.
  destruct (bool_decide (norm k ∈ norm <$> PAYMENT_ALIASES key)) eqn:Hb.
  - apply bool_decide_eq_true, Hkey in Hb. rewrite Hb.
    destruct key; try done; cbn [acc_payments]; by rewrite at_bump_eq.
  - apply bool_decide_eq_false in Hb.
    destruct (buildPaymentAliasMap !! norm k) as [pkey|] eqn:E.
    + assert (pkey <> key) by (intros ->; by apply Hb, Hkey).
      destruct pkey; cbn [acc_payments];
        try (by destruct (bool_decide _));
        by rewrite at_bump_ne.
    + by destruct (bool_decide _).
Qed.

Lemma zeroPayments_zero (key : PaymentKey) : at_ zeroPayments key = num 0.
Proof. by destruct key. Qed.

(** X11.  The amount of a channel other than the total is the sum, in column
    order, of the values (other than 0 and NaN) of all the columns
    whose header is an alias of the channel: aliased columns that
    coexist are accumulated, and no other column is counted. *)
Theorem channel_amount_is_sum_of_its_columns (dayRow : Row) (key : PaymentKey) :
  key <> total ->
  at_ (acc_payments (classifyPayments dayRow)) key
  = sumColumns (channelColumn key) dayRow.
Proof.
  intros Hk.
  assert (Hfold : forall row acc I,
    at_ (acc_payments (foldl (paymentEntry buildPaymentAliasMap I) acc row)) key
    = foldl (fun s kv => if truthy (toNum kv.2) && channelColumn key kv
                         then jsadd s (toNum kv.2) else s)
            (at_ (acc_payments acc) key) row).
  { induction row as [|kv r IH]; intros acc I; cbn [foldl]; [done|].
    by rewrite IH, paymentEntry_channel. }
  unfold classifyPayments, sumColumns.
  destruct (truthy (pickFirst dayRow (PAYMENT_ALIASES total))); cbn [acc_payments].
  - unfold at_ at 1. rewrite lookup_insert_ne by done. fold (at_ (acc_payments
      (foldl (paymentEntry buildPaymentAliasMap (buildIgnoreSet buildPaymentAliasMap))
             {| acc_payments := zeroPayments; acc_other := [] |} dayRow)) key).
    by rewrite Hfold, zeroPayments_zero.
  - by rewrite Hfold, zeroPayments_zero.
Qed.

Lemma channel_amount_is_sum_of_its_columns_witness :
  at_ (acc_payments (classifyPayments
         [(utf16 "Cash", VNum (num 300)); (utf16 "現金", VStr (utf16 "1,200"))])) cash
  = num 1500.
Proof.
  rewrite (channel_amount_is_sum_of_its_columns _ cash); [|discriminate].
  vm_compute. reflexivity.
Defined.

(** ** The field resolver *)

Lemma findKey_Some_hasColumn (row : Row) (cand hit : jstring) :
  findKey row cand = Some hit -> hasColumn row cand.
Proof.
  unfold findKey. intros H. apply find_some in H as [Hin Hn].
  exists hit. split; [by apply list_elem_of_In|by apply jstring_eqb_true].
Qed.

Lemma findKey_None_hasColumn (row : Row) (cand : jstring) :
  findKey row cand = None -> ~ hasColumn row cand.
Proof.
  unfold findKey. intros H (k & Hk & Hn).
  apply list_elem_of_In in Hk.
  pose proof (find_none _ _ H k Hk) as Hf. cbn in Hf.
  apply jstring_eqb_false in Hf. done.
Qed.

Lemma resolver_step (row : Row) (cand : jstring) :
  norm cand <> [] ->
  match findKey row cand with
  | Some hit =>
    nonEmpty hit = true /\ hasColumn row cand
    /\ toNum (rowGet row hit) = columnValue row cand
    /\ cellText (rowGet row hit) = columnText row cand
  | None => ~ hasColumn row cand
  end.
Proof.
  intros Hc. pose proof (findKey_rowGet row cand) as H.
  destruct (findKey row cand) as [hit|] eqn:E.
  - destruct H as (kv & Hf & Hk & Hg).
    unfold columnValue, columnText. rewrite Hf, Hg.
    split; [|split; [by eapply findKey_Some_hasColumn|done]].
    apply find_some in Hf as [_ Hn]. apply jstring_eqb_true in Hn.
    destruct hit; [|done]. rewrite Hk, norm_nil in Hn. congruence.
  - by apply findKey_None_hasColumn.
Qed.

(** X12.  The resolvers go by the order of the candidates, not of the
    columns: the number and the text they return are those of the
    first candidate that has a column in the row, wherever that column
    stands, and 0 and the empty text when no candidate has one. *)
Theorem resolver_follows_candidate_order (row : Row) (cands : list jstring) :
  Forall (fun c => norm c <> []) cands ->
  (exists pre c post,
      cands = pre ++ c :: post
      /\ Forall (fun c' => ~ hasColumn row c') pre
      /\ hasColumn row c
      /\ firstByCandidates row cands = columnValue row c
      /\ firstKeyStr row cands = columnText row c)
  \/ (Forall (fun c' => ~ hasColumn row c') cands
      /\ firstByCandidates row cands = num 0
      /\ firstKeyStr row cands = []).
Proof.
  induction 1 as [|c l Hc Hl IH]; cbn [firstByCandidates firstKeyStr].
  - right. by repeat split.
  - pose proof (resolver_step row c Hc) as Hs.
    destruct (findKey row c) as [hit|].
    + destruct Hs as (-> & Hh & Hv & Ht).
      left. exists [], c, l. by repeat split.
    + destruct IH as [(pre & c' & post & -> & Hpre & Hh & Hv & Ht)|(Hall & Hv & Ht)].
      * left. exists (c :: pre), c', post. repeat split; try done. by constructor.
      * right. repeat split; try done. by constructor.
Qed.

Lemma resolver_follows_candidate_order_witness :
  let row := [(utf16 "Qty", VNum (num 7)); (utf16 " 販売数 ", VStr (utf16 "2"))] in
  (exists pre c post,
      PRODUCT_QTY_CANDS = pre ++ c :: post
      /\ Forall (fun c' => ~ hasColumn row c') pre
      /\ hasColumn row c
      /\ firstByCandidates row PRODUCT_QTY_CANDS = columnValue row c
      /\ firstKeyStr row PRODUCT_QTY_CANDS = columnText row c)
  \/ (Forall (fun c' => ~ hasColumn row c') PRODUCT_QTY_CANDS
      /\ firstByCandidates row PRODUCT_QTY_CANDS = num 0
      /\ firstKeyStr row PRODUCT_QTY_CANDS = []).
Proof.
  apply (resolver_follows_candidate_order
           [(utf16 "Qty", VNum (num 7)); (utf16 " 販売数 ", VStr (utf16 "2"))]
           PRODUCT_QTY_CANDS).
  repeat constructor; vm_compute; discriminate.
Defined.

Example resolver_prefers_earlier_candidate :
  firstByCandidates [(utf16 "Qty", VNum (num 7)); (utf16 " 販売数 ", VStr (utf16 "2"))]
    PRODUCT_QTY_CANDS = num 2.
Proof. vm_compute. reflexivity. Qed.

(** ** Reading numbers *)

Lemma elem_of_run_Chr (c : N) (x y : cfg) :
  y ∈ run false (Chr c) x <->
  after x = c :: after y /\ before y = c :: before x /\ caps y = caps x.
Proof.
  cbn [run]. unfold step, unitMatches.
  destruct x as [pre [|d suf] g]; cbn.
  - split; [by intros ?%elem_of_nil|]. by intros [? _].
  - destruct (N.eqb_spec c d) as [->|Hne].
    + rewrite list_elem_of_singleton. split; [by intros ->|].
      intros (Ha & Hb & Hg). destruct y as [pb pa pg]. cbn in *. congruence.
    + split; [by intros ?%elem_of_nil|]. intros (Ha & _). congruence.
Qed.

Lemma elem_of_run_Plus_digit (ic : bool) (x y : cfg) :
  y ∈ run ic (Plus digit) x ->
  exists ds, allDigits ds /\ ds <> [] /\ after x = ds ++ after y
             /\ before y = rev ds ++ before x /\ caps y = caps x.
Proof.
  unfold Plus.
  intros (z & (c & Dc & A1 & B1 & G1)%elem_of_run_digit & Hy)%elem_of_run_Seq.
  cbn [run] in Hy. apply iterate_digits_inv in Hy as (ds & Hds & A2 & B2 & G2).
  exists (c :: ds). split; [by constructor|]. split; [done|].
  cbn [rev app]. rewrite <- app_assoc. cbn [app].
  split; [by rewrite A1, A2|]. split; congruence.
Qed.

Lemma numeric_sound (x y : cfg) :
  y ∈ run false (body NUMERIC_RE) x ->
  exists m, NumericText m /\ after x = m ++ after y.
Proof.
  cbn [body NUMERIC_RE]. unfold Opt. change (Cls CDigit) with digit.
  intros (z1 & H1 & (z2 & H2 & H3)%elem_of_run_Seq)%elem_of_run_Seq.
  apply elem_of_run_Plus_digit in H2 as (ds & Hds & Hne & A2 & _).
  assert (Hsign : exists sign, (sign = [] \/ sign = [0x2D]) /\ after x = sign ++ after z1).
  { apply elem_of_run_Alt in H1 as [(A1 & _)%elem_of_run_Chr|H1].
    - exists [0x2D]. split; [by right|done].
    - cbn [run] in H1. apply list_elem_of_singleton in H1 as ->.
      exists []. split; [by left|done]. }
  assert (Hfrac : exists frac,
             (frac = [] \/ exists fs, frac = 0x2E :: fs /\ allDigits fs /\ fs <> [])
             /\ after z2 = frac ++ after y).
  { apply elem_of_run_Alt in H3 as [H3|H3].
    - apply elem_of_run_Group in H3 as (z3 & H3 & ->).
      apply elem_of_run_Seq in H3 as (z4 & (A4 & _)%elem_of_run_Chr & H5).
      apply elem_of_run_Plus_digit in H5 as (fs & Hfs & Hfne & A5 & _).
      exists (0x2E :: fs). split; [right; by exists fs|].
      cbn [capture after app]. by rewrite A4, A5.
    - cbn [run] in H3. apply list_elem_of_singleton in H3 as ->.
      exists []. split; [by left|done]. }
  destruct Hsign as (sign & Hs & A1), Hfrac as (frac & Hf & A3).
  exists (sign ++ ds ++ frac). split; [by exists sign, ds, frac|].
  rewrite A1, A2, A3. by rewrite <- !app_assoc.
Qed.

Lemma takeWhileB_digits_app (ds rest : jstring) :
  allDigits ds ->
  (rest = [] \/ exists c t, rest = c :: t /\ isDigit c = false) ->
  takeWhileB isDigit (ds ++ rest) = ds /\ dropWhileB isDigit (ds ++ rest) = rest.
Proof.
  intros Hds Hrest. induction Hds as [|c t Hc Ht [IH1 IH2]]; cbn [app].
  - destruct Hrest as [->|(c & t & -> & Hc)]; [done|]. cbn. by rewrite Hc.
  - cbn. by rewrite Hc, IH1, IH2.
Qed.

Lemma decimalToNumber_finite (m : jstring) :
  NumericText m -> isFinite (decimalToNumber m) = true.
Proof.
  intros (sign & ds & frac & -> & Hs & Hds & Hne & Hf).
  assert (Hrest : frac = [] \/ exists c t, frac = c :: t /\ isDigit c = false).
  { destruct Hf as [->|(fs & -> & _)]; [by left|right]. by exists 0x2E, fs. }
  destruct (takeWhileB_digits_app ds frac Hds Hrest) as [Ht Hd].
  assert (Hbody : let ip := takeWhileB isDigit (ds ++ frac) in
            forall neg : bool,
            isFinite
              (let signed (q : Q) := if neg then Qred (- q) else Qred q in
               match ip, dropWhileB isDigit (ds ++ frac) with
               | _ :: _, [] => Fin (signed (inject_Z (digitsToZ ip)))
               | _ :: _, c :: fp =>
                 if (c =? 0x2E) && negb (length fp =? 0)%nat && forallb isDigit fp then
                   Fin (signed (inject_Z (digitsToZ ip)
                                + inject_Z (digitsToZ fp)
                                  / inject_Z (10 ^ Z.of_nat (length fp)))%Q)
                 else NaN
               | _, _ => NaN
               end) = true).
  { cbn zeta. intros neg. rewrite Ht, Hd.
    destruct ds as [|d ds']; [done|].
    destruct Hf as [->|(fs & -> & Hfs & Hfne)]; [done|].
    rewrite N.eqb_refl. destruct fs as [|f fs']; [done|].
    assert (forallb isDigit (f :: fs') = true) as ->; [|done].
    apply forallb_forall. intros c Hc. apply list_elem_of_In in Hc.
    by eapply (Forall_forall (fun c => isDigit c = true)) in Hc. }
  unfold decimalToNumber.
  destruct Hs as [->| ->]; cbn [app].
  - destruct ds as [|d ds']; [done|]. cbn [app].
    assert (Hd' : (d =? 45) = false).
    { apply Forall_cons in Hds as [Hd' _]. apply N.eqb_neq. intros ->. done. }
    rewrite Hd'. apply (Hbody false).
  - rewrite N.eqb_refl. apply (Hbody true).
Qed.

Lemma take_consumed (m rest : jstring) :
  take (length (m ++ rest) - length rest) (m ++ rest) = m.
Proof.
  rewrite length_app.
  replace (length m + length rest - length rest)%nat with (length m) by lia.
  by rewrite take_app_length.
Qed.

Lemma stripSeparators_digits (t : jstring) :
  Forall (fun c => isDigit c = false) t ->
  Forall (fun c => isDigit c = false) (stripSeparators t).
Proof.
  unfold stripSeparators. induction 1 as [|c t Hc Ht IH]; cbn [List.filter];
    [constructor|].
  destruct (negb _); [by constructor|done].
Qed.

(** X13.  A text cell never reads as NaN: a missing cell reads as 0, a
    text reads as a number whatever it holds, a text of at most 308
    characters (whose digits cannot exceed the range of the numbers of
    the engine) reads as a finite number, and a text without any digit
    reads as 0. *)
Theorem text_cell_never_reads_as_NaN (t : jstring) :
  toNum VNull = num 0
  /\ toNum (VStr t) <> NaN
  /\ ((length t <= 308)%nat -> isFinite (toNum (VStr t)) = true)
  /\ (Forall (fun c => isDigit c = false) t -> toNum (VStr t) = num 0).
Proof.
  split; [done|]. unfold toNum, exec. change (ignoreCase NUMERIC_RE) with false.
  destruct (search false (body NUMERIC_RE) [] (stripSeparators t)) as [[x y]|] eqn:E.
  - apply search_Some in E as (u & w & Hs & -> & Hy & _).
    apply head_elem_of, numeric_sound in Hy as (m & Hm & Ha).
    cbn [after m0] in *. subst w. rewrite take_consumed.
    pose proof (decimalToNumber_finite m Hm) as Hfin.
    split; [by destruct (decimalToNumber m)|]. split; [done|].
    intros Hnd. exfalso. apply stripSeparators_digits in Hnd. rewrite Hs in Hnd.
    destruct Hm as (sign & ds & frac & -> & _ & Hds & Hne & _).
    destruct ds as [|d ds']; [done|].
    apply Forall_cons in Hds as [Hd _].
    rewrite !Forall_app in Hnd. destruct Hnd as (_ & (_ & (Hd' & _)%Forall_cons & _) & _).
    congruence.
  - done.
Qed.

Example yen_text_reads_as_number :
  toNum (VStr (utf16 " ¥1,234 ")) = num 1234 /\ toNum (VStr (utf16 "n/a")) = num 0.
Proof. split; vm_compute; reflexivity. Qed.

(** ** The text normaliser *)

Lemma isSpace_cases (c : N) :
  isSpace c = true ->
  c = 0x09 \/ c = 0x0B \/ c = 0x0C \/ c = 0x20 \/ c = 0xA0 \/ c = 0x1680
  \/ (0x2000 <= c <= 0x200A) \/ c = 0x202F \/ c = 0x205F \/ c = 0x3000
  \/ c = 0xFEFF \/ c = 0x0A \/ c = 0x0D \/ c = 0x2028 \/ c = 0x2029.
Proof.
  unfold isSpace, isLineTerminator.
  rewrite !orb_true_iff, !andb_true_iff, !N.eqb_eq, !N.leb_le. tauto.
Qed.

Lemma isSpace_not_letter (c : N) : 0x41 <= c <= 0x7A -> isSpace c = false.
Proof.
  intros Hc. destruct (isSpace c) eqn:E; [|done].
  apply isSpace_cases in E. lia.
Qed.

Lemma lowerUnit_cases (c : N) :
  (0x41 <= c <= 0x5A /\ lowerUnit c = c + 32)
  \/ (c = 0x212A /\ lowerUnit c = 0x6B)
  \/ (~ 0x41 <= c <= 0x5A /\ c <> 0x212A /\ lowerUnit c = c).
Proof.
  unfold lowerUnit, isUpperAscii.
  destruct (N.leb_spec 0x41 c), (N.leb_spec c 0x5A); cbn [andb];
    try (destruct (N.eqb_spec c 0x212A); [right; left; done|right; right; lia]).
  left. lia.
Qed.

Lemma isSpace_lowerUnit (c : N) : isSpace (lowerUnit c) = isSpace c.
Proof.
  destruct (lowerUnit_cases c) as [[Hc ->]|[[-> ->]|(_ & _ & ->)]]; [|done|done].
  rewrite !isSpace_not_letter; [done|lia|lia].
Qed.

Lemma isSpace_unNbsp (c : N) : isSpace (unNbsp c) = isSpace c.
Proof. unfold unNbsp. by destruct (N.eqb_spec c 0xA0) as [->|]. Qed.

Lemma lowerUnit_idem (c : N) : lowerUnit (lowerUnit c) = lowerUnit c.
Proof.
  destruct (lowerUnit_cases c) as [[Hc ->]|[[-> ->]|(H1 & H2 & ->)]]; [|done|].
  - destruct (lowerUnit_cases (c + 32)) as [[Hc' _]|[[Hc' _]|(_ & _ & ->)]]; [lia|lia|done].
  - destruct (lowerUnit_cases c) as [[Hc' _]|[[Hc' _]|(_ & _ & ->)]]; [lia|done|done].
Qed.

Lemma unNbsp_lowerUnit (c : N) : unNbsp (lowerUnit c) = lowerUnit (unNbsp c).
Proof.
  unfold unNbsp. destruct (N.eqb_spec c 0xA0) as [->|Hc]; [done|].
  destruct (lowerUnit_cases c) as [[Hu ->]|[[-> ->]|(_ & _ & ->)]]; [|done|].
  - destruct (N.eqb_spec (c + 32) 0xA0); [lia|done].
  - by destruct (N.eqb_spec c 0xA0).
Qed.

Lemma unNbsp_idem (c : N) : unNbsp (unNbsp c) = unNbsp c.
Proof. unfold unNbsp. by destruct (N.eqb_spec c 0xA0) as [->|]; [|rewrite (proj2 (N.eqb_neq c 0xA0))]. Qed.

Lemma dropWhileB_map (f : N -> N) (s : jstring) :
  (forall c, isSpace (f c) = isSpace c) ->
  dropWhileB isSpace (List.map f s) = List.map f (dropWhileB isSpace s).
Proof.
  intros Hf. induction s as [|c t IH]; [done|]. cbn. rewrite Hf.
  by destruct (isSpace c).
Qed.

Lemma trim_map (f : N -> N) (s : jstring) :
  (forall c, isSpace (f c) = isSpace c) ->
  trim (List.map f s) = List.map f (trim s).
Proof.
  intros Hf. unfold trim.
  rewrite dropWhileB_map, <- map_rev, dropWhileB_map, map_rev by done. done.
Qed.

(** What [dropWhileB] leaves does not start with what it drops. *)
Lemma dropWhileB_split (p : N -> bool) (s : jstring) :
  exists sp, s = sp ++ dropWhileB p s /\ Forall (fun c => p c = true) sp
             /\ dropWhileB p (dropWhileB p s) = dropWhileB p s.
Proof.
  induction s as [|c t (sp & Hs & Hsp & Hi)]; [by exists []|]. cbn.
  destruct (p c) eqn:E.
  - exists (c :: sp). split; [cbn [app]; by f_equal|]. split; [by constructor|done].
  - exists []. split; [done|]. split; [constructor|]. cbn. by rewrite E.
Qed.

Lemma dropWhileB_app_keep (p : N -> bool) (a b : jstring) :
  dropWhileB p a = a -> a <> [] -> dropWhileB p (a ++ b) = a ++ b.
Proof.
  destruct a as [|c t]; [done|]. cbn. destruct (p c); [|done].
  intros H _. exfalso.
  destruct (dropWhileB_split p t) as (sp & Hs & _ & _).
  apply (f_equal length) in H, Hs. rewrite length_app in Hs. cbn [length] in H. lia.
Qed.

Lemma dropWhileB_all (p : N -> bool) (sp rest : jstring) :
  Forall (fun c => p c = true) sp -> dropWhileB p (sp ++ rest) = dropWhileB p rest.
Proof. induction 1 as [|c t Hc Ht IH]; [done|]. cbn. by rewrite Hc. Qed.

Lemma trim_idem (s : jstring) : trim (trim s) = trim s.
Proof.
  unfold trim.
  set (a := dropWhileB isSpace s).
  destruct (dropWhileB_split isSpace s) as (_ & _ & _ & Ha). fold a in Ha.
  destruct (dropWhileB_split isSpace (rev a)) as (sp & Hs & Hsp & Hb).
  set (b := dropWhileB isSpace (rev a)) in *.
  assert (Hrb : dropWhileB isSpace (rev b) = rev b).
  { destruct b as [|c t] eqn:Eb; [done|].
    assert (Hra : a = rev (c :: t) ++ rev sp).
    { rewrite <- (rev_involutive a), Hs, rev_app_distr. done. }
    destruct (rev (c :: t)) as [|d r] eqn:Er.
    { apply (f_equal length) in Er. rewrite length_rev in Er. done. }
    rewrite Hra in Ha. cbn in Ha |- *.
    destruct (isSpace d); [|done]. exfalso.
    destruct (dropWhileB_split isSpace (r ++ rev sp)) as (sp' & Hs' & _ & _).
    apply (f_equal length) in Ha, Hs'. rewrite length_app in Hs'.
    cbn [length] in Ha. rewrite !length_app in *. lia. }
  by rewrite Hrb, rev_involutive, Hb.
Qed.

Lemma dropWhileB_all_nil (p : N -> bool) (sp : jstring) :
  Forall (fun c => p c = true) sp -> dropWhileB p sp = [].
Proof. induction 1 as [|c t Hc Ht IH]; [done|]. cbn. by rewrite Hc. Qed.

Lemma trim_padding (sp1 sp2 s : jstring) :
  Forall (fun c => isSpace c = true) sp1 ->
  Forall (fun c => isSpace c = true) sp2 ->
  trim (sp1 ++ s ++ sp2) = trim s.
Proof.
  intros H1 H2. unfold trim. rewrite dropWhileB_all by done.
  destruct (dropWhileB_split isSpace s) as (sp & Hs & Hsp & Hi).
  assert (Hd : dropWhileB isSpace (s ++ sp2)
               = match dropWhileB isSpace s with
                 | [] => []
                 | _ => dropWhileB isSpace s ++ sp2
                 end).
  { rewrite Hs at 1. rewrite <- app_assoc, dropWhileB_all by done.
    destruct (dropWhileB isSpace s) as [|c t] eqn:Ea.
    - cbn [app]. by apply dropWhileB_all_nil.
    - by apply dropWhileB_app_keep. }
  rewrite Hd. destruct (dropWhileB isSpace s) as [|c t]; [done|].
  rewrite rev_app_distr, dropWhileB_all by (by apply Forall_rev). done.
Qed.

Lemma norm_unfold (s : jstring) :
  norm s = List.map lowerUnit (trim (List.map unNbsp s)).
Proof. reflexivity. Qed.

(** X14.  Normalising twice is normalising once, so a normalised header can
    be compared or normalised again without changing. *)
Theorem norm_is_idempotent (s : jstring) : norm (norm s) = norm s.
Proof.
  rewrite !norm_unfold.
  rewrite <- (trim_map lowerUnit (List.map unNbsp s)) by apply isSpace_lowerUnit.
  rewrite <- (trim_map unNbsp (List.map lowerUnit (List.map unNbsp s)))
    by apply isSpace_unNbsp.
  rewrite trim_idem.
  rewrite <- (trim_map lowerUnit) by apply isSpace_lowerUnit.
  f_equal. rewrite !map_map. apply map_ext. intros c.
  by rewrite unNbsp_lowerUnit, unNbsp_idem, lowerUnit_idem.
Qed.

(** X15.  Headers that differ only in the case of their ASCII letters, in
    white space around them or in no-break spaces for spaces have the
    same normal form. *)
Theorem norm_ignores_case_and_padding (sp1 sp2 a b : jstring) :
  Forall (fun c => isSpace c = true) sp1 ->
  Forall (fun c => isSpace c = true) sp2 ->
  toLowerCase (List.map unNbsp a) = toLowerCase (List.map unNbsp b) ->
  norm (sp1 ++ a ++ sp2) = norm b.
Proof.
  intros H1 H2 Hab. rewrite !norm_unfold.
  rewrite !map_app, trim_padding.
  - rewrite <- !(trim_map lowerUnit) by apply isSpace_lowerUnit.
    unfold toLowerCase in Hab. by rewrite Hab.
  - clear -H1. induction H1 as [|c t Hc Ht IH]; cbn [List.map]; constructor; [|done].
    by rewrite isSpace_unNbsp.
  - clear -H2. induction H2 as [|c t Hc Ht IH]; cbn [List.map]; constructor; [|done].
    by rewrite isSpace_unNbsp.
Qed.

Lemma norm_ignores_case_and_padding_witness :
  norm (utf16 "  " ++ utf16 "TABLE CHECK" ++ utf16 " ") = norm (utf16 "Table check").
Proof.
  apply (norm_ignores_case_and_padding (utf16 "  ") (utf16 " ")
           (utf16 "TABLE CHECK") (utf16 "Table check"));
    [repeat constructor..|reflexivity].
Defined.

(** ** Keyword patterns *)

Lemma elem_of_run_Cls (ic : bool) (k : cclass) (x y : cfg) :
  y ∈ run ic (Cls k) x <->
  exists c, inClass k c = true /\ after x = c :: after y
            /\ before y = c :: before x /\ caps y = caps x.
Proof.
  cbn [run]. unfold step.
  destruct x as [pre [|c suf] g]; cbn [after before caps].
  - split; [by intros ?%elem_of_nil|]. by intros (c & _ & ? & _).
  - destruct (inClass k c) eqn:E.
    + rewrite list_elem_of_singleton. split.
      * intros ->. by exists c.
      * intros (c' & _ & Ha & Hb & Hg). destruct y as [pb pa pg].
        cbn in *. congruence.
    + split; [by intros ?%elem_of_nil|].
      intros (c' & Hc' & Ha & _). congruence.
Qed.

Lemma iterate_class_inv (ic : bool) (k : cclass) (fuel : nat) (x y : cfg) :
  y ∈ iterate (run ic (Cls k)) fuel x ->
  exists m, Forall (fun c => inClass k c = true) m /\ after x = m ++ after y
            /\ before y = rev m ++ before x /\ caps y = caps x.
Proof.
  revert x. induction fuel as [|n IH]; intros x; cbn [iterate].
  - intros ->%list_elem_of_singleton. exists []. repeat split. constructor.
  - rewrite elem_of_app, list_elem_of_singleton. intros [H| ->].
    + rewrite list_elem_of_In, in_flat_map in H. destruct H as (z & Hz & Hy).
      apply filter_In in Hz as [Hz _].
      rewrite <- list_elem_of_In in Hz, Hy.
      apply elem_of_run_Cls in Hz as (c & Hc & Ha & Hb & Hg).
      apply IH in Hy as (m & Hm & Ha' & Hb' & Hg').
      exists (c :: m). cbn [rev]. rewrite <- app_assoc.
      repeat split; [by constructor|by rewrite Ha, Ha'|by rewrite Hb', Hb|congruence].
    + exists []. repeat split. constructor.
Qed.

Lemma iterate_class_complete (ic : bool) (k : cclass) (m : jstring) :
  Forall (fun c => inClass k c = true) m ->
  forall (fuel : nat) (pre suf : jstring) (g : list (nat * jstring)),
    (length m <= fuel)%nat ->
    Cfg (rev m ++ pre) suf g ∈ iterate (run ic (Cls k)) fuel (Cfg pre (m ++ suf) g).
Proof.
  induction 1 as [|c t Hc Ht IH]; intros fuel pre suf g Hf.
  - apply iterate_refl.
  - destruct fuel as [|n]; [cbn in Hf; lia|].
    cbn [iterate]. apply elem_of_app. left.
    rewrite list_elem_of_In, in_flat_map.
    exists (Cfg (c :: pre) (t ++ suf) g). split.
    + apply filter_In. split.
      * rewrite <- list_elem_of_In. apply elem_of_run_Cls. by exists c.
      * apply Nat.ltb_lt. cbn [after app length]. lia.
    + rewrite <- list_elem_of_In. cbn [rev]. rewrite <- app_assoc.
      apply IH. cbn in Hf. lia.
Qed.

Lemma foldCase_caseless (w m : jstring) :
  caseless w -> foldCase true m = foldCase true w -> m = w.
Proof.
  intros Hw. revert m. induction Hw as [|c t [Hu Hl] Ht IH]; intros [|d m] Hm; try done.
  cbn in Hm. injection Hm as Hd Hm.
  f_equal; [by apply canon_caseless | by apply IH].
Qed.

(** A pattern [a.*b] of two words without ASCII letters is found
    exactly in the texts that have [a] and later, on the same line,
    [b]. *)
Lemma Found_then (a b : string) (s : jstring) :
  caseless (utf16 a) -> caseless (utf16 b) ->
  Found true (str a <.> anything <.> str b) s <-> thenOnLine a b s.
Proof.
  intros Ca Cb. unfold Found, MatchAt, thenOnLine, str, anything. split.
  - intros (u & w & -> & H).
    destruct (run true _ (Cfg (rev u) w [])) as [|y l] eqn:E; [done|].
    assert (Hy : y ∈ run true (lit (utf16 a) <.> Star (Cls CDot) <.> lit (utf16 b))
                       (Cfg (rev u) w [])) by (rewrite E; left).
    apply elem_of_run_Seq in Hy as (z1 & H1 & (z2 & H2 & H3)%elem_of_run_Seq).
    apply run_lit_inv in H1 as (ma & A1 & F1 & _).
    change (z2 ∈ iterate (run true (Cls CDot)) (length (after z1)) z1) in H2.
    apply iterate_class_inv in H2 as (m & Hm & A2 & _).
    apply run_lit_inv in H3 as (mb & A3 & F3 & _).
    apply (foldCase_caseless _ _ Ca) in F1. apply (foldCase_caseless _ _ Cb) in F3.
    subst ma mb. cbn [after] in A1. exists u, m, (after y). split.
    + by rewrite A1, A2, A3.
    + eapply Forall_impl; [exact Hm|]. intros c Hc. cbn in Hc.
      by apply negb_true_iff in Hc.
  - intros (u & m & v & -> & Hm). exists u, (utf16 a ++ m ++ utf16 b ++ v).
    split; [done|].
    apply (not_nil_of_elem
             (Cfg (rev (utf16 b) ++ rev m ++ rev (utf16 a) ++ rev u) v [])).
    apply elem_of_run_Seq. exists (Cfg (rev (utf16 a) ++ rev u) (m ++ utf16 b ++ v) []).
    split; [rewrite run_lit_match by done; by apply list_elem_of_singleton|].
    apply elem_of_run_Seq. exists (Cfg (rev m ++ rev (utf16 a) ++ rev u) (utf16 b ++ v) []).
    split.
    + change (Cfg (rev m ++ rev (utf16 a) ++ rev u) (utf16 b ++ v) []
              ∈ iterate (run true (Cls CDot)) (length (m ++ utf16 b ++ v))
                  (Cfg (rev (utf16 a) ++ rev u) (m ++ utf16 b ++ v) [])).
      apply iterate_class_complete.
      * eapply Forall_impl; [exact Hm|]. intros c Hc. cbn. by rewrite Hc.
      * rewrite length_app. lia.
    + rewrite run_lit_match by done. by apply list_elem_of_singleton.
Qed.

(** X16.  What the keyword tests of the product loop mean.  A product is on
    the exclusion list exactly when its name has 月花 and later on the
    same line コース, and is then dropped whatever its other columns
    say; it is the first side dish exactly when its name has よくばり
    and later on the same line カレー; and it is like a ramen exactly
    when its name has ラーメン, らーめん or 麺 or spells ramen in any
    case. *)
Theorem keyword_tests_mean_containment (name : jstring) :
  (existsb (fun rx => test rx name) EXCLUDED_PRODUCT_REGEXPS = true
   <-> thenOnLine "月花" "コース" name)
  /\ (isYokubariCurry name = true <-> thenOnLine "よくばり" "カレー" name)
  /\ (isRamenish name = true
      <-> hasText "ラーメン" name \/ hasText "らーめん" name
          \/ hasText "麺" name \/ mentions "ramen" name)
  /\ (forall acc count category,
         thenOnLine "月花" "コース" name ->
         classifyNamed name count category acc = acc).
Proof.
  assert (Hex : existsb (fun rx => test rx name) EXCLUDED_PRODUCT_REGEXPS = true
                <-> thenOnLine "月花" "コース" name).
  { cbn [existsb EXCLUDED_PRODUCT_REGEXPS]. rewrite orb_false_r, test_Found.
    apply Found_then; caseless_word. }
  split; [exact Hex|]. split; [|split].
  - unfold isYokubariCurry, YOKUBARI_RE. rewrite test_Found.
    apply Found_then; caseless_word.
  - unfold isRamenish, RAMENISH_RE. rewrite !test_Alt, !orb_true_iff.
    rewrite (test_str_caseless "ラーメン") by caseless_word.
    rewrite (test_str_caseless "らーめん") by caseless_word.
    rewrite (test_str_caseless "麺") by caseless_word.
    by rewrite !hasText_test, mentions_test.
  - intros acc count category H. apply Hex in H. unfold classifyNamed. by rewrite H.
Qed.

Example excluded_course_bundle :
  classifyProducts [productRow "月花コース（2名様）" 1] = emptyProductAcc.
Proof. vm_compute. reflexivity. Qed.

(** ** The renderer *)

Lemma nonBlank_app_l (a b : jstring) : nonBlank a -> nonBlank (a ++ b).
Proof. unfold nonBlank. by destruct a. Qed.

Lemma nonBlank_app_r (a b : jstring) : nonBlank b -> nonBlank (a ++ b).
Proof. unfold nonBlank. destruct a, b; done. Qed.

Ltac nonblank_text :=
  let H := fresh in intros H; vm_compute in H; discriminate H.

Ltac nonblank :=
  first
    [ solve [unfold nonBlank; discriminate]
    | solve [apply nonBlank_app_l; nonblank_text]
    | apply nonBlank_app_r; nonblank
    | nonblank_text ].

Lemma jpDateLabel_nonBlank (h : Host) (iso : jstring) : nonBlank (jpDateLabel h iso).
Proof. unfold jpDateLabel. nonblank. Qed.

Lemma Forall_omap {A} (f : A -> option jstring) (l : list A) :
  (forall x y, f x = Some y -> nonBlank y) -> Forall nonBlank (omap f l).
Proof.
  intros Hf. induction l as [|x l IH]; cbn [omap list_omap]; [constructor|].
  destruct (f x) as [y|] eqn:E; [constructor; eauto|done].
Qed.

Lemma paymentLines_nonBlank (m : MetaState) : Forall nonBlank (paymentLines m).
Proof.
  unfold paymentLines. apply Forall_app. split; apply Forall_omap.
  - intros key y. destruct (jsgt _ _); [|done]. intros [= <-]. nonblank.
  - intros o y. destruct (jsgt _ _); [|done]. intros [= <-]. nonblank.
Qed.

Lemma groupPeopleLines_nonBlank (m : MetaState) : Forall nonBlank (groupPeopleLines m).
Proof.
  unfold groupPeopleLines. apply Forall_app.
  split; destruct (jsgt _ _); repeat constructor; nonblank.
Qed.

Lemma ramenLine_nonBlank (rt rs rc : Totals) (key : RamenKey) (y : jstring) :
  ramenLine rt rs rc key = Some y -> nonBlank y.
Proof.
  unfold ramenLine. destruct (jsle _ _); [done|]. intros [= <-]. nonblank.
Qed.

Lemma sideLines_nonBlank (m : MetaState) : Forall nonBlank (sideLines m).
Proof.
  unfold sideLines. apply Forall_app.
  split; destruct (jsgt _ _); repeat constructor; nonblank.
Qed.

Lemma courseLine_nonBlank (e : CoursePeopleEntry) (y : jstring) :
  courseLine e = Some y -> nonBlank y.
Proof.
  unfold courseLine. destruct (_ || _); [done|]. intros [= <-]. nonblank.
Qed.

Lemma courseLine_positive (e : CoursePeopleEntry) :
  jsgt (cp_count e) (num 0) = true -> is_Some (courseLine e).
Proof.
  intros H. unfold courseLine. rewrite (jsgt_zero_truthy _ H). cbn [negb orb].
  assert (jsle (cp_count e) (num 0) = false) as ->; [|eauto].
  revert H. unfold jsgt, jslt, jsle, num. destruct (cp_count e); try done.
  rewrite Qltb_true. intros H. destruct (Qle_bool q (inject_Z 0)) eqn:E; [|done].
  apply Qle_bool_iff in E. lra.
Qed.

Lemma last_nonBlank (sec : list jstring) :
  sec <> [] -> Forall nonBlank sec -> exists l, last sec = Some l /\ nonBlank l.
Proof.
  intros Hne Hall. destruct (last sec) as [l|] eqn:E.
  - exists l. split; [done|].
    rewrite Forall_forall in Hall. apply Hall. by apply last_Some_elem_of.
  - apply last_None in E. congruence.
Qed.

Lemma pushBlank_nonBlank_last (ls : list jstring) (l : jstring) :
  last ls = Some l -> nonBlank l -> pushBlank ls = ls ++ [[]].
Proof. unfold pushBlank. intros -> Hl. by destruct l. Qed.

(** Adding a section to well-spaced lines keeps them well spaced, with
    exactly one blank line before the section. *)
Lemma addSection_WellSpaced (ls sec : list jstring) :
  ls <> [] -> WellSpaced ls -> Forall nonBlank sec ->
  addSection ls sec <> [] /\ WellSpaced (addSection ls sec)
  /\ head (addSection ls sec) = head ls
  /\ (sec <> [] -> addSection ls sec = ls ++ [] :: sec).
Proof.
  intros Hne Hws Hsec. unfold addSection.
  destruct sec as [|s0 sec']; [split; [done|]; split; [done|]; by split|].
  destruct Hws as (Hh & Hl & Hd).
  destruct (last ls) as [l|] eqn:El; [|apply last_None in El; congruence].
  assert (Hnb : nonBlank l) by (intros ->; done).
  rewrite (pushBlank_nonBlank_last ls l El Hnb), <- app_assoc. cbn [app].
  split; [by destruct ls|]. split; [|split; [by destruct ls|done]].
  destruct (last_nonBlank (s0 :: sec') ltac:(done) Hsec) as (l' & El' & Hl').
  split; [by destruct ls|]. split.
  - rewrite last_app. cbn [last]. change (last ([] :: s0 :: sec')) with (last (s0 :: sec')).
    rewrite El'. intros [= ->]. done.
  - intros i Hi Hi'.
    destruct (decide (S i < length ls)%nat) as [Hlt|Hge].
    + rewrite lookup_app_l in Hi, Hi' by lia. exact (Hd i Hi Hi').
    + destruct (decide (i < length ls)%nat) as [Hlt'|Hge'].
      * rewrite lookup_app_l in Hi by lia.
        assert (i = pred (length ls)) as -> by lia.
        rewrite <- last_lookup, El in Hi. injection Hi as ->. done.
      * rewrite lookup_app_r in Hi' by lia.
        destruct (S i - length ls)%nat as [|j] eqn:Ej; [lia|].
        cbn in Hi'. apply list_elem_of_lookup_2 in Hi'.
        rewrite Forall_forall in Hsec. by apply Hsec in Hi'.
Qed.

Lemma foldl_addSection (secs : list (list jstring)) (ls : list jstring) :
  ls <> [] -> WellSpaced ls -> Forall (Forall nonBlank) secs ->
  WellSpaced (foldl addSection ls secs)
  /\ foldl addSection ls secs
     = ls ++ (filter (fun sec => sec <> []) secs ≫= fun sec => [] :: sec).
Proof.
  revert ls. induction secs as [|sec secs IH]; intros ls Hne Hws Hall; cbn [foldl].
  - split; [done|]. by rewrite app_nil_r.
  - apply Forall_cons in Hall as [Hsec Hall].
    destruct (addSection_WellSpaced ls sec Hne Hws Hsec) as (Hne' & Hws' & _ & Heq).
    destruct (IH _ Hne' Hws' Hall) as [Hw Hf]. split; [exact Hw|].
    rewrite Hf, filter_cons. destruct (decide (sec <> [])) as [Hs|Hs].
    + rewrite (Heq Hs), bind_cons, <- !app_assoc. reflexivity.
    + assert (sec = []) as -> by (by destruct sec; [|destruct Hs]). reflexivity.
Qed.

Lemma omap_courseLine_printable (cp : list CoursePeopleEntry) :
  Exists (fun e => jsgt (cp_count e) (num 0) = true) cp ->
  omap courseLine cp <> [].
Proof.
  induction 1 as [e l He|e l Hl IH]; cbn [omap list_omap].
  - destruct (courseLine_positive e He) as [y ->]. done.
  - by destruct (courseLine e).
Qed.

Lemma renderLines_sections (h : Host) (m : MetaState) (rt rs rc : Totals)
  (cp : list CoursePeopleEntry) (n : number) :
  CoursesPrintable cp ->
  renderLines h m rt rs rc cp n
  = foldl addSection [jpDateLabel h (dateISO m)] (reportSections m rt rs rc cp n).
Proof.
  intros Hcp. unfold renderLines, reportSections. cbv zeta. cbn [foldl].
  unfold addSection.
  destruct (paymentLines m), (groupPeopleLines m), (sideLines m),
    (jsgt (ramenTotalCount rt rs rc) (num 0)), (jsgt n (num 0));
    (destruct Hcp as [->|Hex]; [cbn [omap list_omap app]; reflexivity|]);
    pose proof (omap_courseLine_printable cp Hex) as Hne;
    (destruct cp as [|c cp']; [by inversion Hex|]);
    (destruct (omap courseLine (c :: cp')) eqn:E; [by destruct Hne|reflexivity]).
Qed.

Lemma reportSections_nonBlank (m : MetaState) (rt rs rc : Totals)
  (cp : list CoursePeopleEntry) (n : number) :
  Forall (Forall nonBlank) (reportSections m rt rs rc cp n).
Proof.
  unfold reportSections. repeat apply Forall_cons_2; try apply Forall_nil_2.
  - apply paymentLines_nonBlank.
  - apply groupPeopleLines_nonBlank.
  - destruct (jsgt _ _); [|constructor].
    apply Forall_cons_2; [nonblank|]. apply Forall_omap, ramenLine_nonBlank.
  - apply sideLines_nonBlank.
  - apply Forall_omap, courseLine_nonBlank.
  - destruct (jsgt _ _); repeat constructor. nonblank.
Qed.

(** *** The lines of the text *)

Lemma oneLine_OneLine (s : jstring) : oneLine s = true <-> OneLine s.
Proof.
  unfold oneLine, OneLine. induction s as [|c s IH]; cbn [forallb].
  - split; [constructor|done].
  - rewrite andb_true_iff, negb_true_iff, N.eqb_neq, IH, Forall_cons. done.
Qed.

Ltac one_line :=
  apply oneLine_OneLine; vm_compute; reflexivity.

Lemma OneLine_app (a b : jstring) : OneLine a -> OneLine b -> OneLine (a ++ b).
Proof. intros Ha Hb. apply Forall_app. by split. Qed.

Lemma OneLine_above (s : jstring) : Forall (fun c => 0x30 <= c) s -> OneLine s.
Proof.
  intros H. eapply Forall_impl; [exact H|]. intros c Hc ->. cbv beta in Hc. lia.
Qed.

Lemma digitsAux_above (fuel : nat) (n : N) (acc : jstring) :
  Forall (fun c => 0x30 <= c) acc -> Forall (fun c => 0x30 <= c) (digitsAux fuel n acc).
Proof.
  revert n acc. induction fuel as [|f IH]; intros n acc Hacc; cbn [digitsAux]; [done|].
  assert (Forall (fun c => 0x30 <= c) ((0x30 + n mod 10) :: acc))
    by (apply Forall_cons_2; [apply N.le_add_r|done]).
  destruct (n / 10 =? 0); [done|by apply IH].
Qed.

Lemma fracDigits_above (fuel : nat) (n d : N) :
  Forall (fun c => 0x30 <= c) (fracDigits fuel n d).
Proof.
  revert n. induction fuel as [|f IH]; intros n; cbn [fracDigits]; [constructor|].
  destruct (n =? 0); [constructor|]. apply Forall_cons_2; [apply N.le_add_r|apply IH].
Qed.

Lemma decimalDigits_OneLine (n : N) : OneLine (decimalDigits n).
Proof. apply OneLine_above, digitsAux_above. constructor. Qed.

Lemma numberToString_OneLine (a : number) : OneLine (numberToString a).
Proof.
  destruct a as [| | |q]; try one_line.
  unfold numberToString. destruct (Qabs_parts q) as [[ip r] d].
  apply OneLine_app; [destruct (Qltb q 0); [one_line|constructor]|].
  apply OneLine_app; [apply decimalDigits_OneLine|].
  pose proof (fracDigits_above 20 r d) as Hf.
  destruct (fracDigits 20 r d); [constructor|].
  apply OneLine_app; [one_line|by apply OneLine_above].
Qed.

Lemma group3_OneLine (n : nat) (ds : jstring) :
  (length ds <= n)%nat -> OneLine ds -> OneLine (group3 ds).
Proof.
  revert ds. induction n as [|n IH]; intros ds Hlen Hds.
  - by destruct ds; [|cbn in Hlen; lia].
  - destruct ds as [|a [|b [|c [|d t]]]]; try done.
    apply Forall_cons in Hds as [Da Hds]. apply Forall_cons in Hds as [Db Hds].
    apply Forall_cons in Hds as [Dc Hds].
    change (group3 (a :: b :: c :: d :: t))
      with (a :: b :: c :: 0x2C :: group3 (d :: t)).
    repeat (apply Forall_cons_2; [done|]).
    apply IH; [cbn [length] in *; lia|done].
Qed.

Lemma dropWhileB_OneLine (p : N -> bool) (s : jstring) :
  OneLine s -> OneLine (dropWhileB p s).
Proof.
  induction 1 as [|c t Hc Ht IH]; cbn [dropWhileB]; [constructor|].
  destruct (p c); [done|by constructor].
Qed.

Lemma toLocaleString_OneLine (a : number) : OneLine (toLocaleString a).
Proof.
  destruct a as [| | |q]; try one_line.
  unfold toLocaleString.
  apply OneLine_app; [destruct (Qltb q 0); [one_line|constructor]|].
  apply OneLine_app.
  - apply Forall_rev, (group3_OneLine _ _ (le_n _)), Forall_rev, decimalDigits_OneLine.
  - set (r := Z.to_N _).
    assert (Hfp : OneLine (stripTrailingZeros
                   [0x30 + r mod 1000 / 100; 0x30 + r mod 1000 / 10 mod 10;
                    0x30 + r mod 1000 mod 10])).
    { unfold stripTrailingZeros. apply Forall_rev, dropWhileB_OneLine, Forall_rev.
      apply OneLine_above. repeat (apply Forall_cons_2; [apply N.le_add_r|]).
      constructor. }
    destruct (stripTrailingZeros _); [constructor|].
    apply OneLine_app; [one_line|done].
Qed.

Lemma jpCurrency_OneLine (a : number) : OneLine (jpCurrency a).
Proof. apply OneLine_app; [one_line|apply toLocaleString_OneLine]. Qed.

Ltac one_line_text :=
  repeat first
    [ apply numberToString_OneLine
    | apply jpCurrency_OneLine
    | assumption
    | match goal with
      | |- OneLine (utf16 _) => one_line
      | |- OneLine (PAYMENT_LABELS _) => one_line
      | |- OneLine (RAMEN_LABELS _) => one_line
      | |- OneLine [] => apply Forall_nil_2
      | |- OneLine (_ ++ _) => apply OneLine_app
      end ].

Ltac line_list :=
  repeat match goal with
         | |- Forall OneLine [] => apply Forall_nil_2
         | |- Forall OneLine (_ :: _) => apply Forall_cons_2; [one_line_text|]
         end.

Lemma jpDateLabel_OneLine (h : Host) (iso : jstring) : OneLine (jpDateLabel h iso).
Proof.
  unfold jpDateLabel. cbn zeta.
  assert (Hw : OneLine (default (utf16 "undefined") (arrayGet WEEKDAYS (getDay h iso)))).
  { unfold arrayGet. destruct (arrayIndex (getDay h iso)) as [i|]; [|one_line].
    cbn [mbind option_bind]. unfold WEEKDAYS.
    do 7 (destruct i as [|i]; [one_line|]). one_line. }
  one_line_text.
Qed.

Lemma Forall_omap_Forall {A B} (Q : A -> Prop) (P : B -> Prop)
  (f : A -> option B) (l : list A) :
  Forall Q l -> (forall x y, Q x -> f x = Some y -> P y) -> Forall P (omap f l).
Proof.
  intros Hl Hf. induction Hl as [|x l Hx Hl IH]; cbn [omap list_omap]; [constructor|].
  destruct (f x) as [y|] eqn:E; [|done]. constructor; [by eapply Hf|done].
Qed.

Lemma Forall_omap_any {A B} (P : B -> Prop) (f : A -> option B) (l : list A) :
  (forall x y, f x = Some y -> P y) -> Forall P (omap f l).
Proof.
  intros Hf. apply (Forall_omap_Forall (fun _ => True)); [|eauto].
  by apply Forall_true.
Qed.

Lemma paymentLines_OneLine (m : MetaState) :
  Forall (fun o => OneLine (op_label o)) (otherPayments m) ->
  Forall OneLine (paymentLines m).
Proof.
  intros Hl. unfold paymentLines. apply Forall_app. split.
  - apply Forall_omap_any. intros key y. destruct (jsgt _ _); [|done].
    intros Hy%(inj Some); subst y. destruct key; one_line_text.
  - apply (Forall_omap_Forall _ _ _ _ Hl). intros o y Ho.
    destruct (jsgt _ _); [|done]. intros Hy%(inj Some); subst y. one_line_text.
Qed.

Lemma groupPeopleLines_OneLine (m : MetaState) : Forall OneLine (groupPeopleLines m).
Proof.
  unfold groupPeopleLines. apply Forall_app.
  split; destruct (jsgt _ _); line_list.
Qed.

Lemma ramenLine_OneLine (rt rs rc : Totals) (key : RamenKey) (y : jstring) :
  ramenLine rt rs rc key = Some y -> OneLine y.
Proof.
  unfold ramenLine. cbn zeta. destruct (jsle _ _); [done|].
  intros Hy%(inj Some); subst y.
  assert (Hk : OneLine (RAMEN_LABELS key)) by (destruct key; one_line).
  destruct (jsgt (at_ rs key) (num 0)), (jsgt (at_ rc key) (num 0));
    cbn [app join]; one_line_text.
Qed.

Lemma sideLines_OneLine (m : MetaState) : Forall OneLine (sideLines m).
Proof.
  unfold sideLines. apply Forall_app.
  split; destruct (jsgt _ _); line_list.
Qed.

Lemma courseLine_OneLine (e : CoursePeopleEntry) (y : jstring) :
  OneLine (cp_label e) -> courseLine e = Some y -> OneLine y.
Proof.
  intros Hl. unfold courseLine. destruct (_ || _); [done|]. intros Hy%(inj Some); subst y.
  cbn zeta. destruct (jsgt _ _); one_line_text.
Qed.

Lemma labelsOnOneLine_spec (m : MetaState) (cp : list CoursePeopleEntry) :
  labelsOnOneLine m cp = true ->
  Forall (fun o => OneLine (op_label o)) (otherPayments m)
  /\ Forall (fun e => OneLine (cp_label e)) cp.
Proof.
  unfold labelsOnOneLine. rewrite andb_true_iff, !forallb_forall, !Forall_forall.
  intros [H1 H2]. split; intros x Hx%list_elem_of_In; apply oneLine_OneLine; auto.
Qed.

Lemma reportSections_OneLine (m : MetaState) (rt rs rc : Totals)
  (cp : list CoursePeopleEntry) (n : number) :
  labelsOnOneLine m cp = true ->
  Forall (Forall OneLine) (reportSections m rt rs rc cp n).
Proof.
  intros [Ho Hc]%labelsOnOneLine_spec.
  unfold reportSections. repeat apply Forall_cons_2; try apply Forall_nil_2.
  - by apply paymentLines_OneLine.
  - apply groupPeopleLines_OneLine.
  - destruct (jsgt _ _); [|constructor].
    apply Forall_cons_2; [one_line_text|]. apply Forall_omap_any, ramenLine_OneLine.
  - apply sideLines_OneLine.
  - apply (Forall_omap_Forall _ _ _ _ Hc). intros e y. apply courseLine_OneLine.
  - destruct (jsgt _ _); line_list.
Qed.

Lemma layout_OneLine (date : jstring) (secs : list (list jstring)) :
  OneLine date -> Forall (Forall OneLine) secs -> Forall OneLine (layout date secs).
Proof.
  intros Hd Hs. unfold layout. apply Forall_cons_2; [done|].
  induction Hs as [|sec secs Hsec Hs IH]; [constructor|].
  rewrite filter_cons. destruct (decide (sec <> [])); [|done].
  rewrite bind_cons. apply Forall_app. split; [|done].
  apply Forall_cons_2; [constructor|done].
Qed.

Lemma splitLines_line (x s : jstring) :
  OneLine x -> splitLines (x ++ 0x0A :: s) = x :: splitLines s.
Proof.
  induction 1 as [|c x Hc Hx IH]; cbn [app splitLines]; [done|].
  rewrite (proj2 (N.eqb_neq c 10) Hc). by rewrite IH.
Qed.

Lemma splitLines_last (x : jstring) : OneLine x -> splitLines x = [x].
Proof.
  induction 1 as [|c x Hc Hx IH]; cbn [splitLines]; [done|].
  rewrite (proj2 (N.eqb_neq c 10) Hc). by rewrite IH.
Qed.

(** Splitting what [join] has joined gives the lines back when no line
    has a line feed of its own. *)
Lemma splitLines_join (ls : list jstring) :
  ls <> [] -> Forall OneLine ls -> splitLines (join [0x0A] ls) = ls.
Proof.
  intros Hne Hls. induction Hls as [|x t Hx Ht IH]; [done|].
  destruct t as [|y t]; [by apply splitLines_last|].
  change (join [0x0A] (x :: y :: t)) with (x ++ 0x0A :: join [0x0A] (y :: t)).
  rewrite splitLines_line by done. f_equal. by apply IH.
Qed.

(** X17.  When the course list is empty or has an entry with a positive head
    count, and no label of an other payment or of a course entry holds
    a line feed, the lines of the report text are the date line followed
    by the sections that have lines, each preceded by exactly one blank
    line: the text has no blank line at either end and no two blank
    lines in a row. *)
Theorem report_layout (h : Host) (m : MetaState) (rt rs rc : Totals)
  (cp : list CoursePeopleEntry) (n : number) :
  CoursesPrintable cp ->
  labelsOnOneLine m cp = true ->
  let text := renderOutput h m rt rs rc cp n in
  splitLines text
  = layout (jpDateLabel h (dateISO m)) (reportSections m rt rs rc cp n)
  /\ WellSpaced (splitLines text)
  /\ renderLines h m rt rs rc cp n = splitLines text.
Proof.
  intros Hcp Hlab. cbn zeta.
  assert (Hlines : renderLines h m rt rs rc cp n
                   = layout (jpDateLabel h (dateISO m)) (reportSections m rt rs rc cp n)
                   /\ WellSpaced (renderLines h m rt rs rc cp n)).
  { rewrite (renderLines_sections h m rt rs rc cp n Hcp).
    assert (Hws : WellSpaced [jpDateLabel h (dateISO m)]).
    { pose proof (jpDateLabel_nonBlank h (dateISO m)) as Hd.
      repeat split; cbn; try congruence. intros [|i]; cbn; congruence. }
    destruct (foldl_addSection (reportSections m rt rs rc cp n)
                [jpDateLabel h (dateISO m)] ltac:(done) Hws
                (reportSections_nonBlank m rt rs rc cp n)) as [Hw Heq].
    split; [exact Heq|exact Hw]. }
  destruct Hlines as [Heq Hws].
  assert (Hsplit : splitLines (renderOutput h m rt rs rc cp n)
                   = renderLines h m rt rs rc cp n).
  { unfold renderOutput.
    change (utf16 (String (Ascii.ascii_of_N 10) EmptyString)) with [0x0A].
    apply splitLines_join.
    - rewrite Heq. done.
    - rewrite Heq. apply layout_OneLine; [apply jpDateLabel_OneLine|].
      by apply reportSections_OneLine. }
  rewrite Hsplit. split; [exact Heq|]. split; [exact Hws|done].
Qed.

Lemma report_layout_witness :
  let products := [productRow "豆乳ラーメン「花」" 2; productRow "コース5500 3名" 1] in
  let stats := [[(utf16 "売上高（税込み）", VNum (num 1000)); (utf16 "組数", VNum (num 4));
                 (utf16 "チップ", VNum (num 300))]] in
  let h := sampleHost products stats in
  let st := (makeSummary h (sampleHostState products stats [])).1 in
  CoursesPrintable (coursePeopleEntries st)
  /\ labelsOnOneLine (meta st) (coursePeopleEntries st) = true
  /\ WellSpaced (splitLines (renderOutput h (meta st) (ramenTotals st) (ramenSetTotals st)
                               (ramenCourseTotals st) (coursePeopleEntries st) (num 0))).
Proof.
  cbn zeta.
  assert (H1 : CoursesPrintable
                 (coursePeopleEntries
                    (makeSummary
                       (sampleHost [productRow "豆乳ラーメン「花」" 2; productRow "コース5500 3名" 1]
                          [[(utf16 "売上高（税込み）", VNum (num 1000)); (utf16 "組数", VNum (num 4));
                            (utf16 "チップ", VNum (num 300))]])
                       (sampleHostState
                          [productRow "豆乳ラーメン「花」" 2; productRow "コース5500 3名" 1]
                          [[(utf16 "売上高（税込み）", VNum (num 1000)); (utf16 "組数", VNum (num 4));
                            (utf16 "チップ", VNum (num 300))]] [])).1)).
  { right. apply Exists_cons_hd. vm_compute. reflexivity. }
  split; [exact H1|]. split; [vm_compute; reflexivity|].
  apply (report_layout (sampleHost _ _) _ _ _ _ _ _ H1). vm_compute. reflexivity.
Defined.

(** A header that starts with a line feed is printed as it came, and
    the text then has two blank lines in a row. *)
Example label_with_line_feed_breaks_layout :
  let m := {| dateISO := utf16 "2025-09-03";
              payments := zeroPayments;
              otherPayments := [{| op_label := 0x0A :: utf16 "チップ"; op_amount := num 300 |}];
              groups := num 0; people := num 0;
              yokubariCurry := num 0; pattyCurry := num 0 |} in
  splitLines (renderOutput (sampleHost [] []) m makeEmptyTotals makeEmptyTotals
                makeEmptyTotals [] (num 0))
  = [utf16 "9月3日（水曜日）"; []; []; utf16 "チップ　¥300"].
Proof. vm_compute. reflexivity. Qed.

(** ** The report text *)

Lemma pushBlank_head (d : jstring) (r x : list jstring) :
  exists r', pushBlank (d :: r) ++ x = d :: r'.
Proof.
  unfold pushBlank. destruct (last (d :: r)) as [l|]; [destruct (nonEmpty l)|];
    cbn [app]; eauto.
Qed.

Lemma renderLines_head (h : Host) (m : MetaState) (rt rs rc : Totals)
  (cp : list CoursePeopleEntry) (n : number) :
  exists rest, renderLines h m rt rs rc cp n = jpDateLabel h (dateISO m) :: rest.
Proof.
  unfold renderLines. cbv zeta.
  destruct (paymentLines m), (groupPeopleLines m), (sideLines m), cp,
    (jsgt (ramenTotalCount rt rs rc) (num 0)), (jsgt n (num 0));
    repeat match goal with
           | |- context [pushBlank (?d :: ?r) ++ ?x] =>
               destruct (pushBlank_head d r x) as (? & ->)
           end; eauto.
Qed.

Lemma join_head (sep x : jstring) (t : list jstring) :
  exists r, join sep (x :: t) = x ++ r.
Proof. destruct t; cbn [join]; [exists []; by rewrite app_nil_r|eauto]. Qed.

(** X18.  Whatever the state, the report starts with the date line and is
    never empty, so that the copy handler, which refuses an empty
    report, always copies it. *)
Theorem report_is_never_empty (h : Host) (st : ReportState) :
  (exists rest, output h st = jpDateLabel h (dateISO (meta st)) ++ rest)
  /\ output h st <> []
  /\ exists a, onCopy h st = Some (output h st, a).
Proof.
  assert (H : exists rest, output h st = jpDateLabel h (dateISO (meta st)) ++ rest).
  { unfold output, renderOutput.
    destruct (renderLines_head h (meta st) (ramenTotals st) (ramenSetTotals st)
                (ramenCourseTotals st) (coursePeopleEntries st)
                (num (Z.of_nat (length (unassigned st))))) as (rest & ->).
    apply join_head. }
  assert (Hne : output h st <> []).
  { destruct H as (rest & ->). apply nonBlank_app_l, jpDateLabel_nonBlank. }
  split; [done|]. split; [done|].
  unfold onCopy. destruct (output h st); [done|]. cbn [nonEmpty]. eauto.
Qed.

(** ** The report date *)

Lemma search_Bol_later (ic : bool) (r : regex) (suf pre : jstring) :
  pre <> [] -> search ic (Bol <.> r) pre suf = None.
Proof.
  revert pre. induction suf as [|c t IH]; intros pre Hpre; cbn [search run before];
    destruct pre; try done; cbn [flat_map].
  by apply IH.
Qed.

Lemma exec_anchored (r : regex) (ic : bool) (t : jstring) :
  exec (RE (Bol <.> r) ic) t
  = match run ic r (Cfg [] t []) with
    | y :: _ => Some (Match (take (length t - length (after y)) t) (caps y))
    | [] => None
    end.
Proof.
  unfold exec. cbn [ignoreCase body].
  destruct t as [|c t']; cbn [search run before flat_map]; rewrite app_nil_r.
  - by destruct (run ic r (Cfg [] [] [])).
  - destruct (run ic r (Cfg [] (c :: t') [])); [|done].
    by rewrite search_Bol_later.
Qed.

Lemma run_Seq_hyphen (r : regex) (pre suf : jstring) (g : list (nat * jstring)) :
  run false (str "-" <.> r) (Cfg pre suf g)
  = match suf with
    | c :: t => if c =? 0x2D then run false r (Cfg (c :: pre) t g) else []
    | [] => []
    end.
Proof.
  unfold str. change (utf16 "-") with [0x2D].
  cbn [lit run]. unfold step, unitMatches. cbn [after before caps].
  destruct suf as [|c t]; [done|]. rewrite (N.eqb_sym 45 c).
  destruct (c =? 45); [|done]. cbn [flat_map app]. by rewrite app_nil_r.
Qed.

Ltac column_step :=
  first [rewrite run_Seq_digit | rewrite run_Seq_hyphen | rewrite run_digit];
  match goal with
  | |- context [match ?t with [] => [] | _ :: _ => _ end] =>
      destruct t as [|? ?]; [intros Hx; exfalso; apply Hx; reflexivity|]
  end;
  match goal with
  | |- context [if ?b then _ else []] =>
      destruct b eqn:?; [|intros Hx; exfalso; apply Hx; reflexivity]
  end.

Lemma column_date_shape (t : jstring) :
  exec DATE_COLUMN_RE t <> None -> isoShaped (take 10 t) = true.
Proof.
  unfold DATE_COLUMN_RE. rewrite exec_anchored.
  do 10 column_step.
  intros _.
  match goal with
  | |- isoShaped (take 10 (?a :: ?b :: ?c :: ?d :: ?e :: ?f :: ?g :: ?i :: ?j :: ?k :: ?r)) = _ =>
      change (take 10 (a :: b :: c :: d :: e :: f :: g :: i :: j :: k :: r))
        with [a; b; c; d; e; f; g; i; j; k]
  end.
  cbn [isoShaped].
  repeat match goal with H : _ = true |- _ => rewrite H; clear H end.
  reflexivity.
Qed.

Lemma column_date_match (t : jstring) :
  isoShaped (take 10 t) = true ->
  exec DATE_COLUMN_RE t = Some (Match (take 10 t) []).
Proof.
  intros H.
  do 10 (destruct t as [|? t]; [discriminate H|]).
  change (take 10 (n :: n0 :: n1 :: n2 :: n3 :: n4 :: n5 :: n6 :: n7 :: n8 :: t))
    with [n; n0; n1; n2; n3; n4; n5; n6; n7; n8] in *.
  cbn [isoShaped] in H.
  repeat match type of H with
         | _ && _ = true => apply andb_true_iff in H as [H ?]
         end.
  unfold DATE_COLUMN_RE. rewrite exec_anchored.
  repeat (first [rewrite run_Seq_digit | rewrite run_Seq_hyphen | rewrite run_digit];
          match goal with
          | E : ?b = true |- context [if ?b then _ else []] => rewrite E
          end).
  cbn [after caps].
  change (n :: n0 :: n1 :: n2 :: n3 :: n4 :: n5 :: n6 :: n7 :: n8 :: t)
    with ([n; n0; n1; n2; n3; n4; n5; n6; n7; n8] ++ t).
  by rewrite take_consumed.
Qed.

Lemma column_date_exec (t : jstring) :
  exec DATE_COLUMN_RE t
  = if isoShaped (take 10 t) then Some (Match (take 10 t) []) else None.
Proof.
  destruct (isoShaped (take 10 t)) eqn:E; [by apply column_date_match|].
  destruct (exec DATE_COLUMN_RE t) eqn:E2; [|done].
  rewrite column_date_shape in E; [done|]. by rewrite E2.
Qed.

(** X19.  The report date is the first ten characters of the statistics
    row's period column when they have the form dddd-dd-dd, whatever
    the file names say; otherwise it is the date in the statistics file
    name, else the one in the product file name, else today's date. *)
Theorem period_column_date_takes_precedence (h : Host) (dayRow : Row)
  (statsFile productFile : PickedFile) :
  let t := cellText (rowGet dayRow (utf16 "集計期間")) in
  resolveDateISO h dayRow statsFile productFile
  = if isoShaped (take 10 t) then take 10 t
    else default (default (todayISO h) (dateFromName (fileName productFile)))
           (dateFromName (fileName statsFile)).
Proof.
  cbn zeta. unfold resolveDateISO. rewrite column_date_exec.
  destruct (isoShaped _); [done|]. cbn [fmap option_fmap option_map].
  by destruct (dateFromName (fileName statsFile)),
       (dateFromName (fileName productFile)).
Qed.

Example period_column_beats_file_name :
  resolveDateISO (sampleHost [] [])
    [(utf16 "集計期間", VStr (utf16 "2024-05-03 00:00 - 2024-05-03 23:59"))]
    {| uri := []; name := Some (utf16 "stats_20240101.xlsx"); type := None |}
    {| uri := []; name := None; type := None |}
  = utf16 "2024-05-03".
Proof. vm_compute. reflexivity. Qed.

Lemma run_Opt_str_caps (w : string) (x y : cfg) :
  y ∈ run false (Opt (str w)) x -> caps y = caps x.
Proof.
  unfold Opt, str. intros [H|H]%elem_of_run_Alt.
  - by apply run_lit_inv in H as (m & _ & _ & _ & Hg).
  - cbn [run] in H. by apply list_elem_of_singleton in H as ->.
Qed.

Lemma run_year_group (x y : cfg) :
  y ∈ run false (Group 1 (str "20" <.> digit <.> digit)) x ->
  exists a b, isDigit a = true /\ isDigit b = true
              /\ caps y = (1%nat, [0x32; 0x30; a; b]) :: caps x.
Proof.
  intros (z & Hz & ->)%elem_of_run_Group.
  apply elem_of_run_Seq in Hz as (z1 & H1 & Hz).
  apply elem_of_run_Seq in Hz as (z2 & H2 & H3).
  unfold str in H1. apply run_lit_inv in H1 as (m & _ & Hm & B1 & G1).
  cbn [foldCase] in Hm. subst m. change (utf16 "20") with [0x32; 0x30] in B1.
  apply elem_of_run_digit in H2 as (a & Da & _ & B2 & G2).
  apply elem_of_run_digit in H3 as (b & Db & _ & B3 & G3).
  exists a, b. split; [done|]. split; [done|].
  rewrite (capture_text 1 x z [0x32; 0x30; a; b]).
  - cbn [caps]. congruence.
  - rewrite B3, B2, B1. reflexivity.
Qed.

Lemma run_short_number_group (k : nat) (x y : cfg) :
  y ∈ run false (Group k (digit <.> Opt digit)) x ->
  exists m, caps y = (k, m) :: caps x
            /\ ((exists a, m = [a] /\ isDigit a = true)
                \/ (exists a b, m = [a; b] /\ isDigit a = true /\ isDigit b = true)).
Proof.
  intros (z & Hz & ->)%elem_of_run_Group.
  apply elem_of_run_Seq in Hz as (z1 & H1 & H2).
  apply elem_of_run_digit in H1 as (a & Da & _ & B1 & G1).
  unfold Opt in H2. apply elem_of_run_Alt in H2 as [H2|H2].
  - apply elem_of_run_digit in H2 as (b & Db & _ & B2 & G2).
    exists [a; b]. split; [|right; by exists a, b].
    rewrite (capture_text k x z [a; b]); [cbn [caps]; congruence|].
    rewrite B2, B1. reflexivity.
  - cbn [run] in H2. apply list_elem_of_singleton in H2 as ->.
    exists [a]. split; [|left; by exists a].
    rewrite (capture_text k x z1 [a]); [cbn [caps]; congruence|].
    rewrite B1. reflexivity.
Qed.

Lemma padStart2_short (m : jstring) :
  (exists a, m = [a] /\ isDigit a = true)
  \/ (exists a b, m = [a; b] /\ isDigit a = true /\ isDigit b = true) ->
  exists a b, padStart2 m = [a; b] /\ isDigit a = true /\ isDigit b = true.
Proof.
  intros [(a & -> & Da)|(a & b & -> & Da & Db)].
  - by exists 0x30, a.
  - by exists a, b.
Qed.

(** X20.  A date read from a file name always has the form 20dd-dd-dd: a
    month or day written with one digit is padded to two. *)
Theorem file_name_date_is_well_formed (name d : jstring) :
  dateFromName name = Some d ->
  isoShaped d = true /\ take 2 d = utf16 "20".
Proof.
  unfold dateFromName, exec. change (ignoreCase DATE_NAME_RE) with false.
  destruct (search false (body DATE_NAME_RE) [] name) as [[x y]|] eqn:E; [|done].
  intros [= <-].
  apply search_Some in E as (u & w & _ & -> & Hy & _).
  apply head_elem_of in Hy. cbn [body DATE_NAME_RE] in Hy.
  apply elem_of_run_Seq in Hy as (z1 & (y1 & y2 & D1 & D2 & G1)%run_year_group & Hy).
  apply elem_of_run_Seq in Hy as (z2 & G2%run_Opt_str_caps & Hy).
  apply elem_of_run_Seq in Hy as (z3 & G3%run_Opt_str_caps & Hy).
  apply elem_of_run_Seq in Hy as (z4 & (mm & G4 & Hmm)%run_short_number_group & Hy).
  apply elem_of_run_Seq in Hy as (z5 & G5%run_Opt_str_caps & Hy).
  apply elem_of_run_Seq in Hy as (z6 & G6%run_Opt_str_caps & Hy).
  apply elem_of_run_Seq in Hy as (z7 & (dd & G7 & Hdd)%run_short_number_group & G8%run_Opt_str_caps).
  cbn [caps] in G1.
  assert (Hg : caps y = [(3%nat, dd); (2%nat, mm); (1%nat, [0x32; 0x30; y1; y2])])
    by congruence.
  unfold groupText, group. cbn [mgroups]. rewrite Hg. cbn -[padStart2].
  apply padStart2_short in Hmm as (m1 & m2 & -> & Dm1 & Dm2).
  apply padStart2_short in Hdd as (d1 & d2 & -> & Dd1 & Dd2).
  change (utf16 "-") with [0x2D]. cbn [app isoShaped].
  rewrite D1, D2, Dm1, Dm2, Dd1, Dd2. split; reflexivity.
Qed.

Lemma file_name_date_is_well_formed_witness :
  dateFromName (utf16 "売上_2024年1月5日.xlsx") = Some (utf16 "2024-01-05")
  /\ isoShaped (utf16 "2024-01-05") = true.
Proof.
  assert (H : dateFromName (utf16 "売上_2024年1月5日.xlsx") = Some (utf16 "2024-01-05"))
    by (vm_compute; reflexivity).
  split; [exact H|].
  exact (proj1 (file_name_date_is_well_formed _ _ H)).
Defined.

(** The pattern's optional leading zero followed by a greedy one- or
    two-digit month reads the compact form 20240105 as October 5th. *)
Example compact_file_name_date_misread :
  dateFromName (utf16 "20240105.xlsx") = Some (utf16 "2024-10-05").
Proof. vm_compute. reflexivity. Qed.

(** ** Choosing the decoder *)

Lemma startsWith_spec (w s : jstring) :
  startsWith w s = true <-> exists v, s = w ++ v.
Proof.
  revert s. induction w as [|c w IH]; intros s; cbn [startsWith].
  - split; [|done]. intros _. by exists s.
  - destruct s as [|d s'].
    + split; [done|]. by intros (v & Hv).
    + rewrite andb_true_iff, N.eqb_eq, IH. split.
      * intros (-> & v & ->). by exists v.
      * intros (v & Hv). cbn [app] in Hv. injection Hv as -> ->. split; [done|].
        by exists v.
Qed.

Lemma includes_spec (w s : jstring) :
  includes w s = true <-> contains false w s.
Proof.
  unfold contains. cbn [foldCase]. induction s as [|d s IH]; cbn [includes].
  - rewrite orb_false_r, startsWith_spec. split.
    + intros (v & Hv). exists [], w, v. by split.
    + intros (u & m & v & Hs & ->). symmetry in Hs.
      apply app_eq_nil in Hs as [-> Hs]. exists v. by rewrite Hs.
  - rewrite orb_true_iff, startsWith_spec, IH. split.
    + intros [(v & ->)|(u & m & v & -> & ->)].
      * exists [], w, v. by split.
      * exists (d :: u), w, v. by split.
    + intros ([|d' u] & m & v & Hs & ->).
      * left. by exists v.
      * right. cbn [app] in Hs. injection Hs as -> ->. exists u, w, v. by split.
Qed.

Lemma elem_of_run_Eol (ic : bool) (x y : cfg) :
  y ∈ run ic Eol x <-> after x = [] /\ y = x.
Proof.
  cbn [run]. destruct (after x).
  - rewrite list_elem_of_singleton. naive_solver.
  - split; [by intros ?%elem_of_nil|]. by intros [? _].
Qed.

Lemma foldCase_app (ic : bool) (a b : jstring) :
  foldCase ic (a ++ b) = foldCase ic a ++ foldCase ic b.
Proof. destruct ic; [apply fmap_app|done]. Qed.

Lemma foldCase_length (ic : bool) (a b : jstring) :
  foldCase ic a = foldCase ic b -> length a = length b.
Proof.
  destruct ic; cbn [foldCase]; [|congruence].
  intros H. apply (f_equal length) in H. by rewrite !length_fmap in H.
Qed.

(** The file-name pattern matches exactly the names that end, up to
    ASCII case, with one of the two extensions. *)
Lemma excel_name_Found (s : jstring) :
  Found true (body EXCEL_NAME_RE) s
  <-> exists u m, s = u ++ m
                  /\ (foldCase true m = foldCase true (utf16 ".xlsx")
                      \/ foldCase true m = foldCase true (utf16 ".xls")).
Proof.
  cbn [body EXCEL_NAME_RE]. unfold Found, MatchAt, str. split.
  - intros (u & w & -> & H).
    destruct (run true _ (Cfg (rev u) w [])) as [|y l] eqn:E; [done|].
    assert (Hy : y ∈ run true
                   (lit (utf16 ".") <.> Group 1 (lit (utf16 "xlsx") <|> lit (utf16 "xls")) <.> Eol)
                   (Cfg (rev u) w [])) by (rewrite E; left).
    apply elem_of_run_Seq in Hy as (z1 & H1 & Hy).
    apply elem_of_run_Seq in Hy as (z2 & H2 & H3).
    apply run_lit_inv in H1 as (m1 & A1 & F1 & _).
    apply elem_of_run_Group in H2 as (z' & H2 & ->).
    apply elem_of_run_Eol in H3 as [A3 _]. cbn [capture after] in A3, A1.
    exists u, w. split; [done|].
    apply elem_of_run_Alt in H2 as [H2|H2];
      apply run_lit_inv in H2 as (m2 & A2 & F2 & _);
      rewrite A3, app_nil_r in A2; rewrite A1, A2, foldCase_app, F1, F2,
        <- foldCase_app; [left|right]; reflexivity.
  - intros (u & m & -> & Hm). exists u, m. split; [done|].
    assert (Hsplit : exists m1 m2 (w2 : jstring),
               m = m1 ++ m2 /\ foldCase true m1 = foldCase true (utf16 ".")
               /\ foldCase true m2 = foldCase true w2
               /\ (w2 = utf16 "xlsx" \/ w2 = utf16 "xls")).
    { destruct Hm as [Hm|Hm];
        [change (utf16 ".xlsx") with (0x2E :: utf16 "xlsx") in Hm
        |change (utf16 ".xls") with (0x2E :: utf16 "xls") in Hm];
        apply foldCase_cons_inv in Hm as (d & m' & -> & Hd & Hm');
        exists [d], m'; eexists; (split; [reflexivity|]);
        (split; [by apply unitMatches_fold|]); (split; [exact Hm'|]); auto. }
    destruct Hsplit as (m1 & m2 & w2 & -> & F1 & F2 & Hw2).
    set (x := Cfg (rev u) ((m1 ++ m2)) []).
    set (z1 := Cfg (rev m1 ++ rev u) m2 []).
    set (z' := Cfg (rev m2 ++ rev m1 ++ rev u) [] []).
    apply (not_nil_of_elem (capture 1 z1 z')).
    apply elem_of_run_Seq. exists z1. split.
    { subst x z1. rewrite (run_lit_match true _ m1 m2 _ _ F1). by left. }
    apply elem_of_run_Seq. exists (capture 1 z1 z'). split.
    + apply elem_of_run_Group. exists z'. split; [|done].
      apply elem_of_run_Alt. subst z1 z'.
      pose proof (run_lit_match true w2 m2 [] (rev m1 ++ rev u) [] F2) as R.
      rewrite app_nil_r in R.
      destruct Hw2 as [-> | ->]; [left|right]; rewrite R; by left.
    + by apply elem_of_run_Eol.
Qed.

Lemma lowerUnit_not_upper (c : N) : isUpperAscii (lowerUnit c) = false.
Proof.
  unfold lowerUnit. destruct (isUpperAscii c) eqn:E.
  - unfold isUpperAscii in *. apply andb_true_iff in E as [E1 E2].
    apply N.leb_le in E1, E2. apply andb_false_iff. right. apply N.leb_gt. lia.
  - destruct (c =? 0x212A); [reflexivity|done].
Qed.

Lemma canon_lower_inj (c d : N) :
  isUpperAscii c = false -> isUpperAscii d = false -> canon c = canon d -> c = d.
Proof.
  unfold canon, isUpperAscii, isLowerAscii. intros Hc Hd.
  apply andb_false_iff in Hc, Hd.
  destruct ((0x61 <=? c) && (c <=? 0x7A)) eqn:Lc, ((0x61 <=? d) && (d <=? 0x7A)) eqn:Ld;
    rewrite ?andb_true_iff, ?andb_false_iff, ?N.leb_le, ?N.leb_gt in *; lia.
Qed.

Lemma foldCase_lower_inj (m w : jstring) :
  Forall (fun c => isUpperAscii c = false) m ->
  Forall (fun c => isUpperAscii c = false) w ->
  foldCase true m = foldCase true w -> m = w.
Proof.
  cbn [foldCase]. intros Hm. revert w.
  induction Hm as [|c m Hc Hm IH]; intros [|d w] Hw H; try done.
  apply Forall_cons in Hw as [Hd Hw]. cbn in H. injection H as H1 H2.
  f_equal; [by apply canon_lower_inj|by apply IH].
Qed.

Lemma toLowerCase_not_upper (s : jstring) :
  Forall (fun c => isUpperAscii c = false) (toLowerCase s).
Proof.
  unfold toLowerCase. induction s; cbn [List.map]; constructor;
    [apply lowerUnit_not_upper|done].
Qed.

(** X21.  A picked file is read as a workbook exactly when its lower-cased
    name ends with .xlsx or .xls, or its lower-cased MIME type is the
    legacy Excel type or contains spreadsheetml; every other file goes to
    the CSV parser.  An extension followed by anything, as in
    report.xlsx.bak, does not count. *)
Theorem workbook_reader_is_chosen_by_suffix_or_mime (file : PickedFile) :
  let n := default [] (toLowerCase <$> name file) in
  let mime := default [] (toLowerCase <$> type file) in
  isExcelFile file = true
  <-> utf16 ".xlsx" `suffix_of` n \/ utf16 ".xls" `suffix_of` n
      \/ mime = utf16 "application/vnd.ms-excel"
      \/ contains false (utf16 "spreadsheetml") mime.
Proof.
  cbn zeta. unfold isExcelFile.
  set (n := default [] (toLowerCase <$> name file)).
  set (mime := default [] (toLowerCase <$> type file)).
  assert (Hn : Forall (fun c => isUpperAscii c = false) n).
  { subst n. destruct (name file); cbn; [apply toLowerCase_not_upper|constructor]. }
  assert (Hext : test EXCEL_NAME_RE n = true
                 <-> utf16 ".xlsx" `suffix_of` n \/ utf16 ".xls" `suffix_of` n).
  { unfold EXCEL_NAME_RE at 1. rewrite test_Found, excel_name_Found. split.
    - intros (u & m & Hs & Hm). rewrite Hs in Hn.
      apply Forall_app in Hn as [_ Hm'].
      destruct Hm as [Hm|Hm];
        (apply foldCase_lower_inj in Hm;
         [|done|vm_compute; repeat constructor]);
        subst m; [left|right]; by exists u.
    - intros [(u & ->) | (u & ->)]; eexists u, _; (split; [reflexivity|]); auto. }
  destruct (test EXCEL_NAME_RE n) eqn:T.
  - split; [|done]. intros _. destruct Hext as [Hext _].
    specialize (Hext eq_refl). tauto.
  - assert (Hno : ~ (utf16 ".xlsx" `suffix_of` n \/ utf16 ".xls" `suffix_of` n)).
    { intros H. apply Hext in H. discriminate H. }
    clear Hext.
    destruct mime as [|c mime'] eqn:Em; cbn [nonEmpty negb].
    + split; [done|]. intros [H|[H|[H|H]]]; try tauto; try discriminate H.
      destruct H as (u & m & v & Hs & Hm). cbn [foldCase] in Hm. subst m.
      symmetry in Hs. apply app_eq_nil in Hs as [_ Hs].
      apply app_eq_nil in Hs as [Hs _]. discriminate Hs.
    + rewrite <- Em. clear Em c mime'.
      destruct (bool_decide (mime ∈ EXCEL_MIME_TYPES)) eqn:B.
      * split; [|done]. intros _. apply bool_decide_eq_true in B.
        unfold EXCEL_MIME_TYPES in B.
        apply elem_of_cons in B as [-> | B]; [tauto|].
        apply list_elem_of_singleton in B as ->. right. right. right.
        apply includes_spec. vm_compute. reflexivity.
      * apply bool_decide_eq_false in B. rewrite includes_spec. split; [tauto|].
        intros [H|[H|[H|H]]]; try tauto. exfalso. apply B. rewrite H. by left.
Qed.

Example backup_of_workbook_is_read_as_csv :
  isExcelFile {| uri := []; name := Some (utf16 "Report.XLSX"); type := None |} = true
  /\ isExcelFile {| uri := []; name := Some (utf16 "report.xlsx.bak");
                    type := Some (utf16 "text/csv") |} = false.
Proof. split; vm_compute; reflexivity. Qed.

(** ** Amounts as text *)

Lemma digitsToZ_snoc (ds : jstring) (c : N) :
  digitsToZ (ds ++ [c]) = (digitsToZ ds * 10 + Z.of_N (c - 0x30))%Z.
Proof. unfold digitsToZ. by rewrite fold_left_app. Qed.

Lemma digit_of_remainder (n : N) :
  isDigit (0x30 + n mod 10) = true /\ 0x30 + n mod 10 - 0x30 = n mod 10.
Proof.
  pose proof (N.mod_upper_bound n 10 ltac:(done)) as Hlt.
  generalize dependent (n mod 10). intros m Hlt.
  unfold isDigit. split; [|lia].
  apply andb_true_iff. split; apply N.leb_le; lia.
Qed.

Lemma digitsAux_spec (f : nat) (n : N) (acc : jstring) :
  n < 2 ^ N.of_nat (S f) ->
  exists ds, digitsAux (S f) n acc = ds ++ acc /\ allDigits ds /\ ds <> []
             /\ digitsToZ ds = Z.of_N n.
Proof.
  revert n acc. induction f as [|f IH]; intros n acc Hn.
  - change (2 ^ N.of_nat 1) with 2 in Hn.
    assert (n / 10 = 0) as E by (apply N.div_small; lia).
    assert (n mod 10 = n) as E' by (apply N.mod_small; lia).
    cbn [digitsAux]. rewrite E. cbn [N.eqb].
    destruct (digit_of_remainder n) as [D R].
    exists [0x30 + n mod 10]. split; [done|]. split; [by repeat constructor|].
    split; [done|]. unfold digitsToZ. cbn [fold_left]. rewrite R, E'. lia.
  - rewrite Nat2N.inj_succ, N.pow_succ_r' in Hn.
    destruct (digit_of_remainder n) as [D R].
    change (digitsAux (S (S f)) n acc)
      with (if n / 10 =? 0 then (0x30 + n mod 10) :: acc
            else digitsAux (S f) (n / 10) ((0x30 + n mod 10) :: acc)).
    destruct (N.eqb_spec (n / 10) 0) as [E|E].
    + exists [0x30 + n mod 10]. split; [done|]. split; [by repeat constructor|].
      split; [done|]. unfold digitsToZ. cbn [fold_left]. rewrite R.
      pose proof (N.div_mod n 10 ltac:(done)) as Hdm. rewrite E in Hdm. lia.
    + assert (Hlt : n / 10 < 2 ^ N.of_nat (S f)).
      { apply N.Div0.div_lt_upper_bound. lia. }
      destruct (IH (n / 10) ((0x30 + n mod 10) :: acc) Hlt)
        as (ds & -> & Hds & Hne & Hv).
      exists (ds ++ [0x30 + n mod 10]). rewrite <- app_assoc. split; [done|].
      split; [apply Forall_app; split; [done|by repeat constructor]|].
      split; [by destruct ds|].
      rewrite digitsToZ_snoc, Hv, R.
      pose proof (N.div_mod n 10 ltac:(done)) as Hdm. lia.
Qed.

Lemma decimalDigits_spec (n : N) :
  allDigits (decimalDigits n) /\ decimalDigits n <> []
  /\ digitsToZ (decimalDigits n) = Z.of_N n.
Proof.
  unfold decimalDigits.
  destruct (digitsAux_spec (N.to_nat (N.log2 n)) n []) as (ds & E & H).
  - rewrite Nat2N.inj_succ, N2Nat.id.
    destruct (N.eq_dec n 0) as [->|Hn]; [done|].
    apply N.log2_spec. lia.
  - rewrite E, app_nil_r. exact H.
Qed.

Lemma separator_kept_digit (c : N) :
  isDigit c = true -> negb (inClass (CUnion (COneOf [0x2C]) CSpace) c) = true.
Proof.
  intros Hc. unfold isDigit in Hc. apply andb_true_iff in Hc as [H1 H2].
  apply N.leb_le in H1, H2. cbn [inClass existsb].
  destruct (N.eqb_spec c 0x2C) as [->|_]; [lia|].
  destruct (isSpace c) eqn:Es; [|done].
  apply isSpace_cases in Es. lia.
Qed.

Lemma stripSeparators_keeps_digits (ds : jstring) :
  allDigits ds -> stripSeparators ds = ds.
Proof.
  unfold stripSeparators. induction 1 as [|c t Hc Ht IH]; [done|].
  cbn [List.filter]. by rewrite (separator_kept_digit c Hc), IH.
Qed.

Lemma stripSeparators_group3 (n : nat) (ds : jstring) :
  (length ds <= n)%nat -> allDigits ds -> stripSeparators (group3 ds) = ds.
Proof.
  revert ds. induction n as [|n IH]; intros ds Hlen Hds.
  - by destruct ds; [|cbn in Hlen; lia].
  - destruct ds as [|a [|b [|c [|d t]]]];
      try (cbn [group3]; by apply stripSeparators_keeps_digits).
    apply Forall_cons in Hds as [Da Hds]. apply Forall_cons in Hds as [Db Hds].
    apply Forall_cons in Hds as [Dc Hds].
    change (group3 (a :: b :: c :: d :: t))
      with (a :: b :: c :: 0x2C :: group3 (d :: t)).
    unfold stripSeparators in *. cbn [List.filter].
    rewrite (separator_kept_digit a Da), (separator_kept_digit b Db),
      (separator_kept_digit c Dc).
    change (negb (inClass (CUnion (COneOf [0x2C]) CSpace) 0x2C)) with false.
    cbn iota. rewrite IH; [done| cbn [length] in *; lia |done].
Qed.

Lemma toLocaleString_integer (z : Z) :
  stripSeparators (toLocaleString (num z))
  = (if (z <? 0)%Z then [0x2D] else []) ++ decimalDigits (Z.to_N (Z.abs z)).
Proof.
  unfold num, toLocaleString.
  assert (Hr : Z.to_N (Qfloor (Qabs (inject_Z z) * 1000 + (1 # 2))%Q)
               = Z.to_N (Z.abs z) * 1000).
  { unfold Qfloor, Qabs, Qmult, Qplus, inject_Z. cbn [Qnum Qden].
    change (Z.pos (1 * 1)) with 1%Z. change (Z.pos (1 * 1 * 2)) with 2%Z.
    replace ((Z.abs z * 1000 * 2 + 1 * 1) `div` 2)%Z with (Z.abs z * 1000)%Z
      by (apply (Z.div_unique _ 2 _ 1); lia).
    lia. }
  rewrite Hr, N.div_mul, N.Div0.mod_mul by done.
  change (stripTrailingZeros [0x30 + 0 / 100; 0x30 + 0 / 10 mod 10; 0x30 + 0 mod 10])
    with (@nil N).
  rewrite app_nil_r.
  assert (Hs : Qltb (inject_Z z) 0 = (z <? 0)%Z).
  { apply eq_true_iff_eq. rewrite Qltb_true, Z.ltb_lt.
    unfold Qlt, inject_Z. cbn [Qnum Qden]. lia. }
  rewrite Hs.
  destruct (decimalDigits_spec (Z.to_N (Z.abs z))) as (Hds & _ & _).
  unfold stripSeparators at 1. rewrite List.filter_app.
  fold (stripSeparators (rev (group3 (rev (decimalDigits (Z.to_N (Z.abs z))))))).
  assert (Hg : stripSeparators (rev (group3 (rev (decimalDigits (Z.to_N (Z.abs z))))))
               = decimalDigits (Z.to_N (Z.abs z))).
  { unfold stripSeparators. rewrite filter_rev.
    fold (stripSeparators (group3 (rev (decimalDigits (Z.to_N (Z.abs z)))))).
    rewrite (stripSeparators_group3 _ _ (le_n _)); [by rewrite rev_involutive|].
    by apply Forall_rev. }
  rewrite Hg. by destruct (z <? 0)%Z.
Qed.

Lemma iterate_digits_head (ic : bool) (ds : jstring) :
  allDigits ds ->
  forall (fuel : nat) (pre : jstring) (g : list (nat * jstring)),
    (length ds <= fuel)%nat ->
    head (iterate (run ic digit) fuel (Cfg pre ds g)) = Some (Cfg (rev ds ++ pre) [] g).
Proof.
  induction 1 as [|c t Hc Ht IH]; intros fuel pre g Hf.
  - destruct fuel; cbn [iterate]; [done|]. by rewrite run_digit.
  - destruct fuel as [|n]; [cbn in Hf; lia|].
    cbn [iterate]. rewrite run_digit, Hc. cbn [List.filter after length].
    assert ((length t <? S (length t))%nat = true) as -> by (apply Nat.ltb_lt; lia).
    cbn [flat_map]. rewrite app_nil_r, head_app, IH by (cbn in Hf; lia).
    cbn [rev]. by rewrite <- app_assoc.
Qed.

Lemma numeric_head_digits (ds pre : jstring) (g : list (nat * jstring)) :
  allDigits ds -> ds <> [] ->
  head (run false (Plus (Cls CDigit) <.> Opt (Group 1 (Chr 0x2E <.> Plus (Cls CDigit))))
          (Cfg pre ds g))
  = Some (Cfg (rev ds ++ pre) [] g).
Proof.
  intros Hds Hne. destruct ds as [|c t]; [done|].
  apply Forall_cons in Hds as [Hc Ht].
  change (Cls CDigit) with digit. unfold Plus at 1.
  cbn [run]. fold (run false digit). rewrite run_digit, Hc.
  cbn [flat_map after]. rewrite app_nil_r.
  pose proof (iterate_digits_head false t Ht (length t) (c :: pre) g (le_n _)) as Hh.
  destruct (iterate (run false digit) (length t) (Cfg (c :: pre) t g)) as [|y l];
    [done|].
  cbn [head] in Hh. injection Hh as ->. cbn [flat_map].
  unfold Opt. cbn [run]. unfold step at 1.
  cbn [after List.map flat_map app head rev]. by rewrite <- app_assoc.
Qed.

Lemma search_first (ic : bool) (r : regex) (pre suf : jstring) (y : cfg) :
  head (run ic r (Cfg pre suf [])) = Some y ->
  search ic r pre suf = Some (Cfg pre suf [], y).
Proof.
  intros H. destruct suf; cbn [search];
    destruct (run ic r _) as [|y' l]; try done; cbn in H; congruence.
Qed.

Lemma run_Seq (ic : bool) (a b : regex) (x : cfg) :
  run ic (a <.> b) x = flat_map (run ic b) (run ic a x).
Proof. reflexivity. Qed.

Lemma run_Chr (a : N) (pre suf : jstring) (g : list (nat * jstring)) :
  run false (Chr a) (Cfg pre suf g)
  = match suf with
    | c :: t => if a =? c then [Cfg (c :: pre) t g] else []
    | [] => []
    end.
Proof. cbn [run]. unfold step, unitMatches. cbn [after before caps]. by destruct suf. Qed.

Lemma numeric_exec_after_yen (sign ds : jstring) :
  sign = [] \/ sign = [0x2D] -> allDigits ds -> ds <> [] ->
  exec NUMERIC_RE (0xA5 :: sign ++ ds) = Some (Match (sign ++ ds) []).
Proof.
  intros Hs Hds Hne. unfold exec. change (ignoreCase NUMERIC_RE) with false.
  cbn [search].
  assert (H0 : run false (body NUMERIC_RE) (Cfg [] (0xA5 :: sign ++ ds) []) = []).
  { cbn [body NUMERIC_RE]. rewrite run_Seq, run_Opt, run_Chr.
    change (45 =? 165) with false. cbn [app flat_map].
    unfold Plus. change (Cls CDigit) with digit.
    rewrite app_nil_r, run_Seq, run_Seq, run_digit.
    change (isDigit 165) with false. reflexivity. }
  rewrite H0.
  assert (H1 : head (run false (body NUMERIC_RE) (Cfg [0xA5] (sign ++ ds) []))
               = Some (Cfg (rev (sign ++ ds) ++ [0xA5]) [] [])).
  { cbn [body NUMERIC_RE]. rewrite run_Seq, run_Opt, run_Chr.
    destruct Hs as [-> | ->]; cbn [app].
    - destruct ds as [|c t]; [done|].
      assert (Hc : (45 =? c) = false).
      { apply Forall_cons in Hds as [Hc _]. apply N.eqb_neq. intros <-. done. }
      rewrite Hc. cbn [app flat_map]. rewrite app_nil_r.
      exact (numeric_head_digits (c :: t) [0xA5] [] Hds Hne).
    - change (45 =? 45) with true. cbn [app flat_map]. rewrite head_app.
      rewrite (numeric_head_digits ds [0x2D; 0xA5] [] Hds Hne).
      cbn [rev app]. by rewrite <- app_assoc. }
  apply search_first in H1.
  destruct (sign ++ ds) as [|c t] eqn:E.
  - destruct Hs as [-> | ->]; [by destruct ds|done].
  - rewrite H1. cbn [after caps]. change (length (@nil N)) with 0%nat.
    by rewrite Nat.sub_0_r, firstn_all.
Qed.

(** X22.  An amount printed for the report reads back as the same number:
    for every integer, the yen sign and the thousands separators that
    [jpCurrency] writes are exactly what [toNum] skips. *)
Theorem printed_amount_reads_back (z : Z) :
  toNum (VStr (jpCurrency (num z))) = num z.
Proof.
  unfold toNum, jpCurrency. change (utf16 "¥") with [0xA5].
  assert (Hstrip : stripSeparators ([0xA5] ++ toLocaleString (num z))
                   = 0xA5 :: stripSeparators (toLocaleString (num z))) by reflexivity.
  rewrite Hstrip, toLocaleString_integer.
  destruct (decimalDigits_spec (Z.to_N (Z.abs z))) as (Hds & Hne & Hv).
  rewrite numeric_exec_after_yen;
    [|destruct (z <? 0)%Z; auto|done|done].
  cbn [m0]. destruct (Z.ltb_spec z 0) as [Hz|Hz]; cbn [app].
  - unfold decimalToNumber. change (45 =? 45) with true. cbn iota.
    destruct (takeWhileB_all isDigit _ Hds) as [-> ->].
    destruct (decimalDigits (Z.to_N (Z.abs z))) as [|c t] eqn:E; [done|].
    rewrite Hv. unfold num. f_equal.
    change (- inject_Z (Z.of_N (Z.to_N (Z.abs z))))%Q
      with (inject_Z (- Z.of_N (Z.to_N (Z.abs z)))).
    rewrite Qred_inject_Z. f_equal. lia.
  - rewrite decimalToNumber_digits, Hv by done. unfold num. do 2 f_equal. lia.
Qed.

Example printed_amounts :
  jpCurrency (num 1234567) = utf16 "¥1,234,567"
  /\ jpCurrency (num (-1200)) = utf16 "¥-1,200".
Proof. split; vm_compute; reflexivity. Qed.
